(** * Benchmarking harness and calibration snapshot tool: a shallow embedding

    The development follows the Python scripts of the repository:
    - [BenchMarking_Circuits/bv_19998.py]  (large-circuit cost estimator),
    - [BenchMarking_Circuits/bv_algo.py]   (Bernstein-Vazirani sweep and summary),
    - [BenchMarking_Circuits/qv_10_5-_d10_25.py] (Quantum Volume sweep, multi-trial runner),
    - [BenchMarking_Circuits/qft_10_20.py] (Quantum Fourier Transform benchmark),
    - [Obtain error rates/error_rate_all_machine.py] (calibration collector),
    - [Obtain error rates/error_rate_one_machine.py] (report for one backend).

    Python integers are [Z]; Python floats are IEEE-754 binary64 values, given
    by the standard library's executable specification [spec_float]; raised
    exceptions are values of the error type [res]; the external world (clock,
    random generator, layout/routing optimizer, standard output, files) is a
    [world] threaded through a state-and-exception monad [M]. *)

From Stdlib Require Import ZArith Lia String Ascii List.
From Stdlib Require Import Floats.SpecFloat.
From Stdlib Require Import QArith Qround Qabs Qpower Lqa.
From stdpp Require Import gmap strings list.

Local Open Scope Z_scope.

(** ** Exceptions and fallible computations *)

Inductive exn_class :=
  | ValueError | OverflowError | ZeroDivisionError | IndexError
  | TypeError | AttributeError | ExternalError.

(** An instance of [Exception]: its class and [str(e)]. *)
Record exn := Exn { exn_cls : exn_class; exn_msg : string }.

Inductive res (A : Type) :=
  | Ok (a : A)
  | Raise (e : exn).
Arguments Ok {A} a.
Arguments Raise {A} e.

#[global] Instance res_ret : MRet res := @Ok.
#[global] Instance res_bind : MBind res := λ A B f m,
  match m with
  | Ok a => f a
  | Raise e => Raise e
  end.

Definition is_ok {A} (r : res A) : bool :=
  match r with Ok _ => true | Raise _ => false end.

(** ** Python numbers *)

Module PyNum.

Abbreviation float := spec_float.

(** binary64 *)
Definition prec : Z := 53.
Definition emax : Z := 1024.

Definition fzero : float := S754_zero false.

(** The exact integer [z] as an (unnormalised) finite float. *)
Definition exact_int (z : Z) : float :=
  match z with
  | Z0 => S754_zero false
  | Zpos p => S754_finite false p 0
  | Zneg p => S754_finite true p 0
  end.

(** [float(z)]: the nearest double, ties to even; too large raises. *)
Definition float_of_int (z : Z) : res float :=
  match binary_normalize prec emax z 0 false with
  | S754_infinity _ =>
      Raise (Exn OverflowError "int too large to convert to float")
  | f => Ok f
  end.

(** [a / b] on two ints (true division): the correctly rounded quotient of
    the exact operands. *)
Definition int_truediv (a b : Z) : res float :=
  if b =? 0 then Raise (Exn ZeroDivisionError "division by zero")
  else
    match a with
    | Z0 => Ok (S754_zero (b <? 0))
    | _ =>
        match SFdiv prec emax (exact_int a) (exact_int b) with
        | S754_infinity _ =>
            Raise (Exn OverflowError
                     "integer division result too large for a float")
        | f => Ok f
        end
    end.

(** [x / k] for a float [x] and an int [k]: [k] is converted first. *)
Definition float_div_int (x : float) (k : Z) : res float :=
  if k =? 0 then Raise (Exn ZeroDivisionError "float division by zero")
  else fk ← float_of_int k; Ok (SFdiv prec emax x fk).

Definition fadd (x y : float) : float := SFadd prec emax x y.
Definition fsub (x y : float) : float := SFsub prec emax x y.

(** [int(f)]: truncation toward zero. *)
Definition int_of_float (f : float) : res Z :=
  match f with
  | S754_zero _ => Ok 0
  | S754_finite s m e => Ok (cond_Zopp s (Z.shiftl (Zpos m) e))
  | S754_infinity _ =>
      Raise (Exn OverflowError "cannot convert float infinity to integer")
  | S754_nan =>
      Raise (Exn ValueError "cannot convert float NaN to integer")
  end.

(** The last step of [binary_round_aux]: renormalise the rounded mantissa
    and check for overflow. *)
Definition round_finish (sx : bool) (m e : Z) : float :=
  let '(mrs, e') := shr_fexp prec emax m e loc_Exact in
  match shr_m mrs with
  | Z0 => S754_zero sx
  | Zpos p =>
      if e' <=? emax - prec then S754_finite sx p e' else S754_infinity sx
  | _ => S754_nan
  end.

(** [range(n)] *)
Definition py_range (n : Z) : list Z :=
  List.map Z.of_nat (seq 0 (Z.to_nat n)).

(** [sum(xs)] over ints: exact. *)
Definition py_sum (xs : list Z) : Z := fold_left Z.add xs 0.

End PyNum.
Import PyNum.

(** ** Text, circuits and records *)

(** An f-string before rendering: literal pieces and formatted values. *)
Inductive frag :=
  | Lit (s : string)
  | FInt (z : Z)
  | FStr (s : string)
  | FFloat (spec : string) (x : float).

Definition text := list frag.

(** The part of the external circuit object model the scripts rely on: the
    recorded operation list [qc.data]. *)
Record instruction := Instr {
  op_name : string;
  op_qubits : list Z;
  op_clbits : list Z
}.

Record circuit := Circuit {
  circ_qubits : Z;
  circ_clbits : Z;
  data : list instruction
}.

(** A value handed over by the hardware-provider client. *)
Inductive pyval :=
  | PNone
  | PBool (b : bool)
  | PInt (z : Z)
  | PFloat (x : float)
  | PStr (s : string).

(** The dictionaries of a calibration snapshot.  The live path and the
    substitute path write different key sets; an absent key is [None]. *)
Record qubit_entry := QubitEntry {
  e_qubit : option Z;
  e_T1 : string;
  e_T2 : string;
  e_readout_error : string;
  e_frequency : option string
}.

Record gate_entry := GateEntry {
  ge_gate : option string;
  ge_qubits : option (list Z);
  ge_error_rate : pyval;
  ge_gate_length : option pyval
}.

Record device_record := DeviceRecord {
  operational : bool;
  pending_jobs : Z;
  qubits : list qubit_entry;
  cx_gates : list gate_entry;
  last_update : option (option string)
}.

(** ** The external world *)

Inductive file_body :=
  | DictLines (ls : list (list (string * text)))  (* one dict literal per line *)
  | JsonDump (doc : gmap string device_record).

Record world := World {
  clock_reads : nat;       (* calls of [time.time()] so far *)
  rng_draws : nat;         (* calls into [random] so far *)
  pm_calls : nat;          (* calls of [pass_manager.run] so far *)
  matmuls : nat;           (* synthetic matrix products computed so far *)
  stdout : list text;      (* printed lines, oldest first *)
  files : list (text * file_body)  (* files written: path and content *)
}.

Definition world0 : world := World 0 0 0 0 [] [].

(** State and exceptions: a raised exception keeps the effects done so far. *)
Definition M (A : Type) : Type := world → res A * world.

#[global] Instance M_ret : MRet M := λ A a w, (Ok a, w).
#[global] Instance M_bind : MBind M := λ A B f m w,
  match m w with
  | (Ok a, w') => f a w'
  | (Raise e, w') => (Raise e, w')
  end.

Definition raise {A} (e : exn) : M A := λ w, (Raise e, w).

Definition lift {A} (r : res A) : M A := λ w, (r, w).

(** [try: body  except Exception as e: handler e] *)
Definition try_except {A} (body : M A) (handler : exn → M A) : M A := λ w,
  match body w with
  | (Ok a, w') => (Ok a, w')
  | (Raise e, w') => handler e w'
  end.

Definition print (line : text) : M unit := λ w,
  (Ok tt, World (clock_reads w) (rng_draws w) (pm_calls w) (matmuls w)
             (stdout w ++ [line]) (files w)).

Definition write_file (path : text) (body : file_body) : M unit := λ w,
  (Ok tt, World (clock_reads w) (rng_draws w) (pm_calls w) (matmuls w)
             (stdout w) (files w ++ [(path, body)])).

(** The world after [n] more clock reads, matrix products, generator calls
    or optimizer calls. *)
Definition tick_clock (n : nat) (w : world) : world :=
  World (n + clock_reads w) (rng_draws w) (pm_calls w) (matmuls w)
        (stdout w) (files w).

Definition add_matmuls (n : nat) (w : world) : world :=
  World (clock_reads w) (rng_draws w) (pm_calls w) (n + matmuls w)
        (stdout w) (files w).

Definition tick_rng (n : nat) (w : world) : world :=
  World (clock_reads w) (n + rng_draws w) (pm_calls w) (matmuls w)
        (stdout w) (files w).

Definition tick_pm (n : nat) (w : world) : world :=
  World (clock_reads w) (rng_draws w) (n + pm_calls w) (matmuls w)
        (stdout w) (files w).

Definition add_stdout (ls : list text) (w : world) : world :=
  World (clock_reads w) (rng_draws w) (pm_calls w) (matmuls w)
        (stdout w ++ ls) (files w).

(** [for x in xs: body x], with the loop-carried variables as [acc]. *)
Fixpoint for_each {A S} (xs : list A) (body : S → A → M S) (acc : S) : M S :=
  match xs with
  | [] => mret acc
  | x :: xs' => acc' ← body acc x; for_each xs' body acc'
  end.

(** [s.count(c)] for a one-character [c]. *)
Fixpoint str_count (c : ascii) (s : string) : Z :=
  match s with
  | EmptyString => 0
  | String a s' => (if Ascii.eqb a c then 1 else 0) + str_count c s'
  end.

(** [l[i] = x] on a Python list. *)
Definition list_setitem {A} (l : list A) (i : Z) (x : A) : res (list A) :=
  let n := Z.of_nat (length l) in
  if (0 <=? i) && (i <? n) then Ok (<[Z.to_nat i := x]> l)
  else if (- n <=? i) && (i <? 0) then Ok (<[Z.to_nat (n + i) := x]> l)
  else Raise (Exn IndexError "list assignment index out of range").

(** [s[i]] for [0 <= i]. *)
Definition str_getitem (s : string) (i : Z) : res ascii :=
  match (if 0 <=? i then String.get (Z.to_nat i) s else None) with
  | Some c => Ok c
  | None => Raise (Exn IndexError "string index out of range")
  end.

(** A coupling map: the directed edges of the connectivity graph. *)
Definition coupling_map := list (Z * Z).

(** *** Calls into the world *)

Section Oracles.
(** [now k]: what the [k]-th call of [time.time()] returns. *)
Variable now : nat → float.
(** [rand_sample k n m]: what [random.sample(range(n), m)] returns when it
    is the [k]-th call into the generator. *)
Variable rand_sample : nat → Z → Z → list Z.
(** [rand_bit k]: whether [random.choice('01')] picks ['1'] when it is the
    [k]-th call into the generator. *)
Variable rand_bit : nat → bool.
(** [pm_run k cm qc]: the outcome of the [k]-th call of
    [pass_manager.run(qc)], for the pass manager built on [cm]. *)
Variable pm_run : nat → coupling_map → circuit → res circuit.

Definition time_time : M float := λ w,
  (Ok (now (clock_reads w)),
   World (S (clock_reads w)) (rng_draws w) (pm_calls w) (matmuls w)
         (stdout w) (files w)).

(** [random.sample(range(n), k)] *)
Definition random_sample_range (n k : Z) : M (list Z) := λ w,
  if (k <? 0) || (Z.max n 0 <? k) then
    (Raise (Exn ValueError
              "Sample larger than population or is negative"), w)
  else
    (Ok (rand_sample (rng_draws w) n k),
     World (clock_reads w) (S (rng_draws w)) (pm_calls w) (matmuls w)
           (stdout w) (files w)).

(** [random.choice('01')] *)
Definition random_choice01 : M ascii := λ w,
  (Ok (if rand_bit (rng_draws w) then "1" else "0")%char,
   World (clock_reads w) (S (rng_draws w)) (pm_calls w) (matmuls w)
         (stdout w) (files w)).

(** [pass_manager.run(qc)] *)
Definition pass_manager_run (cm : coupling_map) (qc : circuit) : M circuit :=
  λ w,
  (pm_run (pm_calls w) cm qc,
   World (clock_reads w) (rng_draws w) (S (pm_calls w)) (matmuls w)
         (stdout w) (files w)).

(** [_ = np.random.rand(1000, 1000) @ np.random.rand(1000, 10)] *)
Definition matmul_work : M unit := λ w,
  (Ok tt, World (clock_reads w) (rng_draws w) (pm_calls w) (S (matmuls w))
             (stdout w) (files w)).
End Oracles.

(** The swap-counting loop shared by the transpile wrappers:
    [for instruction in qc.data: if instruction.operation.name == 'swap': ...] *)
Definition count_swaps (qc : circuit) : Z :=
  fold_left (λ swap_count instruction,
               if String.eqb (op_name instruction) "swap"
               then swap_count + 1 else swap_count)
            (data qc) 0.

(** ** bv_19998.py: circuit metadata and the large-circuit cost estimator *)

Module BvLarge.

Record circuit_meta := CircuitMeta {
  n_qubits : Z;
  hidden_string : string;
  num_cx : Z;
  depth : Z;
  total_gates : Z
}.

(** The stand-in coupling description handed to the estimator. *)
Record coupling_desc := CouplingDesc {
  cm_type : string;
  cm_size : Z;
  cm_avg_connectivity : Z
}.

(** [large_coupling_map] of [benchmark_large_bv]. *)
Definition large_coupling_map : coupling_desc :=
  CouplingDesc "heavy-hex" 20000 3.

(** The density of ones in a generated hidden string: one qubit in ten. *)
Definition density : Q := 1 # 10.

(** The number of ['1'] characters of a character list. *)
Definition count1 (l : list ascii) : Z :=
  str_count "1" (string_of_list_ascii l).

Section Externals.
Variable now : nat → float.
Variable rand_sample : nat → Z → Z → list Z.

Definition create_large_bv_circuit (n_qubits : Z)
    (hidden_string : option string) : M circuit_meta :=
  hidden_string ←
    match hidden_string with
    | Some s => mret s
    | None =>
        let num_ones := n_qubits / 10 in
        positions ← random_sample_range rand_sample n_qubits num_ones;
        let zeros := replicate (Z.to_nat n_qubits) "0"%char in
        chars ← for_each positions
                  (λ hs pos, lift (list_setitem hs pos "1"%char)) zeros;
        mret (string_of_list_ascii chars)
    end;
  mret {| n_qubits := n_qubits;
          hidden_string := hidden_string;
          num_cx := str_count "1" hidden_string;
          depth := 2 + str_count "1" hidden_string;
          total_gates := 2 * n_qubits + 1 + str_count "1" hidden_string |}.

Definition estimate_sabre_performance (meta : circuit_meta)
    (coupling_map : coupling_desc) : M (Z * Z * float) :=
  let n_qubits := n_qubits meta in
  let num_cx := num_cx meta in
  start_time ← time_time now;
  let avg_distance := 2 in
  q ← lift (int_truediv (num_cx * avg_distance) 3);
  estimated_swaps ← lift (int_of_float q);
  _ ← for_each (py_range (Z.min 1000 n_qubits))
        (λ _ _, matmul_work) tt;
  end_time ← time_time now;
  let transpile_time := fsub end_time start_time in
  let estimated_depth := depth meta + estimated_swaps * 3 in
  mret (estimated_swaps, estimated_depth, transpile_time).

End Externals.

End BvLarge.

(** ** Circuit construction helpers (calls on the circuit object) *)

Definition nl : string := String (ascii_of_nat 10) EmptyString.

(** [QuantumCircuit(n_q, n_c)]: register sizes must not be negative. *)
Definition new_circuit (n_q n_c : Z) : M circuit :=
  if (n_q <? 0) || (n_c <? 0) then
    raise (Exn ExternalError "Register size must be non-negative")
  else mret (Circuit n_q n_c []).

(** [qc.x(i)], [qc.h(i)], [qc.cx(i, j)]: one more recorded operation. *)
Definition append_gate (qc : circuit) (name : string) (qs cs : list Z)
    : circuit :=
  Circuit (circ_qubits qc) (circ_clbits qc) (data qc ++ [Instr name qs cs]).

(** ** bv_algo.py: the Bernstein-Vazirani sweep *)

Module BvAlgo.

Record bench_record := BenchRecord {
  r_qubits : Z;
  r_circuit_idx : Z;
  r_hidden_string : string;
  r_swap_count : Z;
  r_transpile_time : float;
  r_original_depth : Z;
  r_transpiled_depth : Z;
  r_original_size : Z;
  r_transpiled_size : Z
}.

(** [f"{result}"]: the dict literal written to the results file. *)
Definition record_repr (r : bench_record) : list (string * text) :=
  [ ("qubits", [FInt (r_qubits r)]);
    ("circuit_idx", [FInt (r_circuit_idx r)]);
    ("hidden_string", [FStr (r_hidden_string r)]);
    ("swap_count", [FInt (r_swap_count r)]);
    ("transpile_time", [FFloat EmptyString (r_transpile_time r)]);
    ("original_depth", [FInt (r_original_depth r)]);
    ("transpiled_depth", [FInt (r_transpiled_depth r)]);
    ("original_size", [FInt (r_original_size r)]);
    ("transpiled_size", [FInt (r_transpiled_size r)]) ].

Section Externals.
Variable now : nat → float.
Variable rand_bit : nat → bool.
Variable pm_run : nat → coupling_map → circuit → res circuit.
(** [qc.depth()] *)
Variable circuit_depth : circuit → Z.
(** [CouplingMap(FakeWashingtonV2().configuration().coupling_map)] *)
Variable washington : coupling_map.
(** The builtin [sum] over floats. *)
Variable float_sum : list float → float.

Definition create_bv_circuit (n_qubits : Z) (hidden_string : option string)
    : M (circuit * string) :=
  hidden_string ←
    match hidden_string with
    | Some s => mret s
    | None =>
        chars ← for_each (py_range n_qubits)
                  (λ acc _, c ← random_choice01 rand_bit; mret (acc ++ [c]))
                  [];
        mret (string_of_list_ascii chars)
    end;
  qc ← new_circuit (n_qubits + 1) n_qubits;
  let qc := append_gate qc "x" [n_qubits] [] in
  let qc := fold_left (λ qc i, append_gate qc "h" [i] [])
                      (py_range (n_qubits + 1)) qc in
  qc ← for_each (py_range n_qubits)
         (λ qc i,
            bit ← lift (str_getitem hidden_string i);
            mret (if Ascii.eqb bit "1"
                  then append_gate qc "cx" [i; n_qubits] [] else qc))
         qc;
  let qc := fold_left (λ qc i, append_gate qc "h" [i] [])
                      (py_range n_qubits) qc in
  let qc := fold_left (λ qc i, append_gate qc "measure" [i] [i])
                      (py_range n_qubits) qc in
  mret (qc, hidden_string).

Definition transpile_with_sabre (qc : circuit) (cm : coupling_map)
    : M (circuit * float * Z) :=
  start_time ← time_time now;
  transpiled_qc ← pass_manager_run pm_run cm qc;
  end_time ← time_time now;
  let transpile_time := fsub end_time start_time in
  let swap_count := count_swaps transpiled_qc in
  mret (transpiled_qc, transpile_time, swap_count).

Definition size (qc : circuit) : Z := Z.of_nat (length (data qc)).

(** Lines 101-126: one iteration's [try] / [except]. *)
Definition run_one (cm : coupling_map) (results : list bench_record)
    (n_qubits i : Z) (qc : circuit) (hidden_string : string)
    : M (list bench_record) :=
  try_except
    ('(transpiled_qc, transpile_time, swap_count) ←
        transpile_with_sabre qc cm;
     let result :=
       {| r_qubits := n_qubits;
          r_circuit_idx := i;
          r_hidden_string := hidden_string;
          r_swap_count := swap_count;
          r_transpile_time := transpile_time;
          r_original_depth := circuit_depth qc;
          r_transpiled_depth := circuit_depth transpiled_qc;
          r_original_size := size qc;
          r_transpiled_size := size transpiled_qc |} in
     let results := results ++ [result] in
     _ ← print [Lit "    Swap count: "; FInt swap_count;
                Lit ", Time: "; FFloat ".4f" transpile_time; Lit "s"];
     _ ← print [Lit "    Original depth: "; FInt (circuit_depth qc);
                Lit ", Transpiled depth: ";
                FInt (circuit_depth transpiled_qc)];
     _ ← print [Lit "    Original size: "; FInt (size qc);
                Lit ", Transpiled size: "; FInt (size transpiled_qc)];
     mret results)
    (λ e, _ ← print [Lit "    Error: "; FStr (exn_msg e)]; mret results).

(** Lines 138-140: the three averages of one non-empty group. *)
Definition averages (qubit_results : list bench_record)
    : res (float * float * float) :=
  let len := Z.of_nat (length qubit_results) in
  avg_swap ← int_truediv (py_sum (r_swap_count <$> qubit_results)) len;
  avg_time ←
    float_div_int (float_sum (r_transpile_time <$> qubit_results)) len;
  avg_depth_increase ←
    int_truediv
      (py_sum ((λ r, r_transpiled_depth r - r_original_depth r)
                 <$> qubit_results)) len;
  Ok (avg_swap, avg_time, avg_depth_increase).

(** Lines 136-145: the summary of one qubit count. *)
Definition summary_group (results : list bench_record) (n_qubits : Z)
    : M unit :=
  let qubit_results :=
    List.filter (λ r, r_qubits r =? n_qubits) results in
  match qubit_results with
  | [] => mret tt
  | _ =>
      '(avg_swap, avg_time, avg_depth_increase) ←
         lift (averages qubit_results);
      _ ← print [Lit "Qubits: "; FInt n_qubits];
      _ ← print [Lit "  Avg SWAP count: "; FFloat ".2f" avg_swap];
      _ ← print [Lit "  Avg transpile time: ";
                 FFloat ".4f" avg_time; Lit "s"];
      print [Lit "  Avg depth increase: ";
             FFloat ".2f" avg_depth_increase]
  end.

(** Lines 134-145. *)
Definition summary_statistics (qubit_range : list Z)
    (results : list bench_record) : M unit :=
  _ ← print [Lit nl; Lit "Summary Statistics:"];
  for_each qubit_range (λ _ n_qubits, summary_group results n_qubits) tt.

(** *** The summary in the words of its description *)

(** [g] is the group of the records of [results] with qubit count [n], in
    the order of the run. *)
Inductive group_of (n : Z) : list bench_record → list bench_record → Prop :=
  | group_nil : group_of n [] []
  | group_take r rs g :
      r_qubits r = n → group_of n rs g → group_of n (r :: rs) (r :: g)
  | group_skip r rs g :
      r_qubits r ≠ n → group_of n rs g → group_of n (r :: rs) g.

(** The unweighted arithmetic mean of [k] ints: their exact sum over [k]. *)
Definition mean_int (xs : list Z) : res float :=
  int_truediv (py_sum xs) (Z.of_nat (length xs)).

(** The unweighted arithmetic mean of [k] floats: their sum over [k]. *)
Definition mean_float (xs : list float) : res float :=
  float_div_int (float_sum xs) (Z.of_nat (length xs)).

Definition depth_increase (r : bench_record) : Z :=
  r_transpiled_depth r - r_original_depth r.

(** The four lines printed for a group. *)
Definition group_report (n : Z) (avg_swap avg_time avg_depth_increase : float)
    : list text :=
  [ [Lit "Qubits: "; FInt n];
    [Lit "  Avg SWAP count: "; FFloat ".2f" avg_swap];
    [Lit "  Avg transpile time: "; FFloat ".4f" avg_time; Lit "s"];
    [Lit "  Avg depth increase: "; FFloat ".2f" avg_depth_increase] ].

(** No average of the group of [n] overflows. *)
Definition group_ok (results : list bench_record) (n : Z) : bool :=
  match List.filter (λ r, r_qubits r =? n) results with
  | [] => true
  | qubit_results => is_ok (averages qubit_results)
  end.

(** The lines a group contributes to the summary. *)
Definition group_lines (results : list bench_record) (n : Z) : list text :=
  match List.filter (λ r, r_qubits r =? n) results with
  | [] => []
  | qubit_results =>
      match averages qubit_results with
      | Ok (avg_swap, avg_time, avg_depth_increase) =>
          group_report n avg_swap avg_time avg_depth_increase
      | Raise _ => []
      end
  end.

(** Lines 96-126: the body of the inner loop. *)
Definition sweep_body (cm : coupling_map) (n_qubits num_circuits_per_size : Z)
    (results : list bench_record) (i : Z) : M (list bench_record) :=
  '(qc, hidden_string) ← create_bv_circuit n_qubits None;
  _ ← print [Lit "  Circuit "; FInt (i + 1); Lit "/";
             FInt num_circuits_per_size;
             Lit " - Hidden string: "; FStr hidden_string];
  run_one cm results n_qubits i qc hidden_string.

(** [benchmark_bv_circuits], with its two local constants as
    parameters. *)
Definition benchmark_bv_sweep (qubit_range : list Z)
    (num_circuits_per_size : Z) : M (list bench_record) :=
  let cm := washington in
  _ ← print [Lit "Running Bernstein-Vazirani benchmarks..."];
  results ←
    for_each qubit_range
      (λ results n_qubits,
         _ ← print [Lit nl; Lit "Testing with "; FInt n_qubits;
                    Lit " qubits:"];
         for_each (py_range num_circuits_per_size)
           (sweep_body cm n_qubits num_circuits_per_size) results)
      [];
  _ ← write_file [Lit "bv_benchmark_results.txt"]
        (DictLines (record_repr <$> results));
  _ ← summary_statistics qubit_range results;
  mret results.

Definition qubit_range : list Z := [5; 10; 15; 20; 25; 30; 35; 40; 45; 50].
Definition num_circuits_per_size : Z := 5.

Definition benchmark_bv_circuits : M (list bench_record) :=
  benchmark_bv_sweep qubit_range num_circuits_per_size.

End Externals.

End BvAlgo.

(** ** qv_10_5-_d10_25.py: the Quantum Volume sweep *)

Module Qv.

(** [best_swap_count]: [float('inf')] until a trial has been recorded. *)
Inductive swap_bound :=
  | Infinity
  | Count (n : Z).

(** [swap_count < best_swap_count] *)
Definition lt_bound (swap_count : Z) (best : swap_bound) : bool :=
  match best with
  | Infinity => true
  | Count b => swap_count <? b
  end.

Definition bound_frag (b : swap_bound) : frag :=
  match b with
  | Infinity => Lit "inf"
  | Count n => FInt n
  end.

Record bench_record := BenchRecord {
  r_qubits : Z;
  r_depth : Z;
  r_circuit_idx : Z;
  r_swap_count : swap_bound;
  r_transpile_time : float;
  r_original_depth : Z;
  r_transpiled_depth : Z
}.

Definition record_repr (r : bench_record) : list (string * text) :=
  [ ("qubits", [FInt (r_qubits r)]);
    ("depth", [FInt (r_depth r)]);
    ("circuit_idx", [FInt (r_circuit_idx r)]);
    ("swap_count", [bound_frag (r_swap_count r)]);
    ("transpile_time", [FFloat EmptyString (r_transpile_time r)]);
    ("original_depth", [FInt (r_original_depth r)]);
    ("transpiled_depth", [FInt (r_transpiled_depth r)]) ].

Section Externals.
Variable now : nat → float.
Variable pm_run : nat → coupling_map → circuit → res circuit.
Variable circuit_depth : circuit → Z.
Variable washington : coupling_map.
(** [QuantumVolume(n_qubits, depth, seed=seed)] *)
Variable QuantumVolume : Z → Z → Z → circuit.

Definition generate_qv_circuits (qubit_range depth_range : list Z)
    (num_circuits : Z) : list circuit * list (Z * Z * Z) :=
  fold_left
    (λ acc n_qubits,
       fold_left
         (λ acc depth,
            fold_left
              (λ '(circuits, params) i,
                 let seed := i + n_qubits * 100 + depth * 10000 in
                 let qv := QuantumVolume n_qubits depth seed in
                 (circuits ++ [qv], params ++ [(n_qubits, depth, i)]))
              (py_range num_circuits) acc)
         depth_range acc)
    qubit_range ([], []).

(** Lines 38-46: count the swaps of a trial's circuit and keep it when it
    beats the best so far. *)
Definition keep_best (best : option circuit * swap_bound)
    (transpiled_qc : circuit) : option circuit * swap_bound :=
  let '(best_circuit, best_swap_count) := best in
  let swap_count := count_swaps transpiled_qc in
  if lt_bound swap_count best_swap_count
  then (Some transpiled_qc, Count swap_count)
  else (best_circuit, best_swap_count).

(** What a best pair says about the trial circuits seen so far: nothing
    kept before the first trial; afterwards the kept circuit is one of the
    trials, its swap count is the least one, and every earlier trial had
    strictly more swaps. *)
Definition best_of_seen (seen : list circuit)
    (best : option circuit * swap_bound) : Prop :=
  (seen = [] ∧ best = (None, Infinity)) ∨
  ∃ (i : nat) c,
    seen !! i = Some c ∧
    best = (Some c, Count (count_swaps c)) ∧
    (∀ (j : nat) c', seen !! j = Some c' → count_swaps c ≤ count_swaps c') ∧
    (∀ (j : nat) c', seen !! j = Some c' → (j < i)%nat →
                     count_swaps c < count_swaps c').

Definition transpile_with_sabre (qc : circuit) (cm : coupling_map)
    (num_trials : Z) : M (option circuit * swap_bound * float) :=
  start_time ← time_time now;
  '(best_circuit, best_swap_count) ←
    for_each (py_range num_trials)
      (λ best _,
         transpiled_qc ← pass_manager_run pm_run cm qc;
         mret (keep_best best transpiled_qc))
      (None, Infinity);
  end_time ← time_time now;
  let transpile_time := fsub end_time start_time in
  mret (best_circuit, best_swap_count, transpile_time).

(** [transpiled_qc.depth()] on what [transpile_with_sabre] returned. *)
Definition depth_of (transpiled_qc : option circuit) : M Z :=
  match transpiled_qc with
  | Some qc => mret (circuit_depth qc)
  | None =>
      raise (Exn AttributeError
               "'NoneType' object has no attribute 'depth'")
  end.

(** Lines 78-92: what the sweep does with the runner's return value. *)
Definition record_result (results : list bench_record)
    (n_qubits depth idx : Z) (qc : circuit)
    (ret : option circuit * swap_bound * float) : M (list bench_record) :=
  let '(transpiled_qc, swap_count, transpile_time) := ret in
  transpiled_depth ← depth_of transpiled_qc;
  let result :=
    {| r_qubits := n_qubits;
       r_depth := depth;
       r_circuit_idx := idx;
       r_swap_count := swap_count;
       r_transpile_time := transpile_time;
       r_original_depth := circuit_depth qc;
       r_transpiled_depth := transpiled_depth |} in
  let results := results ++ [result] in
  transpiled_depth' ← depth_of transpiled_qc;
  _ ← print [Lit "  Swap count: "; bound_frag swap_count;
             Lit ", Time: "; FFloat ".4f" transpile_time;
             Lit "s, Original depth: "; FInt (circuit_depth qc);
             Lit ", Transpiled depth: "; FInt transpiled_depth'];
  mret results.

(** Lines 72-92: the body of the sweep loop. *)
Definition sweep_body (cm : coupling_map) (total : Z)
    (results : list bench_record) (item : Z * (circuit * (Z * Z * Z)))
    : M (list bench_record) :=
  let '(i, (qc, (n_qubits, depth, idx))) := item in
  _ ← print [Lit "Processing circuit "; FInt (i + 1); Lit "/";
             FInt total; Lit ": ";
             FInt n_qubits; Lit " qubits, depth "; FInt depth;
             Lit ", idx "; FInt idx];
  ret ← transpile_with_sabre qc cm 1;
  record_result results n_qubits depth idx qc ret.

(** [benchmark_qv_circuits], with its three local constants as
    parameters. *)
Definition benchmark_qv_sweep (qubit_range depth_range : list Z)
    (num_circuits_per_config : Z) : M (list bench_record) :=
  let cm := washington in
  _ ← print [Lit "Generating QV circuits..."];
  let '(circuits, params) :=
    generate_qv_circuits qubit_range depth_range
      num_circuits_per_config in
  _ ← print [Lit "Generated "; FInt (Z.of_nat (length circuits));
             Lit " QV circuits"];
  _ ← print [Lit "Running benchmarks..."];
  results ←
    for_each (imap (λ i x, (Z.of_nat i, x)) (zip circuits params))
      (sweep_body cm (Z.of_nat (length circuits))) [];
  _ ← write_file [Lit "qv_benchmark_results.txt"]
        (DictLines (record_repr <$> results));
  mret results.

Definition qubit_range : list Z := [10; 15; 20; 25; 30].
Definition depth_range : list Z := [10; 15; 20; 25].
Definition num_circuits_per_config : Z := 10.

Definition benchmark_qv_circuits : M (list bench_record) :=
  benchmark_qv_sweep qubit_range depth_range num_circuits_per_config.

End Externals.

End Qv.

(** ** error_rate_all_machine.py: the calibration collector *)

Module Calibration.

(** *** What the provider client hands over *)

Record param := Param { p_name : string; p_value : pyval }.

(** An entry of [props.gates], an object of the client's gate class.  It
    carries [gate], [qubits] and [parameters]; the further keys of the
    backend's data (there is one, [name]) are reached through the class's
    attribute hook, which raises for a key the data does not have. *)
Record gate := Gate {
  g_gate : string;
  g_qubits : list Z;
  g_parameters : list param;
  g_name : string
}.

Definition attr_undefined (attr : string) : exn :=
  Exn AttributeError ("Attribute " +:+ attr +:+ " is not defined").

(** [gate.<attr>] for an attribute other than [gate], [qubits] and
    [parameters]. *)
Definition gate_getattr (g : gate) (attr : string) : res pyval :=
  if String.eqb attr "name" then Ok (PStr (g_name g))
  else Raise (attr_undefined attr).

(** [backend.properties()]: the metric getters may raise. *)
Record properties := Properties {
  t1 : Z → res pyval;
  t2 : Z → res pyval;
  readout_error : Z → res pyval;
  frequency : Z → res pyval;
  gates : list gate;
  last_update_date : option string   (* its [isoformat()], when set *)
}.

Record backend_status := BackendStatus {
  s_operational : bool;
  s_pending_jobs : Z
}.

Record backend := Backend {
  name : string;
  num_qubits : Z;
  status : res backend_status;              (* [backend.status()] *)
  get_properties : res (option properties)  (* [backend.properties()] *)
}.

Record fake_backend := FakeBackend {
  fake_num_qubits : Z;
  fake_properties : res properties
}.

(** The exception the live query of a backend raises, if any: from
    [backend.status()], else from [backend.properties()]. *)
Definition live_query_error (b : backend) : option exn :=
  match status b with
  | Raise e => Some e
  | Ok _ =>
      match get_properties b with
      | Raise e => Some e
      | Ok _ => None
      end
  end.

(** *** String helpers *)

Definition ascii_lower (c : ascii) : ascii :=
  let n := nat_of_ascii c in
  if ((65 <=? n) && (n <=? 90))%nat then ascii_of_nat (n + 32) else c.

(** [s.lower()] *)
Fixpoint str_lower (s : string) : string :=
  match s with
  | EmptyString => EmptyString
  | String c s' => String (ascii_lower c) (str_lower s')
  end.

(** [pat in s] *)
Fixpoint in_str (pat s : string) : bool :=
  String.prefix pat s ||
  match s with
  | EmptyString => false
  | String _ s' => in_str pat s'
  end.

(** [s] contains [pat] up to the case of its letters ([pat] in lower
    case). *)
Definition contains_ci (pat s : string) : Prop :=
  ∃ pre mid post, s = pre +:+ mid +:+ post ∧ str_lower mid = pat.

(** Truth value of a client value. *)
Definition truthy (v : pyval) : bool :=
  match v with
  | PNone => false
  | PBool b => b
  | PInt z => negb (z =? 0)
  | PFloat (S754_zero _) => false
  | PFloat _ => true
  | PStr s => negb (String.eqb s EmptyString)
  end.

Fixpoint res_map {A B} (f : A → res B) (l : list A) : res (list B) :=
  match l with
  | [] => Ok []
  | x :: l' => y ← f x; ys ← res_map f l'; Ok (y :: ys)
  end.

Section Externals.
(** Rendering of a float under a format spec ([".2e"], [".4f"]). *)
Variable format_float : string → float → string.
(** [str(v)] *)
Variable py_str : pyval → string.
(** [FakeOslo()] *)
Variable FakeOslo : fake_backend.
(** [datetime.now().strftime("%Y%m%d_%H%M%S")] at the [k]-th clock read. *)
Variable strftime_now : nat → string.

(** [f"{v:spec}"] for a float presentation type. *)
Definition format_value (spec : string) (v : pyval) : res string :=
  match v with
  | PFloat x => Ok (format_float spec x)
  | PInt z => x ← float_of_int z; Ok (format_float spec x)
  | PBool b => x ← float_of_int (if b then 1 else 0);
               Ok (format_float spec x)
  | PNone =>
      Raise (Exn TypeError
               "unsupported format string passed to NoneType.__format__")
  | PStr _ =>
      Raise (Exn ValueError
               "Unknown format code for object of type 'str'")
  end.

Definition safe_get (func : Z → res pyval) (qubit : Z) : string :=
  match func qubit with
  | Ok value =>
      match value with
      | PFloat x => format_float ".2e" x
      | _ => py_str value
      end
  | Raise _ => "N/A"
  end.

Definition get_fake_backend_data (fake : fake_backend)
    : res device_record :=
  props ← fake_properties fake;
  qubits ←
    res_map
      (λ qubit,
         c1 ← t1 props qubit;
         T1 ← (if truthy c1
               then v ← t1 props qubit; format_value ".2e" v
               else Ok "N/A"%string);
         c2 ← t2 props qubit;
         T2 ← (if truthy c2
               then v ← t2 props qubit; format_value ".2e" v
               else Ok "N/A"%string);
         r ← readout_error props qubit;
         RE ← format_value ".4f" r;
         Ok {| e_qubit := None; e_T1 := T1; e_T2 := T2;
               e_readout_error := RE; e_frequency := None |})
      (py_range (fake_num_qubits fake));
  cx_gates ←
    res_map
      (λ gate,
         error ← gate_getattr gate "error";
         Ok {| ge_gate := None; ge_qubits := None;
               ge_error_rate := error;
               ge_gate_length := None |})
      (List.filter (λ gate, String.eqb (g_gate gate) "cx") (gates props));
  Ok {| operational := false;
        pending_jobs := 0;
        qubits := qubits;
        cx_gates := cx_gates;
        last_update := None |}.

(** [next((p.value for p in parameters if p.name == "gate_error"), None)] *)
Definition gate_error_of (parameters : list param) : pyval :=
  match List.filter (λ p, String.eqb (p_name p) "gate_error") parameters
  with
  | p :: _ => p_value p
  | [] => PNone
  end.

(** Lines 15-57: the [try] body for one backend. *)
Definition collect_live (results : gmap string device_record)
    (b : backend) : M (gmap string device_record) :=
  _ ← print [Lit nl; Lit "Processing "; FStr (name b); Lit "..."];
  status ← lift (status b);
  props ← lift (get_properties b);
  match props with
  | None =>
      _ ← print [Lit "Skipping "; FStr (name b);
                 Lit ": No properties available"];
      mret results
  | Some props =>
      let qubit_errors :=
        (λ qubit,
           {| e_qubit := Some qubit;
              e_T1 := safe_get (t1 props) qubit;
              e_T2 := safe_get (t2 props) qubit;
              e_readout_error := safe_get (readout_error props) qubit;
              e_frequency := Some (safe_get (frequency props) qubit) |})
          <$> py_range (num_qubits b) in
      gate_errors ←
        lift
          (res_map
             (λ gate,
                let error := gate_error_of (g_parameters gate) in
                gate_length ← gate_getattr gate "gate_length";
                Ok {| ge_gate := Some (g_gate gate);
                      ge_qubits := Some (g_qubits gate);
                      ge_error_rate := error;
                      ge_gate_length := Some gate_length |})
             (List.filter (λ gate, String.eqb (g_gate gate) "cx")
                          (gates props)));
      mret (<[name b :=
                {| operational := s_operational status;
                   pending_jobs := s_pending_jobs status;
                   qubits := qubit_errors;
                   cx_gates := gate_errors;
                   last_update := Some (last_update_date props) |}]>
              results)
  end.

(** Lines 59-64: the [except Exception as e] handler. *)
Definition on_error (results : gmap string device_record) (b : backend)
    (e : exn) : M (gmap string device_record) :=
  _ ← print [Lit "Error processing "; FStr (name b); Lit ": ";
             FStr (exn_msg e)];
  if in_str "retired" (str_lower (exn_msg e)) then
    let fake := FakeOslo in
    d ← lift (get_fake_backend_data fake);
    mret (<[name b := d]> results)
  else mret results.

Definition strftime : M string := λ w,
  (Ok (strftime_now (clock_reads w)),
   World (S (clock_reads w)) (rng_draws w) (pm_calls w) (matmuls w)
         (stdout w) (files w)).

(** [get_all_backend_errors], given what [service.backends()] lists. *)
Definition get_all_backend_errors (backends : list backend)
    : M (gmap string device_record) :=
  results ←
    for_each backends
      (λ results b,
         try_except (collect_live results b) (on_error results b))
      ∅;
  timestamp ← strftime;
  _ ← write_file [Lit "ibm_errors_"; FStr timestamp; Lit ".json"]
        (JsonDump results);
  mret results.

End Externals.

End Calibration.

(** ** Example inputs *)

Module Examples.

(** A hidden string over 1000 qubits with 100 ones, and its metadata. *)
Definition hidden_1000 : string :=
  string_of_list_ascii (replicate 100 "1" ++ replicate 900 "0")%char.

Definition meta_1000 : BvLarge.circuit_meta :=
  {| BvLarge.n_qubits := 1000;
     BvLarge.hidden_string := hidden_1000;
     BvLarge.num_cx := str_count "1" hidden_1000;
     BvLarge.depth := 2 + str_count "1" hidden_1000;
     BvLarge.total_gates := 2 * 1000 + 1 + str_count "1" hidden_1000 |}.

(** Metadata with [3 * 2^51 + 1] interaction gates. *)
Definition meta_huge : BvLarge.circuit_meta :=
  let c := 3 * 2 ^ 51 + 1 in
  {| BvLarge.n_qubits := 10 * c;
     BvLarge.hidden_string := EmptyString;
     BvLarge.num_cx := c;
     BvLarge.depth := 2 + c;
     BvLarge.total_gates := 2 * (10 * c) + 1 + c |}.

Definition frozen_clock : nat → float := λ _, fzero.

(** Three trial outputs with 2, 1 and 1 swaps; the last two differ. *)
Definition swap01 : instruction := Instr "swap" [0; 1] [].
Definition trial_a : circuit := Circuit 2 0 [swap01; swap01].
Definition trial_b : circuit := Circuit 2 0 [swap01].
Definition trial_c : circuit := Circuit 2 0 [Instr "h" [0] []; swap01].
Definition trials : list circuit := [trial_a; trial_b; trial_c].

(** An optimizer answering with [trials], in this order. *)
Definition scripted_pm : nat → coupling_map → circuit → res circuit :=
  λ k _ _,
    match trials !! k with
    | Some c => Ok c
    | None => Raise (Exn ExternalError "no more trials")
    end.

(** An optimizer that always fails. *)
Definition failing_pm (e : exn) : nat → coupling_map → circuit → res circuit :=
  λ _ _ _, Raise e.

Definition layout_failed : exn := Exn ExternalError "layout failed".

(** Stand-ins for the circuit library. *)
Definition empty_qv : Z → Z → Z → circuit := λ n _ _, Circuit n 0 [].
Definition no_depth : circuit → Z := λ _, 0.

(** The doubles 1.5 and 2.5. *)
Definition f_1_5 : float := S754_finite false 6755399441055744 (-52).
Definition f_2_5 : float := S754_finite false 5629499534213120 (-51).

(** Left-to-right summation in double precision. *)
Definition naive_sum (xs : list float) : float := fold_left fadd xs fzero.

(** Three records of a sweep: two for 5 qubits, one for 10. *)
Definition rec_a : BvAlgo.bench_record :=
  BvAlgo.BenchRecord 5 0 "10100" 3 f_1_5 10 16 17 20.
Definition rec_b : BvAlgo.bench_record :=
  BvAlgo.BenchRecord 10 0 "1010010100" 7 f_2_5 12 30 37 50.
Definition rec_c : BvAlgo.bench_record :=
  BvAlgo.BenchRecord 5 1 "00001" 4 f_2_5 4 9 15 19.
Definition sweep_results : list BvAlgo.bench_record := [rec_a; rec_b; rec_c].

(** Three records for 5 qubits with 1, 0 and 0 swaps. *)
Definition thirds : list BvAlgo.bench_record :=
  [ BvAlgo.BenchRecord 5 0 "10100" 1 f_1_5 10 16 17 20;
    BvAlgo.BenchRecord 5 1 "00001" 0 f_1_5 4 4 15 15;
    BvAlgo.BenchRecord 5 2 "00000" 0 f_1_5 3 3 14 14 ].

(** A retired device, live ones with and without a [cx] gate, and a
    substitute snapshot of seven qubits in the format of the client's
    snapshots: float metrics for every qubit, and [cx] gates. *)
Definition retired_exn : exn :=
  Exn ExternalError "Backend ibm_oslo is RETIRED".

Definition good_props : Calibration.properties :=
  Calibration.Properties
    (λ _, Ok (PFloat f_1_5)) (λ _, Ok (PFloat f_2_5))
    (λ _, Ok (PFloat f_1_5)) (λ _, Ok (PFloat f_2_5))
    [Calibration.Gate "cx" [0; 1]
       [Calibration.Param "gate_error" (PFloat f_1_5)] "cx0_1"]
    None.

Definition bad_props : Calibration.properties :=
  Calibration.Properties
    (λ _, Raise (Exn ExternalError "no T1 for this qubit"))
    (λ _, Ok (PFloat f_2_5))
    (λ _, Ok (PFloat f_1_5)) (λ _, Ok (PFloat f_2_5))
    [] None.

Definition retired_backend : Calibration.backend :=
  Calibration.Backend "ibm_oslo" 7 (Raise retired_exn) (Ok None).

Definition live_backend : Calibration.backend :=
  Calibration.Backend "ibm_brisbane" 2
    (Ok (Calibration.BackendStatus true 3)) (Ok (Some good_props)).

(** Properties without a [cx] gate; the T1 of qubit 1 is not available. *)
Definition ecr_props : Calibration.properties :=
  Calibration.Properties
    (λ q, if q =? 1 then Raise (Exn ExternalError "no T1 for this qubit")
          else Ok (PFloat f_1_5))
    (λ _, Ok (PFloat f_2_5))
    (λ _, Ok (PFloat f_1_5)) (λ _, Ok (PFloat f_2_5))
    [Calibration.Gate "ecr" [0; 1]
       [Calibration.Param "gate_error" (PFloat f_1_5)] "ecr0_1"]
    (Some "2024-01-01T00:00:00").

(** Properties with a [cx] gate; the T1 of qubit 1 is not available. *)
Definition cx_props : Calibration.properties :=
  Calibration.Properties
    (λ q, if q =? 1 then Raise (Exn ExternalError "no T1 for this qubit")
          else Ok (PFloat f_1_5))
    (λ _, Ok (PFloat f_2_5))
    (λ _, Ok (PFloat f_1_5)) (λ _, Ok (PFloat f_2_5))
    [Calibration.Gate "cx" [0; 1]
       [Calibration.Param "gate_error" (PFloat f_1_5)] "cx0_1"]
    None.

Definition cx_backend : Calibration.backend :=
  Calibration.Backend "ibmq_lima" 2
    (Ok (Calibration.BackendStatus true 0)) (Ok (Some cx_props)).

Definition ecr_backend : Calibration.backend :=
  Calibration.Backend "ibm_kyiv" 2
    (Ok (Calibration.BackendStatus true 5)) (Ok (Some ecr_props)).

Definition oslo_props : Calibration.properties :=
  Calibration.Properties
    (λ _, Ok (PFloat f_1_5)) (λ _, Ok (PFloat f_2_5))
    (λ _, Ok (PFloat f_1_5)) (λ _, Ok (PFloat f_2_5))
    [Calibration.Gate "x" [0]
       [Calibration.Param "gate_error" (PFloat f_1_5)] "x0";
     Calibration.Gate "cx" [0; 1]
       [Calibration.Param "gate_error" (PFloat f_1_5);
        Calibration.Param "gate_length" (PFloat f_2_5)] "cx0_1";
     Calibration.Gate "cx" [1; 0]
       [Calibration.Param "gate_error" (PFloat f_1_5);
        Calibration.Param "gate_length" (PFloat f_2_5)] "cx1_0"]
    (Some "2023-01-01T00:00:00").

Definition fake_oslo : Calibration.fake_backend :=
  Calibration.FakeBackend 7 (Ok oslo_props).

Definition show_float : string → float → string := λ spec _, spec.
Definition show_val : pyval → string := λ _, "?"%string.
Definition stamp : nat → string := λ _, "20240101_000000"%string.

End Examples.

(** ** bv_19998.py: the measured circuits and the benchmark driver *)

Module BvLargeRun.
Import BvLarge.

(** A result dict of [benchmark_large_bv]: the rows measured on small
    circuits and the rows estimated for large ones have different keys. *)
Inductive result :=
  | Measured (qubits swap_count : Z) (transpile_time : float)
             (original_depth transpiled_depth : Z)
  | Estimated (qubits estimated_swaps : Z) (estimated_time : float)
              (original_depth estimated_depth : Z).

(** [CouplingMap([(i, i+1) for i in range(49)] +
                [(i, i+5) for i in range(45)])] *)
Definition small_coupling_map : coupling_map :=
  ((λ i, (i, i + 1)) <$> py_range 49) ++ ((λ i, (i, i + 5)) <$> py_range 45).

(** [qc.cx(c, t)] for two indices that are not negative: the circuit object
    refuses an index beyond its qubits and a gate on one qubit twice (the
    text of its message is abridged). *)
Definition checked_cx (qc : circuit) (c t : Z) : M circuit :=
  if (c <? circ_qubits qc) && (t <? circ_qubits qc) then
    if c =? t then raise (Exn ExternalError "duplicate qubit arguments")
    else mret (append_gate qc "cx" [c; t] [])
  else raise (Exn ExternalError "Index out of range").

(** [enumerate(s)] *)
Definition enumerate (s : string) : list (Z * ascii) :=
  imap (λ i c, (Z.of_nat i, c)) (list_ascii_of_string s).

Section Externals.
Variable now : nat → float.
Variable rand_sample : nat → Z → Z → list Z.
Variable rand_bit : nat → bool.
Variable pm_run : nat → coupling_map → circuit → res circuit.
Variable circuit_depth : circuit → Z.

Definition create_small_test_circuit (n_qubits : Z)
    (hidden_string : option string) : M circuit :=
  hidden_string ←
    match hidden_string with
    | Some s => mret s
    | None =>
        chars ← for_each (py_range n_qubits)
                  (λ acc _, c ← random_choice01 rand_bit; mret (acc ++ [c]))
                  [];
        mret (string_of_list_ascii chars)
    end;
  qc ← new_circuit (n_qubits + 1) n_qubits;
  let qc := fold_left (λ qc i, append_gate qc "h" [i] [])
                      (py_range (n_qubits + 1)) qc in
  qc ← for_each (enumerate hidden_string)
         (λ qc '(i, bit),
            if Ascii.eqb bit "1" then checked_cx qc i n_qubits else mret qc)
         qc;
  let qc := fold_left (λ qc i, append_gate qc "h" [i] [])
                      (py_range n_qubits) qc in
  let qc := fold_left (λ qc i, append_gate qc "measure" [i] [i])
                      (py_range n_qubits) qc in
  mret qc.

Definition actual_sabre_transpile (circuit : circuit) (cm : coupling_map)
    : M (Z * Z * float) :=
  start_time ← time_time now;
  transpiled_qc ← pass_manager_run pm_run cm circuit;
  end_time ← time_time now;
  let transpile_time := fsub end_time start_time in
  let swap_count := count_swaps transpiled_qc in
  mret (swap_count, circuit_depth transpiled_qc, transpile_time).

(** Lines 124-138: the body of the loop over the small sizes. *)
Definition measure_small (results : list result) (n_qubits : Z)
    : M (list result) :=
  _ ← print [Lit "  Testing with "; FInt n_qubits; Lit " qubits:"];
  qc ← create_small_test_circuit n_qubits None;
  '(swap_count, transpiled_depth, time_taken) ←
     actual_sabre_transpile qc small_coupling_map;
  let result :=
    Measured n_qubits swap_count time_taken (circuit_depth qc)
             transpiled_depth in
  let results := results ++ [result] in
  _ ← print [Lit "    Swap count: "; FInt swap_count;
             Lit ", Time: "; FFloat ".4f" time_taken; Lit "s"];
  _ ← print [Lit "    Original depth: "; FInt (circuit_depth qc);
             Lit ", Transpiled depth: "; FInt transpiled_depth];
  mret results.

(** Lines 142-156: the body of the loop over the large sizes. *)
Definition estimate_large (results : list result) (n_qubits : Z)
    : M (list result) :=
  _ ← print [Lit "  Estimating with "; FInt n_qubits; Lit " qubits:"];
  circuit_meta ← create_large_bv_circuit rand_sample n_qubits None;
  '(estimated_swaps, estimated_depth, estimated_time) ←
     estimate_sabre_performance now circuit_meta large_coupling_map;
  let result :=
    Estimated n_qubits estimated_swaps estimated_time (depth circuit_meta)
              estimated_depth in
  let results := results ++ [result] in
  _ ← print [Lit "    Estimated swaps: "; FInt estimated_swaps;
             Lit ", Time: "; FFloat ".4f" estimated_time; Lit "s"];
  _ ← print [Lit "    Original depth: "; FInt (depth circuit_meta);
             Lit ", Estimated depth: "; FInt estimated_depth];
  mret results.

(** [benchmark_large_bv], with its two size lists as parameters. *)
Definition benchmark_large_sweep (small_range large_range : list Z)
    : M (list result) :=
  _ ← print [Lit "Testing small circuits with actual SABRE:"];
  results ← for_each small_range measure_small [];
  _ ← print [Lit nl; Lit "Estimating large circuits:"];
  results ← for_each large_range estimate_large results;
  mret results.

Definition small_range : list Z := [5; 10; 20].
Definition large_range : list Z := [1000; 5000; 10000; 15000; 19998].

Definition benchmark_large_bv : M (list result) :=
  benchmark_large_sweep small_range large_range.

End Externals.

End BvLargeRun.

(** ** Rounding, and the rational value of a double *)

(** The quotient [N / D] lies in [[m, m + 1)], at the place that the round
    bit and the sticky bit of the record tell. *)
Definition located (mrs : shr_record) (N D : Z) : Prop :=
  let m := shr_m mrs in
  m * D ≤ N < (m + 1) * D ∧
  (shr_r mrs = true ↔ (2 * m + 1) * D ≤ 2 * N) ∧
  (shr_s mrs = false ↔ (N = m * D ∨ 2 * N = (2 * m + 1) * D)).

(** The rational number a double stands for. *)
Definition F2Q (f : float) : Q :=
  match f with
  | S754_finite s m e => inject_Z (cond_Zopp s (Z.pos m)) * Qpower 2 e
  | _ => 0
  end.

Definition is_finite (f : float) : bool :=
  match f with
  | S754_zero _ | S754_finite _ _ _ => true
  | _ => false
  end.

(** Half a unit in the last place of a double; for zero, half the least
    positive double. *)
Definition half_ulp (f : float) : Q :=
  match f with
  | S754_finite _ _ e => Qpower 2 (e - 1)
  | _ => Qpower 2 (-1075)
  end.

(** [f] is a double next to the rational [x]: it differs from [x] by at
    most half a unit in its last place. *)
Definition nearest (x : Q) (f : float) : Prop :=
  is_finite f = true ∧ (Qabs (F2Q f - x) <= half_ulp f)%Q.

(** The exact sum and the unweighted arithmetic mean of rational numbers. *)
Definition Qsum (xs : list Q) : Q := fold_right Qplus 0%Q xs.

Definition Qmean (xs : list Q) : Q :=
  (Qsum xs / inject_Z (Z.of_nat (length xs)))%Q.

(** ** Descriptions used in the statements *)

(** The number of recorded operations with a given name. *)
Definition count_ops (name : string) (qc : circuit) : Z :=
  Z.of_nat (length (List.filter (λ ins, String.eqb (op_name ins) name)
                                (data qc))).

(** The first [n] characters of a string. *)
Definition str_take (n : Z) (s : string) : string :=
  String.substring 0 (Z.to_nat n) s.

(** The configurations of a Quantum Volume sweep in the order of the three
    nested loops. *)
Definition qv_configurations (qubit_range depth_range : list Z)
    (num_circuits : Z) : list (Z * Z * Z) :=
  n_qubits ← qubit_range;
  depth ← depth_range;
  i ← py_range num_circuits;
  [(n_qubits, depth, i)].

(** The contract of [random.sample(range(n), k)]: [k] distinct elements of
    [range(n)]. *)
Definition sample_contract (n k : Z) (positions : list Z) : Prop :=
  NoDup positions ∧ length positions = Z.to_nat k ∧
  Forall (λ p, 0 ≤ p < n) positions.

(** [s[i] == '1'], for an index of [s]. *)
Definition has_one_at (s : string) (i : Z) : bool :=
  match String.get (Z.to_nat i) s with
  | Some c => Ascii.eqb c "1"
  | None => false
  end.

(** What can be said of every record of a Bernstein-Vazirani sweep over
    [qubit_range] with [k] circuits per size. *)
Definition bv_record_ok (qubit_range : list Z) (k : Z)
    (r : BvAlgo.bench_record) : Prop :=
  BvAlgo.r_qubits r ∈ qubit_range ∧
  0 ≤ BvAlgo.r_circuit_idx r < k ∧
  String.length (BvAlgo.r_hidden_string r) = Z.to_nat (BvAlgo.r_qubits r) ∧
  BvAlgo.r_original_size r
    = 3 * BvAlgo.r_qubits r + 2 + str_count "1" (BvAlgo.r_hidden_string r) ∧
  0 ≤ BvAlgo.r_swap_count r ≤ BvAlgo.r_transpiled_size r.

(** A line of the form the sweep's handler prints. *)
Definition is_error_line (line : text) : bool :=
  match line with
  | [Lit "    Error: "; FStr _] => true
  | _ => false
  end.

Definition count_error_lines (out : list text) : nat :=
  length (List.filter is_error_line out).

(** Line 18 of qv_10_5-_d10_25.py: the seed of a configuration. *)
Definition qv_seed (n_qubits depth i : Z) : Z :=
  i + n_qubits * 100 + depth * 10000.

(** Whether a gate list has a [cx] gate. *)
Definition lists_cx (props : Calibration.properties) : bool :=
  existsb (λ g, String.eqb (Calibration.g_gate g) "cx")
          (Calibration.gates props).

(** The record of lines 51-57 when the gate loop has left [gate_errors]
    empty. *)
Definition live_record (format_float : string → float → string)
    (py_str : pyval → string) (b : Calibration.backend)
    (st : Calibration.backend_status) (props : Calibration.properties)
    : device_record :=
  {| operational := Calibration.s_operational st;
     pending_jobs := Calibration.s_pending_jobs st;
     qubits :=
       (λ qubit,
          {| e_qubit := Some qubit;
             e_T1 := Calibration.safe_get format_float py_str
                       (Calibration.t1 props) qubit;
             e_T2 := Calibration.safe_get format_float py_str
                       (Calibration.t2 props) qubit;
             e_readout_error :=
               Calibration.safe_get format_float py_str
                 (Calibration.readout_error props) qubit;
             e_frequency :=
               Some (Calibration.safe_get format_float py_str
                       (Calibration.frequency props) qubit) |})
         <$> py_range (Calibration.num_qubits b);
     cx_gates := [];
     last_update := Some (Calibration.last_update_date props) |}.

(** Whether the live query of a backend fails with a message the handler
    takes for a retirement. *)
Definition retires (b : Calibration.backend) : bool :=
  match Calibration.live_query_error b with
  | Some e => Calibration.in_str "retired" (Calibration.str_lower (exn_msg e))
  | None => false
  end.

(** Whether the collector stores an entry for a backend that does not
    retire: its live query returns properties, and these list no [cx]
    gate. *)
Definition stored (b : Calibration.backend) : bool :=
  match Calibration.live_query_error b with
  | Some _ => false
  | None =>
      match Calibration.get_properties b with
      | Ok (Some props) => negb (lists_cx props)
      | _ => false
      end
  end.

(** ** qft_10_20.py: the Quantum Fourier Transform benchmark *)

Module Qft.

(** The recorded operations of a circuit with rotation gates: name, angles
    and qubits. *)
Record rot_instruction := RotInstr {
  rop_name : string;
  rop_params : list float;
  rop_qubits : list Z
}.

Record rot_circuit := RotCircuit {
  rot_qubits : Z;
  rot_data : list rot_instruction
}.

(** [np.pi]: the double nearest to pi. *)
Definition pi : float := S754_finite false 7074237752028440 (-51).

(** [x / y] on two floats. *)
Definition float_truediv (x y : float) : res float :=
  match y with
  | S754_zero _ => Raise (Exn ZeroDivisionError "float division by zero")
  | _ => Ok (SFdiv prec emax x y)
  end.

(** [QuantumCircuit(n)] *)
Definition new_rot_circuit (n : Z) : M rot_circuit :=
  if n <? 0 then
    raise (Exn ExternalError "Register size must be non-negative")
  else mret (RotCircuit n []).

(** [qc.cp(theta, k, j)], [qc.h(j)]: one more recorded operation. *)
Definition append_rot (qc : rot_circuit) (name : string)
    (params : list float) (qs : list Z) : rot_circuit :=
  RotCircuit (rot_qubits qc) (rot_data qc ++ [RotInstr name params qs]).

(** [range(a, b)] *)
Definition py_range2 (a b : Z) : list Z := (λ i, a + i) <$> py_range (b - a).

Definition create_qft_circuit (n_qubits : Z) : M rot_circuit :=
  qc ← new_rot_circuit n_qubits;
  for_each (py_range n_qubits)
    (λ qc j,
       qc ← for_each (py_range j)
              (λ qc k,
                 d ← lift (float_of_int (2 ^ (j - k)));
                 theta ← lift (float_truediv pi d);
                 mret (append_rot qc "cp" [theta] [k; j]))
              qc;
       mret (append_rot qc "h" [] [j]))
    qc.

Section Externals.
Variable now : nat → float.
(** [pass_manager.run(qc)] and [qc.depth()] on these circuits. *)
Variable pm_run : nat → coupling_map → rot_circuit → res rot_circuit.
Variable circuit_depth : rot_circuit → Z.
Variable washington : coupling_map.

Definition rot_pass_manager_run (cm : coupling_map) (qc : rot_circuit)
    : M rot_circuit := λ w,
  (pm_run (pm_calls w) cm qc,
   World (clock_reads w) (rng_draws w) (S (pm_calls w)) (matmuls w)
         (stdout w) (files w)).

Definition transpile_with_sabre (qc : rot_circuit) (cm : coupling_map)
    : M (rot_circuit * float) :=
  start_time ← time_time now;
  transpiled_qc ← rot_pass_manager_run cm qc;
  end_time ← time_time now;
  let transpile_time := fsub end_time start_time in
  mret (transpiled_qc, transpile_time).

(** Lines 33-43: one size of the script's loop. *)
Definition qft_body (cm : coupling_map) (n_qubits : Z) : M unit :=
  try_except
    (qc ← create_qft_circuit n_qubits;
     '(transpiled_qc, transpile_time) ← transpile_with_sabre qc cm;
     _ ← print [Lit nl; Lit "--- QFT Circuit with "; FInt n_qubits;
                Lit " qubits ---"];
     _ ← print [Lit "Transpilation Time: "; FFloat ".4f" transpile_time;
                Lit " seconds"];
     _ ← print [Lit "Original Circuit Depth: "; FInt (circuit_depth qc)];
     _ ← print [Lit "Transpiled Circuit Depth: ";
                FInt (circuit_depth transpiled_qc)];
     print [Lit "Number of Operations: ";
            FInt (Z.of_nat (length (rot_data transpiled_qc)))])
    (λ e, print [Lit "Error with "; FInt n_qubits; Lit " qubits: ";
                 FStr (exn_msg e)]).

(** Lines 32-43, with the sizes as a parameter. *)
Definition qft_sweep (sizes : list Z) : M unit :=
  for_each sizes (λ _ n_qubits, qft_body washington n_qubits) tt.

(** The script. *)
Definition main : M unit := qft_sweep (py_range2 10 21).

End Externals.

(** *** The circuit in closed form *)

(** The double [pi / 2^m], for [1 <= m <= 1023]: the mantissa of [np.pi]
    with the exponent lowered by [m]. *)
Definition angle (m : Z) : float :=
  S754_finite false 7074237752028440 (-51 - m).

(** The operations of the transform on [n] qubits: for each qubit [j] the
    controlled rotations from the qubits below it, then its Hadamard gate. *)
Definition qft_ops (n : Z) : list rot_instruction :=
  j ← py_range n;
  ((λ k, RotInstr "cp" [angle (j - k)] [k; j]) <$> py_range j) ++
  [RotInstr "h" [] [j]].

(** Whether the angle computed for distance [m] is [angle m]. *)
Definition angle_exact (m : nat) : bool :=
  match float_of_int (2 ^ Z.of_nat m) with
  | Ok d =>
      match float_truediv pi d with
      | Ok (S754_finite false p e) =>
          (Z.pos p =? 7074237752028440) && (e =? -51 - Z.of_nat m)
      | _ => false
      end
  | Raise _ => false
  end.

End Qft.

(** ** error_rate_one_machine.py: the report for one backend *)

Module OneMachine.
Import Calibration.

(** [f"{qs}"] for a list of ints. *)
Fixpoint ints_repr_tail (qs : list Z) : text :=
  match qs with
  | [] => [Lit "]"]
  | q :: qs' => Lit ", " :: FInt q :: ints_repr_tail qs'
  end.

Definition ints_repr (qs : list Z) : text :=
  match qs with
  | [] => [Lit "[]"]
  | q :: qs' => Lit "[" :: FInt q :: ints_repr_tail qs'
  end.

(** [properties.attr] when [backend.properties()] may have returned
    [None]. *)
Definition props_attr (properties : option properties) (attr : string)
    : res Calibration.properties :=
  match properties with
  | Some p => Ok p
  | None =>
      Raise (Exn AttributeError
               ("'NoneType' object has no attribute '" +:+ attr +:+ "'"))
  end.

Section Externals.
Variable format_float : string → float → string.

(** Lines 16-22: the report of one qubit. *)
Definition qubit_report (properties : option properties) (qubit : Z)
    : M unit :=
  p ← lift (props_attr properties "t1");
  t1 ← lift (t1 p qubit);
  t2 ← lift (t2 p qubit);
  readout_error ← lift (readout_error p qubit);
  _ ← print [Lit "Qubit "; FInt qubit; Lit ":"];
  s1 ← lift (format_value format_float ".2e" t1);
  _ ← print [Lit "  T1 = "; FStr s1; Lit " s"];
  s2 ← lift (format_value format_float ".2e" t2);
  _ ← print [Lit "  T2 = "; FStr s2; Lit " s"];
  s3 ← lift (format_value format_float ".4f" readout_error);
  print [Lit "  Readout error = "; FStr s3].

(** Lines 26-29: the report of one gate. *)
Definition gate_report (gate : gate) : M unit :=
  if String.eqb (g_gate gate) "cx" then
    for_each (g_parameters gate)
      (λ _ param,
         if String.eqb (p_name param) "gate_error" then
           s ← lift (format_value format_float ".4f" (p_value param));
           print ([FStr (g_gate gate); Lit " "] ++ ints_repr (g_qubits gate)
                  ++ [Lit ": "; FStr s])
         else mret tt)
      tt
  else mret tt.

(** The script, given what [service.backend("ibm_brisbane")] answers. *)
Definition report (backend : res backend) : M unit :=
  backend ← lift backend;
  properties ← lift (get_properties backend);
  _ ← print [Lit "Backend: "; FStr (name backend)];
  _ ← print [Lit "Qubits: "; FInt (num_qubits backend)];
  _ ← print [Lit nl; Lit "Qubit Properties:"];
  _ ← for_each (py_range (num_qubits backend))
        (λ _ qubit, qubit_report properties qubit) tt;
  _ ← print [Lit nl; Lit "CNOT Gate Errors:"];
  p ← lift (props_attr properties "gates");
  for_each (gates p) (λ _ gate, gate_report gate) tt.

End Externals.

(** The [gate_error] parameters of the [cx] gates, in order. *)
Definition cx_error_params (gs : list gate) : list param :=
  g ← List.filter (λ g, String.eqb (g_gate g) "cx") gs;
  List.filter (λ p, String.eqb (p_name p) "gate_error") (g_parameters g).

End OneMachine.

(** ** More example inputs *)

Module MoreExamples.
Import Examples.

(** Metadata with a negative interaction-gate count, and with a count
    beyond the range of doubles. *)
Definition meta_negative : BvLarge.circuit_meta :=
  {| BvLarge.n_qubits := 5;
     BvLarge.hidden_string := EmptyString;
     BvLarge.num_cx := -5;
     BvLarge.depth := 2 + -5;
     BvLarge.total_gates := 2 * 5 + 1 + -5 |}.

Definition meta_beyond : BvLarge.circuit_meta :=
  let c := 3 * 2 ^ 1023 in
  {| BvLarge.n_qubits := 10 * c;
     BvLarge.hidden_string := EmptyString;
     BvLarge.num_cx := c;
     BvLarge.depth := 2 + c;
     BvLarge.total_gates := 2 * (10 * c) + 1 + c |}.

(** Metadata with 9 and with 10 interaction gates. *)
Definition meta_9 : BvLarge.circuit_meta :=
  BvLarge.CircuitMeta 90 EmptyString 9 (2 + 9) (2 * 90 + 1 + 9).
Definition meta_10 : BvLarge.circuit_meta :=
  BvLarge.CircuitMeta 100 EmptyString 10 (2 + 10) (2 * 100 + 1 + 10).

(** A sampler that answers with the first [k] positions, a generator that
    always picks ['1'], and an optimizer that returns its input. *)
Definition first_positions : nat → Z → Z → list Z := λ _ _ k, py_range k.
Definition all_ones : nat → bool := λ _, true.
Definition identity_pm : nat → coupling_map → circuit → res circuit :=
  λ _ _ qc, Ok qc.

(** An optimizer that appends one swap to its input. *)
Definition swap_adding_pm : nat → coupling_map → circuit → res circuit :=
  λ _ _ qc, Ok (append_gate qc "swap" [0; 1] []).

End MoreExamples.

(** * Facts *)

(** ** Double-precision division by three, then truncation *)

Section FloatFacts.

Lemma digits2_pos_size p : digits2_pos p = Pos.size p.
Proof. induction p; simpl; congruence. Qed.

Lemma Zdigits2_log2 m : 0 < m → Zdigits2 m = Z.log2 m + 1.
Proof.
  destruct m as [|p|p]; try lia. intros _. simpl. rewrite digits2_pos_size.
  destruct p; simpl; lia.
Qed.

Lemma Zdigits2_unique m d :
  0 < d → 2 ^ (d - 1) ≤ m < 2 ^ d → Zdigits2 m = d.
Proof.
  intros Hd [Hlo Hhi].
  assert (0 < m) by (pose proof (Z.pow_pos_nonneg 2 (d - 1)); lia).
  rewrite Zdigits2_log2 by done.
  rewrite (Z.log2_unique m (d - 1)); [lia|lia|].
  replace (Z.succ (d - 1)) with d by lia. done.
Qed.

Lemma Zdigits2_bounds m :
  0 < m → 2 ^ (Zdigits2 m - 1) ≤ m < 2 ^ Zdigits2 m.
Proof.
  intros Hm. rewrite Zdigits2_log2 by done.
  replace (Z.log2 m + 1 - 1) with (Z.log2 m) by lia.
  pose proof (Z.log2_spec m Hm).
  replace (Z.log2 m + 1) with (Z.succ (Z.log2 m)) by lia. lia.
Qed.

Lemma Zdigits2_pos m : 0 < m → 0 < Zdigits2 m.
Proof.
  intros Hm. rewrite Zdigits2_log2 by done.
  pose proof (Z.log2_nonneg m). lia.
Qed.

Lemma shr_1_nonneg m r s :
  0 ≤ m →
  shr_1 (Build_shr_record m r s)
  = Build_shr_record (m / 2) (Z.odd m) (r || s).
Proof.
  intros Hm. rewrite <- Z.div2_div.
  destruct m as [|[p|p|]|]; try lia; reflexivity.
Qed.

Lemma loc_of_shr_record_of_loc m l :
  loc_of_shr_record (shr_record_of_loc m l) = l.
Proof. by destruct l as [|[]]. Qed.

Lemma shr_m_record_of_loc m l : shr_m (shr_record_of_loc m l) = m.
Proof. by destruct l as [|[]]. Qed.

(** No shift when the mantissa already fits. *)
Lemma shr_fexp_keep m e l :
  0 < m → Zdigits2 m ≤ prec → 3 - emax - prec ≤ e →
  shr_fexp prec emax m e l = (shr_record_of_loc m l, e).
Proof.
  intros Hm Hd He. unfold shr_fexp, fexp, emin, shr.
  destruct (Z.max _ _ - e) eqn:E; try done.
  unfold prec, emax in *. lia.
Qed.

(** One bit too many: a single right shift. *)
Lemma shr_fexp_one m e l :
  0 < m → Zdigits2 m = prec + 1 → 3 - emax - prec ≤ e →
  shr_fexp prec emax m e l = (shr_1 (shr_record_of_loc m l), e + 1).
Proof.
  intros Hm Hd He. unfold shr_fexp, fexp, emin, shr.
  replace (Z.max _ _ - e) with 1; [done|].
  unfold prec, emax in *. lia.
Qed.

Lemma binary_round_aux_finish sx mx ex lx :
  binary_round_aux prec emax sx mx ex lx =
  let '(mrs, e1) := shr_fexp prec emax mx ex lx in
  round_finish sx (round_nearest_even (shr_m mrs) (loc_of_shr_record mrs)) e1.
Proof. reflexivity. Qed.

Lemma round_finish_trunc m e :
  2 ^ 52 ≤ m ≤ 2 ^ 53 → -1074 ≤ e ≤ -1 →
  ∃ p e', round_finish false m e = S754_finite false p e' ∧
          Z.shiftl (Zpos p) e' = m / 2 ^ (- e).
Proof.
  intros Hm He. unfold round_finish.
  destruct (Z_lt_dec m (2 ^ 53)) as [Hlt|Hge].
  - rewrite shr_fexp_keep; [| lia | | unfold prec, emax; lia].
    2:{ rewrite (Zdigits2_unique m 53); [done|lia|lia]. }
    cbn [shr_record_of_loc shr_m]. destruct m as [|p|p]; try lia.
    replace (e <=? emax - prec) with true by (unfold prec, emax; lia).
    exists p, e. split; [done|]. rewrite Z.shiftl_div_pow2 by lia. done.
  - assert (m = 2 ^ 53) as Hm53 by lia.
    rewrite shr_fexp_one; [| lia | | unfold prec, emax; lia].
    2:{ rewrite (Zdigits2_unique m 54); [done|lia|lia]. }
    cbn [shr_record_of_loc]. rewrite shr_1_nonneg by lia. cbn [shr_m].
    assert (m / 2 = 2 ^ 52) as Hhalf by (rewrite Hm53; reflexivity).
    destruct (m / 2) as [|p|p] eqn:E; try lia.
    replace (e + 1 <=? emax - prec) with true by (unfold prec, emax; lia).
    exists p, (e + 1). split; [done|].
    rewrite Z.shiftl_div_pow2 by lia. rewrite Hhalf, Hm53.
    replace (- e) with (1 + - (e + 1)) by lia.
    rewrite Z.pow_add_r by lia.
    change (2 ^ 53) with (2 ^ 1 * 2 ^ 52).
    rewrite Z.div_mul_cancel_l; [done| |lia].
    apply Z.pow_nonzero; lia.
Qed.

Lemma half_trunc q s : 0 ≤ q → 1 ≤ s → (q / 2) / 2 ^ (s - 1) = q / 2 ^ s.
Proof.
  intros Hq Hs. rewrite Z.div_div by (try apply Z.pow_pos_nonneg; lia).
  replace (2 * 2 ^ (s - 1)) with (2 ^ s); [done|].
  replace s with (1 + (s - 1)) at 1 by lia.
  rewrite Z.pow_add_r by lia. done.
Qed.

Lemma half_up_trunc q s :
  0 ≤ q → 1 ≤ s → Z.odd q = true →
  (q / 2 + 1) / 2 ^ (s - 1) = (q + 1) / 2 ^ s.
Proof.
  intros Hq Hs Hodd. rewrite <- (half_trunc (q + 1) s) by lia. f_equal.
  assert (q mod 2 = 1) as Hmod.
  { rewrite Zmod_odd, Hodd. done. }
  pose proof (Z.div_mod q 2 ltac:(lia)) as Hdm.
  apply (Z.div_unique (q + 1) 2 (q / 2 + 1) 0); lia.
Qed.

Lemma new_location_3 r :
  0 ≤ r < 3 →
  new_location 3 r =
  if r =? 0 then loc_Exact
  else if r =? 1 then loc_Inexact Lt else loc_Inexact Gt.
Proof.
  intros Hr.
  assert (r = 0 ∨ r = 1 ∨ r = 2) as [->|[->| ->]] by lia; reflexivity.
Qed.

(** Rounding a 53- or 54-bit quotient by three to nearest-even, then
    truncating: the result is [q] or [q + 1] scaled and truncated, and it is
    [q + 1] only when the quotient was rounded up. *)
Lemma round_trunc q e r :
  2 ^ 52 ≤ q < 2 ^ 54 → 0 ≤ r < 3 → -1000 ≤ e ≤ -1 →
  (2 ^ 53 ≤ q → e ≤ -2) →
  ∃ p e' (up : bool),
    binary_round_aux prec emax false q e (new_location 3 r)
      = S754_finite false p e' ∧
    Z.shiftl (Zpos p) e' = (if up then q + 1 else q) / 2 ^ (- e) ∧
    (up = true → (q < 2 ^ 53 ∧ r = 2) ∨ (2 ^ 53 ≤ q ∧ Z.odd q = true)).
Proof.
  intros Hq Hr He He2.
  rewrite binary_round_aux_finish, new_location_3 by done.
  destruct (Z_lt_dec q (2 ^ 53)) as [Hlt|Hge].
  - rewrite shr_fexp_keep; [| lia | | unfold prec, emax; lia].
    2:{ rewrite (Zdigits2_unique q 53); [done|lia|lia]. }
    rewrite shr_m_record_of_loc, loc_of_shr_record_of_loc.
    destruct (r =? 0) eqn:E0; [|destruct (r =? 1) eqn:E1];
      cbn [round_nearest_even].
    + destruct (round_finish_trunc q e) as (p & e' & -> & Hp); [lia..|].
      exists p, e', false. by repeat split.
    + destruct (round_finish_trunc q e) as (p & e' & -> & Hp); [lia..|].
      exists p, e', false. by repeat split.
    + destruct (round_finish_trunc (q + 1) e) as (p & e' & -> & Hp);
        [lia..|].
      exists p, e', true. split; [done|]. split; [done|].
      intros _. left. lia.
  - rewrite shr_fexp_one; [| lia | | unfold prec, emax; lia].
    2:{ rewrite (Zdigits2_unique q 54); [done|lia|lia]. }
    assert (2 ^ 52 ≤ q / 2 < 2 ^ 53) as Hhalf.
    { split; [apply Z.div_le_lower_bound | apply Z.div_lt_upper_bound];
        lia. }
    assert (∀ (m : Z) (up : bool), 2 ^ 52 ≤ m ≤ 2 ^ 53 →
              m / 2 ^ (- e - 1) = (if up then q + 1 else q) / 2 ^ (- e) →
              (up = true → Z.odd q = true) →
              ∃ p e' (up : bool),
                round_finish false m (e + 1) = S754_finite false p e' ∧
                Z.shiftl (Zpos p) e'
                  = (if up then q + 1 else q) / 2 ^ (- e) ∧
                (up = true →
                 (q < 2 ^ 53 ∧ r = 2) ∨ (2 ^ 53 ≤ q ∧ Z.odd q = true)))
      as Hfin.
    { intros m up Hm Hval Hup.
      destruct (round_finish_trunc m (e + 1)) as (p & e' & -> & Hp);
        [lia..|].
      exists p, e', up. split; [done|]. split.
      - rewrite Hp. replace (- (e + 1)) with (- e - 1) by lia. done.
      - intros Hu. right. split; [lia|auto]. }
    assert (Hdown : (q / 2) / 2 ^ (- e - 1) = q / 2 ^ (- e))
      by (apply half_trunc; lia).
    destruct (r =? 0) eqn:E0; [|destruct (r =? 1) eqn:E1];
      cbn [shr_record_of_loc]; rewrite shr_1_nonneg by lia;
      cbn [shr_m loc_of_shr_record orb];
      destruct (Z.odd q) eqn:Hodd; cbn [round_nearest_even];
      try (apply (Hfin (q / 2) false); [lia | done | done]);
      try (apply (Hfin (q / 2 + 1) true);
           [lia | apply half_up_trunc; [lia|lia|done] | done]).
    destruct (Z.even (q / 2)).
    + apply (Hfin (q / 2) false); [lia | done | done].
    + apply (Hfin (q / 2 + 1) true);
        [lia | apply half_up_trunc; [lia|lia|done] | done].
Qed.

Lemma SFdiv_core_3 x :
  0 < x → Zdigits2 x ≤ 54 →
  SFdiv_core_binary prec emax x 0 3 0 =
  ((x * 2 ^ (55 - Zdigits2 x)) / 3, Zdigits2 x - 55,
   new_location 3 ((x * 2 ^ (55 - Zdigits2 x)) mod 3)).
Proof.
  intros Hx Hd. unfold SFdiv_core_binary.
  pose proof (Zdigits2_pos x Hx).
  change (Zdigits2 3) with 2.
  replace (Z.min (fexp prec emax (Zdigits2 x + 0 - (2 + 0))) (0 - 0))
    with (Zdigits2 x - 55) by (unfold fexp, emin, prec, emax; lia).
  replace (0 - 0 - (Zdigits2 x - 55)) with (55 - Zdigits2 x) by lia.
  destruct (55 - Zdigits2 x) as [|s|s] eqn:Es; [lia| |lia].
  rewrite Z.shiftl_mul_pow2 by lia.
  unfold Z.div, Z.modulo.
  destruct (Z.div_eucl (x * 2 ^ Z.pos s) 3) as [q r]. done.
Qed.

Lemma trunc_exact x s q :
  0 ≤ x → 0 ≤ s → q = (x * 2 ^ s) / 3 → q / 2 ^ s = x / 3.
Proof.
  intros Hx Hs ->.
  assert (0 < 2 ^ s) by (apply Z.pow_pos_nonneg; lia).
  rewrite Z.div_div by lia.
  rewrite Z.div_mul_cancel_r by lia. done.
Qed.

Lemma trunc_up x s q r :
  0 ≤ x → 1 ≤ s → x * 2 ^ s = 3 * q + r → 1 ≤ r < 3 →
  (r = 2 ∨ 2 ≤ s) →
  (q + 1) / 2 ^ s = x / 3.
Proof.
  intros Hx Hs Hq Hr Hrs.
  assert (2 ≤ 2 ^ s).
  { change 2 with (2 ^ 1) at 1. apply Z.pow_le_mono_r; lia. }
  assert (r = 2 ∨ 4 ≤ 2 ^ s) as Hrs'.
  { destruct Hrs; [by left|right].
    change 4 with (2 ^ 2). apply Z.pow_le_mono_r; lia. }
  pose proof (Z.div_mod x 3 ltac:(lia)) as Hdm.
  pose proof (Z.mod_pos_bound x 3 ltac:(lia)) as Hmb.
  remember (x / 3) as k eqn:Hk. remember (x mod 3) as j eqn:Hj.
  remember (2 ^ s) as P eqn:HP. clear Hk Hj HP.
  assert (j ≠ 0).
  { intros Hj. assert (r = 3 * (k * P - q)) by lia. lia. }
  symmetry. apply (Z.div_unique_pos (q + 1) P k (q + 1 - k * P)); [|lia].
  split; nia.
Qed.

End FloatFacts.

Section TruncatedThird.

(** [int(x / 3)] is [x // 3] as long as the quotient stays below [2^52]. *)
Lemma int_truediv_3_trunc x :
  0 ≤ x ≤ 3 * 2 ^ 52 →
  ∃ f, int_truediv x 3 = Ok f ∧ int_of_float f = Ok (x / 3).
Proof.
  intros Hx.
  destruct (Z.eq_dec x 0) as [->|Hx0].
  { eexists. split; reflexivity. }
  destruct (Z.eq_dec x (3 * 2 ^ 52)) as [->|Hxmax].
  { eexists. split; reflexivity. }
  assert (0 < x < 3 * 2 ^ 52) as Hx' by lia. clear Hx Hx0 Hxmax.
  pose proof (Zdigits2_bounds x ltac:(lia)) as Hb.
  pose proof (Zdigits2_pos x ltac:(lia)) as Hdpos.
  assert (Zdigits2 x ≤ 54) as Hd54.
  { destruct (Z_le_dec (Zdigits2 x) 54); [done|].
    assert (2 ^ 54 ≤ 2 ^ (Zdigits2 x - 1)) by (apply Z.pow_le_mono_r; lia).
    lia. }
  set (d := Zdigits2 x) in *. set (s := 55 - d).
  assert (0 < 2 ^ s) as HP by (apply Z.pow_pos_nonneg; lia).
  assert (2 ^ 54 ≤ x * 2 ^ s < 2 ^ 55) as Hm'.
  { replace 54 with ((d - 1) + s) by lia. replace 55 with (d + s) by lia.
    rewrite !Z.pow_add_r by lia. nia. }
  pose proof (Z.div_mod (x * 2 ^ s) 3 ltac:(lia)) as Hdm.
  pose proof (Z.mod_pos_bound (x * 2 ^ s) 3 ltac:(lia)) as Hr.
  set (q := (x * 2 ^ s) / 3) in *. set (r := (x * 2 ^ s) mod 3) in *.
  assert (2 ^ 52 ≤ q < 2 ^ 54) as Hq by lia.
  assert (2 ^ 53 ≤ q → 2 ≤ s) as Hs2.
  { intros Hq53. destruct (Z_le_dec 2 s); [done|].
    assert (s = 1) as Hs1 by lia. rewrite Hs1 in Hdm. lia. }
  destruct (round_trunc q (d - 55) r)
    as (p & e' & up & Hround & Hval & Hup); [done|done|lia|lia|].
  exists (S754_finite false p e'). split.
  - unfold int_truediv. destruct x as [|px|px]; try lia.
    cbn [Z.eqb exact_int SFdiv xorb].
    rewrite SFdiv_core_3 by done. fold d. fold s. fold q. fold r.
    rewrite Hround. done.
  - cbn [int_of_float cond_Zopp]. f_equal. rewrite Hval.
    replace (- (d - 55)) with s by lia.
    destruct up.
    + destruct (Hup eq_refl) as [[Hlt Hr2]|[Hge Hodd]].
      * apply (trunc_up x s q r); lia.
      * assert (r ≠ 0).
        { intros Hr0. specialize (Hs2 Hge).
          assert (2 ^ s = 2 * 2 ^ (s - 1)) as HPs.
          { replace s with (1 + (s - 1)) at 1 by lia.
            rewrite Z.pow_add_r by lia. done. }
          pose proof (Zdiv2_odd_eqn q) as Hoe. rewrite Hodd in Hoe.
          rewrite HPs, Hr0 in Hdm. lia. }
        apply (trunc_up x s q r); lia.
    + apply trunc_exact; [lia|lia|done].
Qed.

Lemma binary_round_aux_sign m e l :
  match binary_round_aux prec emax false m e l with
  | S754_zero s | S754_infinity s | S754_finite s _ _ => s = false
  | S754_nan => True
  end.
Proof.
  unfold binary_round_aux.
  destruct (shr_fexp prec emax m e l) as [mrs e1].
  destruct (shr_fexp prec emax _ e1 loc_Exact) as [mrs' e2].
  destruct (shr_m mrs'); [done| |done].
  by destruct (e2 <=? emax - prec).
Qed.

(** The truncated quotient of a count by three is never negative. *)
Lemma int_truediv_3_nonneg x f z :
  0 ≤ x → int_truediv x 3 = Ok f → int_of_float f = Ok z → 0 ≤ z.
Proof.
  intros Hx Hdiv Hint. unfold int_truediv in Hdiv.
  destruct x as [|p|p]; try lia.
  - cbn in Hdiv. injection Hdiv as <-. cbn in Hint.
    injection Hint as <-. lia.
  - cbn [Z.eqb exact_int SFdiv xorb] in Hdiv.
    destruct (SFdiv_core_binary prec emax (Z.pos p) 0 3 0) as [[mz ez] lz].
    pose proof (binary_round_aux_sign mz ez lz) as Hs.
    destruct (binary_round_aux prec emax false mz ez lz) as [s|s| |s m e];
      try done; injection Hdiv as <-; cbn in Hint;
      try (injection Hint as <-).
    + lia.
    + done.
    + subst s. cbn. apply Z.shiftl_nonneg. lia.
Qed.

(** Iterated right shifts divide the mantissa by a power of two. *)
Lemma iter_shr_1 p : ∀ m r s,
  0 ≤ m →
  ∃ r' s', SpecFloat.iter_pos shr_1 p (Build_shr_record m r s)
           = Build_shr_record (m / 2 ^ Z.pos p) r' s'.
Proof.
  induction p as [p IH|p IH|]; intros m r s Hm; cbn [SpecFloat.iter_pos].
  - rewrite shr_1_nonneg by done.
    destruct (IH (m / 2) (Z.odd m) (r || s)) as (r1 & s1 & ->).
    { apply Z.div_pos; lia. }
    destruct (IH (m / 2 / 2 ^ Z.pos p) r1 s1) as (r2 & s2 & ->).
    { apply Z.div_pos; [apply Z.div_pos; lia|]. apply Z.pow_pos_nonneg; lia. }
    exists r2, s2. f_equal.
    rewrite !Z.div_div by (try apply Z.pow_pos_nonneg; lia).
    f_equal.
    replace (Z.pos p~1) with (1 + Z.pos p + Z.pos p) by lia.
    rewrite !Z.pow_add_r by lia. lia.
  - destruct (IH m r s Hm) as (r1 & s1 & ->).
    destruct (IH (m / 2 ^ Z.pos p) r1 s1) as (r2 & s2 & ->).
    { apply Z.div_pos; [lia|]. apply Z.pow_pos_nonneg; lia. }
    exists r2, s2. f_equal.
    rewrite !Z.div_div by (try apply Z.pow_pos_nonneg; lia).
    f_equal.
    replace (Z.pos p~0) with (Z.pos p + Z.pos p) by lia.
    rewrite !Z.pow_add_r by lia. lia.
  - rewrite shr_1_nonneg by done. eexists _, _. reflexivity.
Qed.

Lemma round_nearest_even_range m l :
  m ≤ round_nearest_even m l ≤ m + 1.
Proof. destruct l as [|[]]; cbn; try destruct (Z.even m); lia. Qed.

Lemma round_finish_finite m e :
  2 ^ 52 ≤ m ≤ 2 ^ 53 → -1074 ≤ e ≤ 970 →
  ∃ p e', round_finish false m e = S754_finite false p e'.
Proof.
  intros Hm He. unfold round_finish.
  destruct (Z_lt_dec m (2 ^ 53)) as [Hlt|Hge].
  - rewrite shr_fexp_keep; [| lia | | unfold prec, emax; lia].
    2:{ rewrite (Zdigits2_unique m 53); [done|lia|lia]. }
    cbn [shr_record_of_loc shr_m]. destruct m as [|p|p]; try lia.
    replace (e <=? emax - prec) with true by (unfold prec, emax; lia).
    by exists p, e.
  - assert (m = 2 ^ 53) as Hm53 by lia.
    rewrite shr_fexp_one; [| lia | | unfold prec, emax; lia].
    2:{ rewrite (Zdigits2_unique m 54); [done|lia|lia]. }
    cbn [shr_record_of_loc]. rewrite shr_1_nonneg by lia. cbn [shr_m].
    assert (m / 2 = 2 ^ 52) as Hhalf by (rewrite Hm53; reflexivity).
    destruct (m / 2) as [|p|p] eqn:E; try lia.
    replace (e + 1 <=? emax - prec) with true by (unfold prec, emax; lia).
    by exists p, (e + 1).
Qed.

(** Rounding a quotient of at least 53 bits never overflows below the
    largest double. *)
Lemma round_returns q e l :
  2 ^ 52 ≤ q → -54 ≤ e ≤ 0 → Zdigits2 q + e ≤ 1023 →
  ∃ p e', binary_round_aux prec emax false q e l = S754_finite false p e'.
Proof.
  intros Hq He Hd. rewrite binary_round_aux_finish.
  pose proof (Zdigits2_bounds q ltac:(lia)) as Hb.
  assert (53 ≤ Zdigits2 q) as Hd53.
  { destruct (Z_le_dec 53 (Zdigits2 q)); [done|].
    assert (2 ^ Zdigits2 q ≤ 2 ^ 52) by (apply Z.pow_le_mono_r; lia). lia. }
  destruct (Z.eq_dec (Zdigits2 q) 53) as [Heq|Hne].
  - rewrite shr_fexp_keep; [| lia | unfold prec; lia | unfold prec, emax; lia].
    rewrite shr_m_record_of_loc, loc_of_shr_record_of_loc.
    pose proof (round_nearest_even_range q l).
    rewrite Heq in Hb. apply round_finish_finite; lia.
  - set (n := Zdigits2 q - 53).
    assert (shr_fexp prec emax q e l
            = shr (shr_record_of_loc q l) e n) as ->.
    { unfold shr_fexp. f_equal. unfold fexp, emin, prec, emax, n. lia. }
    unfold shr. destruct n as [|pn|pn] eqn:En; try lia.
    assert (∃ r0 s0, shr_record_of_loc q l = Build_shr_record q r0 s0)
      as (r0 & s0 & ->) by (destruct l as [|[]]; cbn; eauto).
    destruct (iter_shr_1 pn q r0 s0) as (r1 & s1 & ->); [lia|].
    cbn [shr_m]. rewrite <- En.
    assert (2 ^ 52 ≤ q / 2 ^ n < 2 ^ 53) as Hm1.
    { assert (0 < 2 ^ n) by (apply Z.pow_pos_nonneg; lia).
      assert (2 ^ (Zdigits2 q - 1) = 2 ^ 52 * 2 ^ n) as E1.
      { rewrite <- Z.pow_add_r by lia. f_equal. lia. }
      assert (2 ^ Zdigits2 q = 2 ^ 53 * 2 ^ n) as E2.
      { rewrite <- Z.pow_add_r by lia. f_equal. lia. }
      split.
      - apply Z.div_le_lower_bound; lia.
      - apply Z.div_lt_upper_bound; lia. }
    pose proof (round_nearest_even_range (q / 2 ^ n)
                  (loc_of_shr_record (Build_shr_record (q / 2 ^ n) r1 s1))).
    apply round_finish_finite; lia.
Qed.

Lemma SFdiv_core_3_gen x :
  0 < x →
  let s := Z.max (55 - Zdigits2 x) 0 in
  SFdiv_core_binary prec emax x 0 3 0 =
  ((x * 2 ^ s) / 3, - s, new_location 3 ((x * 2 ^ s) mod 3)).
Proof.
  intros Hx s. unfold SFdiv_core_binary.
  pose proof (Zdigits2_pos x Hx).
  change (Zdigits2 3) with 2.
  replace (Z.min (fexp prec emax (Zdigits2 x + 0 - (2 + 0))) (0 - 0))
    with (- s) by (unfold fexp, emin, prec, emax, s; lia).
  replace (0 - 0 - - s) with s by lia.
  assert (0 ≤ s) as Hs by (unfold s; lia).
  destruct s as [|ps|ps] eqn:Es; [|clear Hs|lia].
  - rewrite Z.mul_1_r. unfold Z.div, Z.modulo.
    destruct (Z.div_eucl x 3) as [q r]. done.
  - rewrite Z.shiftl_mul_pow2 by lia.
    unfold Z.div, Z.modulo.
    destruct (Z.div_eucl (x * 2 ^ Z.pos ps) 3) as [q r]. done.
Qed.

(** [int(x / 3)] returns for every count [x] below [2^1024]. *)
Lemma int_truediv_3_returns x :
  0 ≤ x < 2 ^ 1024 →
  ∃ f z, int_truediv x 3 = Ok f ∧ int_of_float f = Ok z.
Proof.
  intros Hx.
  destruct (Z.eq_dec x 0) as [->|Hx0].
  { eexists _, _. split; reflexivity. }
  assert (0 < x) as Hpos by lia.
  pose proof (Zdigits2_bounds x Hpos) as Hb.
  pose proof (Zdigits2_pos x Hpos) as Hdpos.
  set (d := Zdigits2 x) in *. set (s := Z.max (55 - d) 0).
  assert (0 < 2 ^ s) as HP by (apply Z.pow_pos_nonneg; lia).
  assert (2 ^ 54 ≤ x * 2 ^ s) as Hlo.
  { destruct (Z_le_dec d 55).
    - replace 54 with ((d - 1) + s) by lia.
      rewrite Z.pow_add_r by lia. nia.
    - assert (2 ^ 54 ≤ 2 ^ (d - 1)) by (apply Z.pow_le_mono_r; lia). nia. }
  assert (x * 2 ^ s < 2 ^ (1024 + s)) as Hhi.
  { rewrite Z.pow_add_r by lia. nia. }
  pose proof (Z.div_mod (x * 2 ^ s) 3 ltac:(lia)) as Hdm.
  pose proof (Z.mod_pos_bound (x * 2 ^ s) 3 ltac:(lia)) as Hr.
  set (q := (x * 2 ^ s) / 3) in *. set (r := (x * 2 ^ s) mod 3) in *.
  assert (2 ^ 52 ≤ q) as Hq by lia.
  pose proof (Zdigits2_bounds q ltac:(lia)) as Hbq.
  assert (Zdigits2 q - s ≤ 1023) as Hdq.
  { destruct (Z_le_dec (Zdigits2 q - s) 1023); [done|].
    assert (2 ^ (1024 + s) ≤ 2 * 2 ^ (Zdigits2 q - 1)); [|lia].
    replace (2 * 2 ^ (Zdigits2 q - 1)) with (2 ^ (1 + (Zdigits2 q - 1)))
      by (rewrite Z.pow_add_r by lia; done).
    apply Z.pow_le_mono_r; lia. }
  destruct (round_returns q (- s) (new_location 3 r)) as (p & e' & Hround);
    [done|lia|lia|].
  exists (S754_finite false p e'). eexists. split; [|reflexivity].
  unfold int_truediv. destruct x as [|px|px]; try lia.
  cbn [Z.eqb exact_int SFdiv xorb].
  rewrite SFdiv_core_3_gen by done. fold d. fold s. fold q. fold r.
  rewrite Hround. done.
Qed.
End TruncatedThird.

(** ** Division in double precision: the quotient rounded once *)

Section RoundingFacts.

Lemma located_shr_1 m r s N D :
  0 ≤ m → 0 < D →
  located (Build_shr_record m r s) N D →
  located (shr_1 (Build_shr_record m r s)) N (2 * D).
Proof.
  intros Hm HD (Hin & Hr & Hs). rewrite shr_1_nonneg by done.
  unfold located in *. cbn [shr_m shr_r shr_s] in *.
  pose proof (Zdiv2_odd_eqn m) as Hoe. rewrite Z.div2_div in Hoe.
  set (h := m / 2) in *. clearbody h.
  assert (r = true ∧ (2 * m + 1) * D ≤ 2 * N ∨
          r = false ∧ 2 * N < (2 * m + 1) * D) as Hr'.
  { destruct r; [left|right]; split; try done.
    - by apply Hr.
    - destruct (Z_lt_dec (2 * N) ((2 * m + 1) * D)); [done|].
      assert (false = true); [apply Hr; lia|done]. }
  assert (s = false ∧ (N = m * D ∨ 2 * N = (2 * m + 1) * D) ∨
          s = true ∧ N ≠ m * D ∧ 2 * N ≠ (2 * m + 1) * D) as Hs'.
  { destruct s; [right|left]; split; try done.
    - split; intros HN; (assert (true = false); [apply Hs; auto|done]).
    - by apply Hs. }
  clear Hr Hs.
  destruct (Z.odd m); subst m.
  - destruct Hr' as [[-> Hr]|[-> Hr]], Hs' as [[-> Hs]|[-> Hs]];
      cbn [orb]; repeat split; intros; try done; try lia.
  - destruct Hr' as [[-> Hr]|[-> Hr]], Hs' as [[-> Hs]|[-> Hs]];
      cbn [orb]; repeat split; intros; try done; try lia.
Qed.

Lemma located_iter_shr_1 p : ∀ mrs N D,
  0 ≤ shr_m mrs → 0 < D →
  located mrs N D →
  located (SpecFloat.iter_pos shr_1 p mrs) N (2 ^ Z.pos p * D) ∧
  shr_m (SpecFloat.iter_pos shr_1 p mrs) = shr_m mrs / 2 ^ Z.pos p.
Proof.
  assert (∀ m r s N D, 0 ≤ m → 0 < D →
            located (Build_shr_record m r s) N D →
            located (shr_1 (Build_shr_record m r s)) N (2 * D) ∧
            shr_m (shr_1 (Build_shr_record m r s)) = m / 2 ^ 1 ∧
            0 ≤ shr_m (shr_1 (Build_shr_record m r s))) as Hone.
  { intros m r s N D Hm HD Hloc. split; [by apply located_shr_1|].
    rewrite shr_1_nonneg by done. cbn [shr_m]. rewrite Z.pow_1_r.
    split; [done|]. apply Z.div_pos; lia. }
  assert (∀ (a b : Z), 0 ≤ a → 0 ≤ b → 0 < 2 ^ a ∧ 0 ≤ b / 2 ^ a) as Hpos.
  { intros a b Ha Hb. assert (0 < 2 ^ a) by (apply Z.pow_pos_nonneg; lia).
    split; [done|]. apply Z.div_pos; lia. }
  induction p as [p IH|p IH|]; intros [m r s] N D Hm HD Hloc;
    cbn [SpecFloat.iter_pos shr_m] in *.
  - destruct (Hone m r s N D Hm HD Hloc) as (H1 & Hm1 & Hp1).
    destruct (shr_1 (Build_shr_record m r s)) as [m1 r1 s1] eqn:E1.
    cbn [shr_m] in *.
    destruct (Hpos (Z.pos p) m1 ltac:(lia) Hp1) as [HP Hq1].
    destruct (IH (Build_shr_record m1 r1 s1) N (2 * D)) as (H2 & Hm2);
      [done|lia|done|]. cbn [shr_m] in Hm2.
    destruct (IH (SpecFloat.iter_pos shr_1 p (Build_shr_record m1 r1 s1)) N
                 (2 ^ Z.pos p * (2 * D))) as (H3 & Hm3);
      [rewrite Hm2; lia|lia|done|].
    replace (2 ^ Z.pos p~1 * D)
      with (2 ^ Z.pos p * (2 ^ Z.pos p * (2 * D))).
    2:{ replace (Z.pos p~1) with (Z.pos p + Z.pos p + 1) by lia.
        rewrite !Z.pow_add_r by lia. lia. }
    split; [done|]. rewrite Hm3, Hm2, Hm1.
    rewrite !Z.div_div by lia. f_equal.
    replace (Z.pos p~1) with (1 + Z.pos p + Z.pos p) by lia.
    rewrite !Z.pow_add_r by lia. lia.
  - destruct (Hpos (Z.pos p) m ltac:(lia) Hm) as [HP Hq1].
    destruct (IH (Build_shr_record m r s) N D) as (H2 & Hm2);
      [done|lia|done|]. cbn [shr_m] in Hm2.
    destruct (IH (SpecFloat.iter_pos shr_1 p (Build_shr_record m r s)) N
                 (2 ^ Z.pos p * D)) as (H3 & Hm3);
      [rewrite Hm2; lia|lia|done|].
    replace (2 ^ Z.pos p~0 * D) with (2 ^ Z.pos p * (2 ^ Z.pos p * D)).
    2:{ replace (Z.pos p~0) with (Z.pos p + Z.pos p) by lia.
        rewrite !Z.pow_add_r by lia. lia. }
    split; [done|]. rewrite Hm3, Hm2.
    rewrite !Z.div_div by lia. f_equal.
    replace (Z.pos p~0) with (Z.pos p + Z.pos p) by lia.
    rewrite !Z.pow_add_r by lia. lia.
  - destruct (Hone m r s N D Hm HD Hloc) as (H1 & Hm1 & Hp1).
    split; [|done]. by rewrite Z.pow_1_r.
Qed.

(** A right shift by [n] places, if [n] is positive. *)
Lemma located_shr mrs e n N D :
  0 ≤ shr_m mrs → 0 < D →
  located mrs N D →
  ∃ mrs', shr mrs e n = (mrs', e + Z.max n 0) ∧
          located mrs' N (2 ^ Z.max n 0 * D) ∧
          shr_m mrs' = shr_m mrs / 2 ^ Z.max n 0.
Proof.
  intros Hm HD Hloc. unfold shr. destruct n as [|p|p].
  - exists mrs. rewrite Z.add_0_r. cbn [Z.max Z.compare].
    rewrite Z.pow_0_r, Z.mul_1_l, Z.div_1_r. done.
  - destruct (located_iter_shr_1 p mrs N D Hm HD Hloc) as (H1 & H2).
    eexists. replace (Z.max (Z.pos p) 0) with (Z.pos p) by lia. done.
  - exists mrs. replace (Z.max (Z.neg p) 0) with 0 by lia.
    rewrite Z.add_0_r, Z.pow_0_r, Z.mul_1_l, Z.div_1_r. done.
Qed.

(** Rounding to nearest moves the mantissa by at most one half. *)
Lemma round_nearest_even_located mrs N D :
  0 < D →
  located mrs N D →
  let m2 := round_nearest_even (shr_m mrs) (loc_of_shr_record mrs) in
  shr_m mrs ≤ m2 ≤ shr_m mrs + 1 ∧ Z.abs (2 * N - 2 * m2 * D) ≤ D.
Proof.
  intros HD (Hin & Hr & Hs). destruct mrs as [m r s].
  cbn [shr_m shr_r shr_s] in *.
  assert (r = true ∧ (2 * m + 1) * D ≤ 2 * N ∨
          r = false ∧ 2 * N < (2 * m + 1) * D) as Hr'.
  { destruct r; [left|right]; split; try done.
    - by apply Hr.
    - destruct (Z_lt_dec (2 * N) ((2 * m + 1) * D)); [done|].
      assert (false = true); [apply Hr; lia|done]. }
  assert (s = false ∧ (N = m * D ∨ 2 * N = (2 * m + 1) * D) ∨
          s = true ∧ N ≠ m * D ∧ 2 * N ≠ (2 * m + 1) * D) as Hs'.
  { destruct s; [right|left]; split; try done.
    - split; intros HN; (assert (true = false); [apply Hs; auto|done]).
    - by apply Hs. }
  clear Hr Hs.
  destruct Hr' as [[-> Hr]|[-> Hr]], Hs' as [[-> Hs]|[-> Hs]];
    cbn [loc_of_shr_record round_nearest_even];
    try destruct (Z.even m); lia.
Qed.

(** The last step of the rounding: a mantissa of at most 53 bits, or the
    power [2^53] after a carry. *)
Lemma round_finish_value sx m e :
  0 ≤ m ≤ 2 ^ 53 → -1074 ≤ e →
  round_finish sx m e = S754_infinity sx ∨
  (m = 0 ∧ round_finish sx m e = S754_zero sx) ∨
  ∃ p e', round_finish sx m e = S754_finite sx p e' ∧
          e ≤ e' ∧ Z.pos p * 2 ^ (e' - e) = m.
Proof.
  intros Hm He. unfold round_finish.
  destruct (Z.eq_dec m 0) as [->|Hm0].
  { right. left. split; [done|].
    unfold shr_fexp, shr, fexp, emin. cbn [Zdigits2].
    destruct (Z.max _ _ - e) eqn:E; try done.
    unfold prec, emax in E. lia. }
  destruct (Z_lt_dec m (2 ^ 53)) as [Hlt|Hge].
  - rewrite shr_fexp_keep; [| lia | | unfold prec, emax; lia].
    2:{ pose proof (Zdigits2_bounds m ltac:(lia)) as Hb.
        destruct (Z_le_dec (Zdigits2 m) prec); [done|].
        assert (2 ^ 53 ≤ 2 ^ (Zdigits2 m - 1))
          by (apply Z.pow_le_mono_r; unfold prec in *; lia).
        lia. }
    cbn [shr_record_of_loc shr_m]. destruct m as [|p|p]; try lia.
    destruct (e <=? emax - prec); [|by left].
    right. right. exists p, e. split; [done|]. split; [lia|].
    rewrite Z.sub_diag. lia.
  - assert (m = 2 ^ 53) as Hm53 by lia.
    rewrite shr_fexp_one; [| lia | | unfold prec, emax; lia].
    2:{ rewrite (Zdigits2_unique m 54); [done|lia|lia]. }
    cbn [shr_record_of_loc]. rewrite shr_1_nonneg by lia. cbn [shr_m].
    assert (m / 2 = 2 ^ 52) as Hhalf by (rewrite Hm53; reflexivity).
    destruct (m / 2) as [|p|p] eqn:E; try lia.
    destruct (e + 1 <=? emax - prec); [|by left].
    right. right. exists p, (e + 1). split; [done|]. split; [lia|].
    replace (e + 1 - e) with 1 by lia. rewrite Hhalf, Hm53. reflexivity.
Qed.

(** Rounding a located quotient: the result is the quotient up to half a
    unit of the exponent [e1] at which the mantissa was rounded. *)
Lemma binary_round_aux_located sx m e l N D :
  0 ≤ m → 0 < D →
  located (shr_record_of_loc m l) N D →
  let e1 := Z.max e (fexp prec emax (Zdigits2 m + e)) in
  let f := binary_round_aux prec emax sx m e l in
  f = S754_infinity sx ∨
  ∃ m2,
    Z.abs (2 * N - 2 * m2 * (2 ^ (e1 - e) * D)) ≤ 2 ^ (e1 - e) * D ∧
    ((m2 = 0 ∧ f = S754_zero sx ∧ m / 2 ^ (e1 - e) = 0) ∨
     ∃ p e', f = S754_finite sx p e' ∧ e1 ≤ e' ∧
             Z.pos p * 2 ^ (e' - e1) = m2).
Proof.
  intros Hm HD Hloc e1 f. unfold f. rewrite binary_round_aux_finish.
  unfold shr_fexp.
  set (n := fexp prec emax (Zdigits2 m + e) - e).
  assert (e1 - e = Z.max n 0) as Hn by (unfold e1, n; lia).
  destruct (located_shr (shr_record_of_loc m l) e n N D)
    as (mrs & -> & Hloc1 & Hm1); [by rewrite shr_m_record_of_loc|done|done|].
  rewrite shr_m_record_of_loc in Hm1. rewrite <- Hn in *.
  assert (0 ≤ e1 - e) as Hsh by lia.
  assert (0 < 2 ^ (e1 - e)) as HP by (apply Z.pow_pos_nonneg; lia).
  assert (0 ≤ shr_m mrs < 2 ^ 53) as Hm1b.
  { rewrite Hm1. split; [apply Z.div_pos; lia|].
    apply Z.div_lt_upper_bound; [done|].
    destruct (Z.eq_dec m 0) as [->|Hm0]; [lia|].
    pose proof (Zdigits2_bounds m ltac:(lia)) as Hb.
    pose proof (Zdigits2_pos m ltac:(lia)) as Hdp.
    assert (2 ^ Zdigits2 m ≤ 2 ^ (e1 - e + 53)) as Hle.
    { apply Z.pow_le_mono_r; [lia|].
      unfold e1, fexp, emin, prec, emax. lia. }
    rewrite Z.pow_add_r in Hle by lia. lia. }
  destruct (round_nearest_even_located mrs N (2 ^ (e1 - e) * D))
    as (Hm2 & Habs); [lia|done|].
  set (m2 := round_nearest_even (shr_m mrs) (loc_of_shr_record mrs)) in *.
  replace (e + (e1 - e)) with e1 by lia.
  destruct (round_finish_value sx m2 e1) as [Hinf|[[H0 Hz]|Hfin]].
  - lia.
  - unfold e1, fexp, emin, prec, emax. lia.
  - by left.
  - right. exists m2. split; [done|]. left.
    split; [done|]. split; [done|]. lia.
  - right. exists m2. split; [done|]. by right.
Qed.

Lemma new_location_located D q r N :
  0 < D → 0 ≤ r < D → N = q * D + r →
  located (shr_record_of_loc q (new_location D r)) N D.
Proof.
  intros HD Hr ->. unfold new_location, new_location_even, new_location_odd.
  pose proof (Zdiv2_odd_eqn D) as Hoe. rewrite <- Z.negb_odd.
  destruct (Z.odd D) eqn:Hodd; cbn [negb];
    (destruct (Z.eqb_spec r 0) as [->|Hr0];
     [cbn [shr_record_of_loc]; unfold located; cbn [shr_m shr_r shr_s];
      repeat split; intros; try done; try lia|]).
  - destruct (Z.compare_spec (2 * r + 1) D) as [Hc|Hc|Hc];
      cbn [shr_record_of_loc]; unfold located; cbn [shr_m shr_r shr_s];
      repeat split; intros; try done; try lia.
  - destruct (Z.compare_spec (2 * r) D) as [Hc|Hc|Hc];
      cbn [shr_record_of_loc]; unfold located; cbn [shr_m shr_r shr_s];
      repeat split; intros; try done; try lia.
Qed.

End RoundingFacts.

Section DivisionFacts.

Lemma SFdiv_core_located mx ex my ey :
  let d := Zdigits2 (Z.pos mx) + ex - (Zdigits2 (Z.pos my) + ey) in
  let E := Z.min (fexp prec emax d) (ex - ey) in
  let N := Z.pos mx * 2 ^ (ex - ey - E) in
  ∃ q l,
    SFdiv_core_binary prec emax (Z.pos mx) ex (Z.pos my) ey = (q, E, l) ∧
    q = N / Z.pos my ∧
    located (shr_record_of_loc q l) N (Z.pos my).
Proof.
  intros d E N. unfold SFdiv_core_binary. fold d. fold E.
  assert (0 ≤ ex - ey - E) as Hs by (unfold E; lia).
  assert ((match ex - ey - E with
           | Z.pos _ => Z.shiftl (Z.pos mx) (ex - ey - E)
           | 0 => Z.pos mx
           | Z.neg _ => 0
           end) = N) as ->.
  { unfold N. destruct (ex - ey - E) as [|s|s] eqn:Es; [lia| |lia].
    by rewrite Z.shiftl_mul_pow2. }
  pose proof (Z.div_mod N (Z.pos my) ltac:(lia)) as Hdm.
  pose proof (Z.mod_pos_bound N (Z.pos my) ltac:(lia)) as Hr.
  unfold Z.div, Z.modulo in Hdm, Hr |- *.
  destruct (Z.div_eucl N (Z.pos my)) as [q r].
  exists q, (new_location (Z.pos my) r). split; [done|]. split; [done|].
  apply new_location_located; lia.
Qed.

(** The quotient of two finite doubles, before the passage to rational
    numbers: [E] is the exponent of the integer division, [e1] the exponent
    at which its quotient is rounded and [m2] the rounded mantissa. *)
Lemma SFdiv_finite_located sx mx ex sy my ey :
  let s := xorb sx sy in
  let f := SFdiv prec emax (S754_finite sx mx ex) (S754_finite sy my ey) in
  f = S754_infinity s ∨
  ∃ E e1 m2,
    E ≤ ex - ey ∧ E ≤ e1 ∧
    Z.abs (2 * (Z.pos mx * 2 ^ (ex - ey - E))
           - 2 * m2 * (2 ^ (e1 - E) * Z.pos my))
      ≤ 2 ^ (e1 - E) * Z.pos my ∧
    ((m2 = 0 ∧ f = S754_zero s ∧ e1 ≤ -1074) ∨
     ∃ p e', f = S754_finite s p e' ∧ e1 ≤ e' ∧
             Z.pos p * 2 ^ (e' - e1) = m2).
Proof.
  intros s f. unfold f. cbn [SFdiv]. fold s.
  destruct (SFdiv_core_located mx ex my ey) as (q & l & -> & Hq & Hloc).
  set (Dd := Zdigits2 (Z.pos mx) + ex - (Zdigits2 (Z.pos my) + ey)) in *.
  set (E := Z.min (fexp prec emax Dd) (ex - ey)) in *.
  set (N := Z.pos mx * 2 ^ (ex - ey - E)) in *.
  assert (0 ≤ ex - ey - E) as Hs by (unfold E; lia).
  assert (0 < 2 ^ (ex - ey - E)) as HPs by (apply Z.pow_pos_nonneg; lia).
  assert (0 ≤ q) as Hq0.
  { rewrite Hq. apply Z.div_pos; [unfold N|]; lia. }
  destruct (binary_round_aux_located s q E l N (Z.pos my) Hq0 ltac:(lia) Hloc)
    as [Hinf|(m2 & Habs & Hcases)]; [by left|].
  right. set (e1 := Z.max E (fexp prec emax (Zdigits2 q + E))) in *.
  exists E, e1, m2. split; [unfold E; lia|]. split; [unfold e1; lia|].
  split; [done|].
  destruct Hcases as [(-> & Hz & Hsmall)|Hfin]; [left|by right].
  split; [done|]. split; [done|].
  assert (0 ≤ e1 - E) as Hsh by (unfold e1; lia).
  assert (0 < 2 ^ (e1 - E)) as HP by (apply Z.pow_pos_nonneg; lia).
  assert (q < 2 ^ (e1 - E)) as Hqlt.
  { destruct (Z_lt_dec q (2 ^ (e1 - E))); [done|].
    assert (1 ≤ q / 2 ^ (e1 - E)); [|lia].
    apply Z.div_le_lower_bound; lia. }
  destruct (Z.eq_dec e1 E) as [Heq|Hne].
  - (* no shift: the quotient itself is zero *)
    rewrite Heq, Z.sub_diag in Hqlt. change (2 ^ 0) with 1 in Hqlt.
    assert (q = 0) as Hq00 by lia.
    assert (N < Z.pos my) as HND.
    { destruct (Z_lt_dec N (Z.pos my)); [done|].
      assert (1 ≤ N / Z.pos my); [|lia].
      apply Z.div_le_lower_bound; lia. }
    pose proof (Zdigits2_bounds (Z.pos mx) ltac:(lia)) as Hb1.
    pose proof (Zdigits2_bounds (Z.pos my) ltac:(lia)) as Hb2.
    pose proof (Zdigits2_pos (Z.pos mx) ltac:(lia)) as Hd1.
    pose proof (Zdigits2_pos (Z.pos my) ltac:(lia)) as Hd2.
    assert (Zdigits2 (Z.pos mx) - 1 + (ex - ey - E) < Zdigits2 (Z.pos my))
      as Hdig.
    { apply (Z.pow_lt_mono_r_iff 2); [lia|lia|].
      rewrite Z.pow_add_r by lia. unfold N in HND. nia. }
    assert (Dd ≤ E) as HDd by (unfold Dd; lia).
    rewrite Heq. unfold E in HDd |- *. unfold fexp, emin, prec, emax in *. lia.
  - (* a shift: the exponent is the least one *)
    assert (E < e1) as Hlt by lia.
    destruct (Z.eq_dec q 0) as [Hq00|Hq00].
    + unfold e1 in Hlt |- *. rewrite Hq00 in *. cbn [Zdigits2] in *.
      unfold fexp, emin, prec, emax in *. lia.
    + pose proof (Zdigits2_bounds q ltac:(lia)) as Hbq.
      pose proof (Zdigits2_pos q ltac:(lia)) as Hdq.
      assert (Zdigits2 q - 1 < e1 - E) as Hdig.
      { apply (Z.pow_lt_mono_r_iff 2); lia. }
      unfold e1 in Hlt, Hdig |- *. unfold fexp, emin, prec, emax in *. lia.
Qed.

End DivisionFacts.

Section RationalFacts.

Lemma Qpow2_pos e : (0 < Qpower 2 e)%Q.
Proof. by apply Qpower_0_lt. Qed.

Lemma Qpow2_add a b : (Qpower 2 (a + b) == Qpower 2 a * Qpower 2 b)%Q.
Proof. by apply Qpower_plus. Qed.

Lemma Qpow2_inject n : 0 ≤ n → (inject_Z (2 ^ n) == Qpower 2 n)%Q.
Proof. intros Hn. by apply (Zpower_Qpower 2 n). Qed.

Lemma Qpow2_le a b : a ≤ b → (Qpower 2 a <= Qpower 2 b)%Q.
Proof. intros Hab. apply Qpower_le_compat_l; [done|]. by vm_compute. Qed.

Lemma Qpow2_half e : (Qpower 2 (e - 1) == Qpower 2 e * (1 # 2))%Q.
Proof.
  replace (e - 1) with (e + -1) by lia. rewrite Qpow2_add. reflexivity.
Qed.

(** The error of a mantissa that is within one half of the quotient. *)
Lemma half_unit_bound (n d a P PE : Q) :
  (0 < d)%Q → (0 < PE)%Q → (0 < P)%Q →
  (- (P * d) <= 2 * n - 2 * a * (P * d))%Q →
  (2 * n - 2 * a * (P * d) <= P * d)%Q →
  (Qabs (a * (PE * P) - n / d * PE) <= PE * P * (1 # 2))%Q.
Proof.
  intros Hd HPE HP Hlo Hhi.
  assert (n / d * d == n)%Q as Hx by (field; lra).
  set (x := (n / d)%Q) in *. clearbody x.
  assert (- P <= 2 * x - 2 * a * P)%Q as Hlo'.
  { apply (Qmult_le_r _ _ d); [done|].
    assert ((2 * x - 2 * a * P) * d == 2 * (x * d) - 2 * a * (P * d))%Q
      as -> by ring.
    assert (- P * d == - (P * d))%Q as -> by ring.
    by rewrite Hx. }
  assert (2 * x - 2 * a * P <= P)%Q as Hhi'.
  { apply (Qmult_le_r _ _ d); [done|].
    assert ((2 * x - 2 * a * P) * d == 2 * (x * d) - 2 * a * (P * d))%Q
      as -> by ring.
    by rewrite Hx. }
  apply Qabs_Qle_condition.
  assert (0 <= PE * (P - (2 * x - 2 * a * P)))%Q as H1
    by (apply Qmult_le_0_compat; lra).
  assert (0 <= PE * (P + (2 * x - 2 * a * P)))%Q as H2
    by (apply Qmult_le_0_compat; lra).
  assert (a * (PE * P) - x * PE
          == PE * (P - (2 * x - 2 * a * P)) * (1 # 2) - PE * P * (1 # 2))%Q
    as E1 by ring.
  assert (a * (PE * P) - x * PE
          == PE * P * (1 # 2) - PE * (P + (2 * x - 2 * a * P)) * (1 # 2))%Q
    as E2 by ring.
  set (t1 := (PE * (P - (2 * x - 2 * a * P)))%Q) in *.
  set (t2 := (PE * (P + (2 * x - 2 * a * P)))%Q) in *.
  set (u := (PE * P)%Q) in *.
  set (v := (a * u - x * PE)%Q) in *.
  clearbody t1 t2 u v. split; lra.
Qed.

Lemma F2Q_finite s m e :
  (F2Q (S754_finite s m e)
   == (if s then - (1) else 1) * (inject_Z (Z.pos m) * Qpower 2 e))%Q.
Proof.
  destruct s; cbn [F2Q cond_Zopp]; rewrite ?inject_Z_opp;
    generalize (Qpower 2 e), (inject_Z (Z.pos m)); intros t u; ring.
Qed.

Lemma Qabs_sign (b : bool) t :
  (Qabs ((if b then - (1) else 1) * t) == Qabs t)%Q.
Proof.
  destruct b.
  - assert (- (1) * t == - t)%Q as -> by ring. apply Qabs_opp.
  - by assert (1 * t == t)%Q as -> by ring.
Qed.

Lemma sign_xorb (a b : bool) (t u : Q) :
  (~ u == 0)%Q →
  (((if a then - (1) else 1) * t) / ((if b then - (1) else 1) * u)
   == (if xorb a b then - (1) else 1) * (t / u))%Q.
Proof. intros Hu. destruct a, b; cbn [xorb]; field; done. Qed.

(** The quotient of two finite doubles is the exact quotient up to half a
    unit in the last place, unless it overflows. *)
Lemma SFdiv_nearest sx mx ex sy my ey :
  let x := S754_finite sx mx ex in
  let y := S754_finite sy my ey in
  let f := SFdiv prec emax x y in
  f = S754_infinity (xorb sx sy) ∨ nearest (F2Q x / F2Q y) f.
Proof.
  intros x y f. subst f.
  destruct (SFdiv_finite_located sx mx ex sy my ey)
    as [Hinf|(E & e1 & m2 & HE & He1 & Habs & Hcases)]; [by left|].
  right. fold x y in Hcases.
  set (sg := (if xorb sx sy then - (1) else 1)%Q).
  set (PE := Qpower 2 E). set (P := inject_Z (2 ^ (e1 - E))).
  set (n := inject_Z (Z.pos mx * 2 ^ (ex - ey - E))).
  set (d := inject_Z (Z.pos my)). set (a := inject_Z m2).
  assert (0 < 2 ^ (e1 - E)) as HPz by (apply Z.pow_pos_nonneg; lia).
  assert (0 < d)%Q as Hd
    by (unfold d; change 0%Q with (inject_Z 0); rewrite <- Zlt_Qlt; lia).
  assert (0 < PE)%Q as HPE by apply Qpow2_pos.
  assert (0 < P)%Q as HP
    by (unfold P; change 0%Q with (inject_Z 0); rewrite <- Zlt_Qlt; lia).
  assert (PE * P == Qpower 2 e1)%Q as HPP.
  { unfold PE, P. rewrite Qpow2_inject by lia. rewrite <- Qpow2_add.
    by replace (E + (e1 - E)) with e1 by lia. }
  assert (F2Q x / F2Q y == sg * (n / d * PE))%Q as HX.
  { unfold x, y. rewrite !F2Q_finite. rewrite sign_xorb.
    2:{ pose proof (Qpow2_pos ey). fold d. intros H0.
        assert (0 < d * Qpower 2 ey)%Q by (apply Qmult_lt_0_compat; done).
        lra. }
    fold sg. fold d. apply Qmult_comp; [reflexivity|].
    unfold n. rewrite inject_Z_mult. rewrite Qpow2_inject by lia.
    replace ex with ((ex - ey - E) + E + ey) at 1 by lia.
    rewrite !Qpow2_add. fold PE.
    pose proof (Qpow2_pos ey) as Hey.
    generalize dependent (Qpower 2 ey). intros t Hey.
    generalize (Qpower 2 (ex - ey - E)). intros u.
    generalize (inject_Z (Z.pos mx)). intros v.
    clearbody PE d. field. split; lra. }
  assert (Qabs (a * (PE * P) - n / d * PE) <= Qpower 2 (e1 - 1))%Q as Hb.
  { rewrite Qpow2_half, <- HPP.
    assert (- (2 ^ (e1 - E) * Z.pos my)
            ≤ 2 * (Z.pos mx * 2 ^ (ex - ey - E))
              - 2 * m2 * (2 ^ (e1 - E) * Z.pos my)
            ≤ 2 ^ (e1 - E) * Z.pos my) as [Hlo Hhi] by lia.
    rewrite Zle_Qle in Hlo, Hhi. unfold Z.sub in Hlo, Hhi.
    rewrite ?inject_Z_plus, ?inject_Z_opp, ?inject_Z_mult in Hlo, Hhi.
    fold P d a in Hlo, Hhi.
    change (inject_Z (Z.pos mx) * inject_Z (2 ^ (ex + - ey + - E)))%Q
      with (inject_Z (Z.pos mx) * inject_Z (2 ^ (ex - ey - E)))%Q
      in Hlo, Hhi.
    rewrite <- inject_Z_mult in Hlo, Hhi. fold n in Hlo, Hhi.
    by apply half_unit_bound. }
  unfold nearest.
  destruct Hcases as [(Hm2 & -> & Hmin)|(p & e' & -> & He' & Hp)].
  - split; [done|]. cbn [F2Q half_ulp].
    rewrite HX.
    assert (0 - sg * (n / d * PE) == sg * (a * (PE * P) - n / d * PE))%Q
      as ->.
    { unfold a. rewrite Hm2. change (inject_Z 0) with 0%Q. ring. }
    unfold sg. rewrite Qabs_sign.
    eapply Qle_trans; [exact Hb|]. apply Qpow2_le. lia.
  - split; [done|]. cbn [half_ulp]. rewrite HX, F2Q_finite. fold sg.
    assert (inject_Z (Z.pos p) * Qpower 2 e' == a * (PE * P))%Q as ->.
    { unfold a. rewrite <- Hp, inject_Z_mult, Qpow2_inject by lia.
      rewrite HPP, <- Qmult_assoc, <- Qpow2_add.
      by replace (e' - e1 + e1) with e' by lia. }
    assert (sg * (a * (PE * P)) - sg * (n / d * PE)
            == sg * (a * (PE * P) - n / d * PE))%Q as -> by ring.
    unfold sg. rewrite Qabs_sign.
    eapply Qle_trans; [exact Hb|]. apply Qpow2_le. lia.
Qed.

End RationalFacts.

Section MeanFacts.

Lemma F2Q_exact_int a : (F2Q (exact_int a) == inject_Z a)%Q.
Proof.
  destruct a as [|p|p]; [reflexivity| |]; cbn [exact_int F2Q cond_Zopp];
    change (Qpower 2 0) with 1%Q; apply Qmult_1_r.
Qed.

Lemma nearest_wd x x' f : (x == x')%Q → nearest x f → nearest x' f.
Proof. intros Heq [Hfin Hle]. split; [done|]. by rewrite <- Heq. Qed.

(** True division of ints: the exact quotient, rounded once. *)
Lemma int_truediv_nearest a b f :
  0 < b →
  int_truediv a b = Ok f →
  nearest (inject_Z a / inject_Z b) f.
Proof.
  intros Hb. unfold int_truediv.
  destruct (Z.eqb_spec b 0) as [->|_]; [lia|].
  assert (0 < inject_Z b)%Q as Hbq
    by (change 0%Q with (inject_Z 0); rewrite <- Zlt_Qlt; lia).
  destruct (Z.eq_dec a 0) as [->|Ha].
  { intros [= <-]. split; [done|]. cbn [F2Q half_ulp].
    assert (0 - inject_Z 0 / inject_Z b == 0)%Q as ->.
    { change (inject_Z 0) with 0%Q. field. lra. }
    by vm_compute. }
  assert (∃ sa pa, exact_int a = S754_finite sa pa 0) as (sa & pa & Hea)
    by (destruct a; [done|by eexists _, _..]).
  assert (∃ pb, exact_int b = S754_finite false pb 0) as (pb & Heb)
    by (destruct b; try lia; by eexists).
  pose proof (SFdiv_nearest sa pa 0 false pb 0) as Hdiv. cbv zeta in Hdiv.
  rewrite <- Hea, <- Heb in Hdiv.
  assert (F2Q (exact_int a) / F2Q (exact_int b)
          == inject_Z a / inject_Z b)%Q as Heq
    by (by rewrite !F2Q_exact_int).
  destruct a as [|p|p]; [done| |];
    (destruct Hdiv as [->|Hn]; [done|]);
    apply (nearest_wd _ _ _ Heq) in Hn;
    destruct (SFdiv prec emax _ _) as [s|s| |s m e]; try done;
    try (by intros [= <-]); by destruct Hn.
Qed.

Lemma iter_xO_pow2 n : ∀ p,
  Z.pos (Pos.iter xO p n) = Z.pos p * 2 ^ Z.pos n.
Proof.
  induction n as [|n IH] using Pos.peano_ind; intros p.
  - cbn [Pos.iter]. lia.
  - rewrite Pos.iter_succ, Pos2Z.inj_xO, IH, Pos2Z.inj_succ.
    rewrite Z.pow_succ_r by lia. lia.
Qed.

(** [float(k)] is exact for a count of fewer than [2^53]. *)
Lemma float_of_int_exact k :
  0 < k < 2 ^ 53 →
  ∃ p e, float_of_int k = Ok (S754_finite false p e) ∧
         (F2Q (S754_finite false p e) == inject_Z k)%Q.
Proof.
  intros Hk. destruct k as [|pk|pk]; try lia.
  pose proof (Zdigits2_bounds (Z.pos pk) ltac:(lia)) as Hb.
  pose proof (Zdigits2_pos (Z.pos pk) ltac:(lia)) as Hdp.
  assert (Zdigits2 (Z.pos pk) ≤ 53) as Hd53.
  { destruct (Z_le_dec (Zdigits2 (Z.pos pk)) 53); [done|].
    assert (2 ^ 53 ≤ 2 ^ (Zdigits2 (Z.pos pk) - 1))
      by (apply Z.pow_le_mono_r; lia).
    lia. }
  unfold float_of_int, binary_normalize, binary_round.
  change (Z.pos (digits2_pos pk)) with (Zdigits2 (Z.pos pk)).
  set (d := Zdigits2 (Z.pos pk)) in *.
  assert (∃ mz, shl_align pk 0 (fexp prec emax (d + 0)) = (mz, d - 53) ∧
                Z.pos mz = Z.pos pk * 2 ^ (53 - d)) as (mz & -> & Hmz).
  { unfold shl_align.
    replace (fexp prec emax (d + 0) - 0) with (d - 53)
      by (unfold fexp, emin, prec, emax; lia).
    destruct (d - 53) as [|s|s] eqn:Es; [|lia|].
    - exists pk. replace (53 - d) with 0 by lia. split; [done|]. lia.
    - eexists. split.
      + f_equal. unfold fexp, emin, prec, emax. lia.
      + rewrite iter_xO_pow2. f_equal. f_equal. lia. }
  assert (0 < 2 ^ (53 - d)) as HP by (apply Z.pow_pos_nonneg; lia).
  assert (2 ^ 52 ≤ Z.pos mz < 2 ^ 53) as Hmzb.
  { rewrite Hmz.
    assert (2 ^ 52 = 2 ^ (d - 1) * 2 ^ (53 - d)) as ->
      by (rewrite <- Z.pow_add_r by lia; f_equal; lia).
    assert (2 ^ 53 = 2 ^ d * 2 ^ (53 - d)) as ->
      by (rewrite <- Z.pow_add_r by lia; f_equal; lia).
    nia. }
  rewrite binary_round_aux_finish.
  rewrite shr_fexp_keep; [| lia | | unfold prec, emax; lia].
  2:{ rewrite (Zdigits2_unique _ 53); [done|lia|lia]. }
  cbn [shr_record_of_loc shr_m loc_of_shr_record round_nearest_even].
  unfold round_finish.
  rewrite shr_fexp_keep; [| lia | | unfold prec, emax; lia].
  2:{ rewrite (Zdigits2_unique _ 53); [done|lia|lia]. }
  cbn [shr_record_of_loc shr_m].
  replace (d - 53 <=? emax - prec) with true by (unfold prec, emax; lia).
  exists mz, (d - 53). split; [done|].
  cbn [F2Q cond_Zopp]. rewrite Hmz, inject_Z_mult.
  rewrite Qpow2_inject by lia. rewrite <- Qmult_assoc, <- Qpow2_add.
  replace (53 - d + (d - 53)) with 0 by lia. apply Qmult_1_r.
Qed.

(** A float over a count: the exact quotient, rounded once. *)
Lemma float_div_int_nearest x k f :
  is_finite x = true →
  0 < k < 2 ^ 53 →
  float_div_int x k = Ok f →
  is_finite f = true →
  nearest (F2Q x / inject_Z k) f.
Proof.
  intros Hx Hk. unfold float_div_int.
  destruct (Z.eqb_spec k 0) as [->|_]; [lia|].
  destruct (float_of_int_exact k Hk) as (p & e & -> & Hval).
  cbn [mbind res_bind]. intros [= <-] Hf.
  assert (0 < inject_Z k)%Q as Hkq
    by (change 0%Q with (inject_Z 0); rewrite <- Zlt_Qlt; lia).
  destruct x as [sx|sx| |sx mx ex]; try done.
  destruct (SFdiv_nearest sx mx ex false p e) as [Hinf|Hn].
  - by rewrite Hinf in Hf.
  - eapply nearest_wd; [|exact Hn]. by rewrite Hval.
Qed.

Lemma fold_left_add xs : ∀ a, fold_left Z.add xs a = a + fold_right Z.add 0 xs.
Proof.
  induction xs as [|x xs IH]; intros a; cbn [fold_left fold_right]; [lia|].
  rewrite IH. lia.
Qed.

(** The builtin sum over ints is the exact sum. *)
Lemma py_sum_Qsum xs : (inject_Z (py_sum xs) == Qsum (inject_Z <$> xs))%Q.
Proof.
  unfold py_sum. rewrite fold_left_add, Z.add_0_l.
  induction xs as [|x xs IH]; [reflexivity|].
  cbn [fold_right fmap list_fmap Qsum]. rewrite inject_Z_plus.
  by rewrite IH.
Qed.

(** The mean of [k] ints as Python computes it is their arithmetic mean,
    rounded once. *)
Lemma mean_int_nearest xs f :
  xs ≠ [] →
  int_truediv (py_sum xs) (Z.of_nat (length xs)) = Ok f →
  nearest (Qmean (inject_Z <$> xs)) f.
Proof.
  intros Hne Hdiv.
  assert (0 < Z.of_nat (length xs)) as Hlen by (destruct xs; [done|cbn; lia]).
  eapply nearest_wd; [|by apply (int_truediv_nearest _ _ _ Hlen Hdiv)].
  unfold Qmean. by rewrite length_fmap, py_sum_Qsum.
Qed.

End MeanFacts.

(** ** bv_19998.py *)

Section BvLargeFacts.
Import BvLarge Examples.

Lemma matmul_loop {A} (xs : list A) w :
  for_each xs (λ _ _, matmul_work) tt w
  = (Ok tt, add_matmuls (length xs) w).
Proof.
  revert w. induction xs as [|x xs IH]; intros w.
  - by destruct w.
  - cbn [for_each]. unfold mbind, M_bind. cbn [matmul_work].
    rewrite IH. unfold add_matmuls. cbn. do 2 f_equal. lia.
Qed.

(** The estimator, once the division and the truncation are known. *)
Lemma estimate_eval now meta cm w f z :
  int_truediv (num_cx meta * 2) 3 = Ok f → int_of_float f = Ok z →
  estimate_sabre_performance now meta cm w =
  (Ok (z, depth meta + z * 3,
       fsub (now (S (clock_reads w))) (now (clock_reads w))),
   tick_clock 2
     (add_matmuls (length (py_range (Z.min 1000 (n_qubits meta)))) w)).
Proof.
  intros Hf Hz. unfold estimate_sabre_performance, mbind, M_bind.
  cbn [time_time lift]. rewrite Hf, Hz. rewrite matmul_loop.
  destruct w; reflexivity.
Qed.

Lemma estimate_inv now meta cm w s d t w' :
  estimate_sabre_performance now meta cm w = (Ok (s, d, t), w') →
  ∃ f, int_truediv (num_cx meta * 2) 3 = Ok f ∧ int_of_float f = Ok s ∧
       d = depth meta + s * 3.
Proof.
  unfold estimate_sabre_performance, mbind, M_bind. cbn [time_time lift].
  destruct (int_truediv (num_cx meta * 2) 3) as [f|e]; [|done].
  destruct (int_of_float f) as [z|e] eqn:Hz; [|done].
  rewrite matmul_loop. cbn. intros [= <- <- _ _]. by exists f.
Qed.

(** C1 (amended).  For metadata with interaction-gate count [c],
    [0 <= c <= 3 * 2^51], and base depth [d], the estimator returns
    [estimated_swaps = floor (c * 2 / 3)] and
    [estimated_depth = d + 3 * estimated_swaps], after two clock reads and
    [min(1000, n)] synthetic matrix products; for [n = 1000] with 100
    interaction gates and base depth [2 + 100] these are 66 and 300. *)
Theorem estimate_swaps_and_depth now meta cm w :
  0 ≤ num_cx meta ≤ 3 * 2 ^ 51 →
  ∃ s d,
    estimate_sabre_performance now meta cm w =
      (Ok (s, d, fsub (now (S (clock_reads w))) (now (clock_reads w))),
       tick_clock 2
         (add_matmuls (length (py_range (Z.min 1000 (n_qubits meta))))
                      w)) ∧
    s = num_cx meta * 2 / 3 ∧
    d = depth meta + 3 * s ∧
    (n_qubits meta = 1000 → num_cx meta = 100 → depth meta = 2 + 100 →
     s = 66 ∧ d = 300).
Proof.
  intros Hc.
  destruct (int_truediv_3_trunc (num_cx meta * 2)) as (f & Hf & Hz);
    [lia|].
  exists (num_cx meta * 2 / 3), (depth meta + 3 * (num_cx meta * 2 / 3)).
  split; [|split; [done|split; [done|]]].
  - rewrite (estimate_eval now meta cm w f _ Hf Hz).
    by rewrite (Z.mul_comm 3).
  - intros _ -> ->. done.
Qed.

Lemma estimate_swaps_and_depth_witness :
  ∃ s d,
    estimate_sabre_performance frozen_clock meta_1000 large_coupling_map
      world0
    = (Ok (s, d, fsub fzero fzero),
       tick_clock 2 (add_matmuls 1000 world0)) ∧
    s = 66 ∧ d = 300.
Proof.
  destruct (estimate_swaps_and_depth frozen_clock meta_1000
              large_coupling_map world0)
    as (s & d & Hrun & Hs & Hd & Hinst).
  - vm_compute. split; discriminate.
  - exists s, d. split; [exact Hrun|]. apply Hinst; reflexivity.
Defined.

(** C1 as stated fails: with [3 * 2^51 + 1] interaction gates the double
    quotient rounds up to an integer and the estimator returns
    [2^52 + 1] swaps, one more than [floor (c * 2 / 3) = 2^52]. *)
Lemma estimate_swaps_above_floor :
  let c := num_cx meta_huge in
  0 ≤ c ∧
  fst (estimate_sabre_performance frozen_clock meta_huge large_coupling_map
         world0)
  = Ok (2 ^ 52 + 1, depth meta_huge + 3 * (2 ^ 52 + 1), fzero) ∧
  c * 2 / 3 = 2 ^ 52 ∧
  2 ^ 52 + 1 ≠ c * 2 / 3.
Proof. vm_compute. repeat split; discriminate. Qed.

(** C9.  For metadata whose interaction-gate count is not negative, every
    estimate the estimator returns has [estimated_depth >= base depth]; and
    it does return one for every count below [2^1023] (beyond the range of
    doubles the division raises [OverflowError] instead). *)
Theorem estimated_depth_ge_base now meta cm w :
  0 ≤ num_cx meta →
  (∀ s d t w',
     estimate_sabre_performance now meta cm w = (Ok (s, d, t), w') →
     depth meta ≤ d) ∧
  (num_cx meta < 2 ^ 1023 →
   ∃ s d t w',
     estimate_sabre_performance now meta cm w = (Ok (s, d, t), w') ∧
     depth meta ≤ d).
Proof.
  intros Hc.
  assert (∀ s d t w',
            estimate_sabre_performance now meta cm w = (Ok (s, d, t), w') →
            depth meta ≤ d) as Hpartial.
  { intros s d t w' Hrun.
    destruct (estimate_inv _ _ _ _ _ _ _ _ Hrun) as (f & Hf & Hs & ->).
    assert (0 ≤ s); [|lia].
    apply (int_truediv_3_nonneg (num_cx meta * 2) f s); [lia|done|done]. }
  split; [exact Hpartial|]. intros Hmax.
  destruct (int_truediv_3_returns (num_cx meta * 2)) as (f & z & Hf & Hz).
  { change (2 ^ 1024) with (2 ^ 1023 * 2). lia. }
  pose proof (estimate_eval now meta cm w f z Hf Hz) as Hrun.
  eexists _, _, _, _. split; [exact Hrun|]. by eapply Hpartial.
Qed.

Lemma estimated_depth_ge_base_witness :
  ∃ s d t w',
    estimate_sabre_performance frozen_clock meta_1000 large_coupling_map
      world0
    = (Ok (s, d, t), w') ∧
    depth meta_1000 ≤ d.
Proof.
  apply (estimated_depth_ge_base frozen_clock meta_1000 large_coupling_map
           world0).
  - vm_compute. discriminate.
  - vm_compute. reflexivity.
Defined.

(** C8.  With qubit count 5 and hidden string "10100" the metadata has
    exactly 2 interaction gates and [2*5 + 1 + 2 = 13] gates in total; the
    random generator is not consulted. *)
Theorem create_large_bv_circuit_10100 rand_sample w :
  ∃ meta,
    create_large_bv_circuit rand_sample 5 (Some "10100"%string) w
      = (Ok meta, w) ∧
    num_cx meta = 2 ∧
    total_gates meta = 2 * 5 + 1 + 2 ∧
    total_gates meta = 13.
Proof. eexists. split; [reflexivity|]. by repeat split. Qed.

#[local] Arguments count1 : simpl never.

Lemma count1_cons a l :
  count1 (a :: l) = (if Ascii.eqb a "1" then 1 else 0) + count1 l.
Proof. reflexivity. Qed.

Lemma count1_replicate_zero n : count1 (replicate n "0"%char) = 0.
Proof.
  induction n as [|n IH]; [done|].
  cbn [replicate]. rewrite count1_cons, IH. done.
Qed.

(** Overwriting a ['0'] by ['1'] adds one to the count. *)
Lemma count1_insert (l : list ascii) i :
  l !! i = Some "0"%char → count1 (<[i := "1"%char]> l) = count1 l + 1.
Proof.
  revert i. induction l as [|a l IH]; intros i Hi; [done|].
  destruct i as [|i]; cbn in Hi |- *.
  - injection Hi as ->. rewrite !count1_cons. cbn. lia.
  - rewrite !count1_cons, <- Z.add_assoc. f_equal. exact (IH i Hi).
Qed.

(** The position loop: distinct in-range positions that still hold ['0']
    each add one ['1']. *)
Lemma setitems_count ps : ∀ (l : list ascii) w,
  NoDup ps →
  Forall (λ p, 0 ≤ p < Z.of_nat (length l)) ps →
  Forall (λ p, l !! Z.to_nat p = Some "0"%char) ps →
  ∃ l', for_each ps (λ hs pos, lift (list_setitem hs pos "1"%char)) l w
          = (Ok l', w) ∧
        count1 l' = count1 l + Z.of_nat (length ps).
Proof.
  induction ps as [|p ps IH]; intros l w Hnd Hrange Hzero.
  - exists l. split; [done|]. cbn. lia.
  - apply NoDup_cons in Hnd as [Hp Hnd].
    apply Forall_cons in Hrange as [Hpr Hrange].
    apply Forall_cons in Hzero as [Hpz Hzero].
    cbn [for_each]. unfold mbind, M_bind, lift at 1, list_setitem.
    replace ((0 <=? p) && (p <? Z.of_nat (length l))) with true
      by (symmetry; apply andb_true_iff; lia).
    destruct (IH (<[Z.to_nat p := "1"%char]> l) w) as (l' & Hrun & Hcount).
    + done.
    + rewrite length_insert. done.
    + rewrite Forall_forall in Hzero, Hrange |- *. intros p' Hp'.
      rewrite list_lookup_insert_ne; [by apply Hzero|].
      intros Heq. apply Hp.
      specialize (Hrange p' Hp').
      assert (p = p') as -> by lia. done.
    + exists l'. split; [exact Hrun|].
      rewrite Hcount, count1_insert by done. cbn [length]. lia.
Qed.

Lemma floor_density n : Qfloor (inject_Z n * density) = n / 10.
Proof.
  unfold Qfloor, density, Qmult, inject_Z. cbn [Qnum Qden].
  rewrite Z.mul_1_r. reflexivity.
Qed.

(** Metadata construction without a hidden string, when [random.sample]
    keeps its contract. *)
Lemma create_large_bv_circuit_eval rand_sample n w :
  1 ≤ n →
  NoDup (rand_sample (rng_draws w) n (n / 10)) →
  length (rand_sample (rng_draws w) n (n / 10)) = Z.to_nat (n / 10) →
  Forall (λ p, 0 ≤ p < n) (rand_sample (rng_draws w) n (n / 10)) →
  ∃ hs,
    create_large_bv_circuit rand_sample n None w
    = (Ok {| n_qubits := n; hidden_string := hs; num_cx := n / 10;
             depth := 2 + n / 10; total_gates := 2 * n + 1 + n / 10 |},
       tick_rng 1 w).
Proof.
  intros Hn Hnd Hlen Hrange.
  assert (0 ≤ n / 10 ≤ n) as Hk.
  { split; [apply Z.div_pos; lia|].
    apply Z.div_le_upper_bound; lia. }
  unfold create_large_bv_circuit, mbind, M_bind.
  unfold random_sample_range at 1.
  replace ((n / 10 <? 0) || (Z.max n 0 <? n / 10)) with false
    by (symmetry; apply orb_false_iff; lia).
  destruct (setitems_count (rand_sample (rng_draws w) n (n / 10))
              (replicate (Z.to_nat n) "0"%char) (tick_rng 1 w))
    as (l' & Hrun & Hcount).
  - done.
  - rewrite length_replicate, Z2Nat.id by lia. done.
  - rewrite Forall_forall in Hrange |- *. intros p Hp.
    apply lookup_replicate_2. specialize (Hrange p Hp). lia.
  - rewrite count1_replicate_zero, Hlen, Z2Nat.id in Hcount by lia.
    change (World (clock_reads w) (S (rng_draws w)) (pm_calls w)
              (matmuls w) (stdout w) (files w)) with (tick_rng 1 w).
    rewrite Hrun. cbn [mret M_ret].
    exists (string_of_list_ascii l'). fold (count1 l').
    rewrite Hcount, Z.add_0_l. reflexivity.
Qed.

(** C5.  For [n >= 1] and no hidden string supplied, whenever
    [random.sample] answers with [n // 10] distinct positions of
    [range(n)], the metadata has [num_cx = floor (n * (1/10))], and this
    count lies in [[0, n]]. *)
Theorem create_large_bv_circuit_density rand_sample n w :
  1 ≤ n →
  NoDup (rand_sample (rng_draws w) n (n / 10)) →
  length (rand_sample (rng_draws w) n (n / 10)) = Z.to_nat (n / 10) →
  Forall (λ p, 0 ≤ p < n) (rand_sample (rng_draws w) n (n / 10)) →
  ∃ meta,
    create_large_bv_circuit rand_sample n None w = (Ok meta, tick_rng 1 w) ∧
    num_cx meta = n / 10 ∧
    num_cx meta = Qfloor (inject_Z n * density) ∧
    0 ≤ num_cx meta ≤ n.
Proof.
  intros Hn Hnd Hlen Hrange.
  destruct (create_large_bv_circuit_eval rand_sample n w Hn Hnd Hlen Hrange)
    as (hs & Hrun).
  eexists. split; [exact Hrun|]. cbn [num_cx].
  rewrite floor_density. split; [done|]. split; [done|].
  split; [apply Z.div_pos; lia|]. apply Z.div_le_upper_bound; lia.
Qed.

Lemma create_large_bv_circuit_density_witness :
  ∃ meta,
    create_large_bv_circuit (λ _ _ _, [3; 17]) 20 None world0
      = (Ok meta, tick_rng 1 world0) ∧
    num_cx meta = 20 / 10 ∧
    num_cx meta = Qfloor (inject_Z 20 * density) ∧
    0 ≤ num_cx meta ≤ 20.
Proof.
  apply (create_large_bv_circuit_density (λ _ _ _, [3; 17]) 20 world0).
  - lia.
  - apply NoDup_ListNoDup. repeat constructor; cbn; lia.
  - reflexivity.
  - repeat constructor; lia.
Defined.

Lemma str_count_nonneg c s : 0 ≤ str_count c s.
Proof.
  induction s as [|a s IH]; cbn [str_count]; [done|].
  destruct (Ascii.eqb a c); lia.
Qed.

(** Whatever metadata [create_large_bv_circuit] returns, its interaction-gate
    count is a count, and depth and total follow from it. *)
Lemma create_large_bv_circuit_meta rand_sample n hidden w meta w' :
  create_large_bv_circuit rand_sample n hidden w = (Ok meta, w') →
  n_qubits meta = n ∧
  0 ≤ num_cx meta ∧
  depth meta = 2 + num_cx meta ∧
  total_gates meta = 2 * n + 1 + num_cx meta.
Proof.
  unfold create_large_bv_circuit, mbind at 1, M_bind at 1.
  match goal with
  | |- context [match ?m w with _ => _ end] =>
      destruct (m w) as [[hs|e] w1]; [|done]
  end.
  cbn [mret M_ret]. intros [= <- _]. cbn.
  pose proof (str_count_nonneg "1" hs). by repeat split.
Qed.

(** End to end, as [benchmark_large_bv] chains the two: for [n = 1000] the
    generated metadata has 100 interaction gates and the estimate is 66 swaps
    and depth 300. *)
Lemma large_bv_1000_end_to_end now rand_sample w :
  NoDup (rand_sample (rng_draws w) 1000 100) →
  length (rand_sample (rng_draws w) 1000 100) = 100%nat →
  Forall (λ p, 0 ≤ p < 1000) (rand_sample (rng_draws w) 1000 100) →
  ∃ t w',
    (circuit_meta ← create_large_bv_circuit rand_sample 1000 None;
     estimate_sabre_performance now circuit_meta large_coupling_map) w
    = (Ok (66, 300, t), w').
Proof.
  intros Hnd Hlen Hrange.
  destruct (create_large_bv_circuit_eval rand_sample 1000 w)
    as (hs & Hrun); [lia|done|done|done|].
  unfold mbind at 1, M_bind at 1.
  rewrite Hrun. change (1000 / 10) with 100.
  destruct (int_truediv_3_trunc (100 * 2)) as (f & Hf & Hz); [lia|].
  erewrite estimate_eval; [|exact Hf|exact Hz].
  eexists _, _. reflexivity.
Qed.

End BvLargeFacts.


(** ** Circuits under construction *)

Section CircuitFacts.

(** A loop that appends one gate per index. *)
Lemma gates_fold nm (qs cs : Z → list Z) xs : ∀ qc,
  fold_left (λ qc i, append_gate qc nm (qs i) (cs i)) xs qc
  = Circuit (circ_qubits qc) (circ_clbits qc)
      (data qc ++ ((λ i, Instr nm (qs i) (cs i)) <$> xs)).
Proof.
  induction xs as [|x xs IH]; intros qc; cbn [fold_left fmap list_fmap].
  - rewrite app_nil_r. by destruct qc.
  - rewrite IH. cbn. by rewrite <- app_assoc.
Qed.

Lemma count_ops_app nm q c d1 d2 :
  count_ops nm (Circuit q c (d1 ++ d2))
  = count_ops nm (Circuit q c d1) + count_ops nm (Circuit q c d2).
Proof.
  unfold count_ops. cbn [data]. rewrite List.filter_app, length_app. lia.
Qed.

Lemma count_ops_other nm nm' q c {A} (g : A → instruction) (xs : list A) :
  (∀ x, op_name (g x) = nm') → nm' ≠ nm →
  count_ops nm (Circuit q c (g <$> xs)) = 0.
Proof.
  intros Hg Hne. unfold count_ops. cbn [data].
  induction xs as [|x xs IH]; [done|]. cbn [fmap list_fmap List.filter].
  rewrite Hg. destruct (String.eqb_spec nm' nm); [done|]. exact IH.
Qed.

Lemma count_ops_same nm q c {A} (g : A → instruction) (xs : list A) :
  (∀ x, op_name (g x) = nm) →
  count_ops nm (Circuit q c (g <$> xs)) = Z.of_nat (length xs).
Proof.
  intros Hg. unfold count_ops. cbn [data]. f_equal.
  induction xs as [|x xs IH]; [done|]. cbn [fmap list_fmap List.filter].
  rewrite Hg, String.eqb_refl. cbn [length]. by rewrite IH.
Qed.

(** The swap-counting loop counts the operations named [swap]. *)
Lemma count_swaps_acc l : ∀ a,
  fold_left (λ swap_count instruction,
               if String.eqb (op_name instruction) "swap"
               then swap_count + 1 else swap_count) l a
  = a + Z.of_nat (length (List.filter
                            (λ ins, String.eqb (op_name ins) "swap") l)).
Proof.
  induction l as [|x l IH]; intros a; cbn [fold_left List.filter].
  - cbn. lia.
  - rewrite IH. destruct (String.eqb (op_name x) "swap"); cbn [length]; lia.
Qed.

Lemma count_swaps_count_ops qc : count_swaps qc = count_ops "swap" qc.
Proof. unfold count_swaps, count_ops. by rewrite count_swaps_acc. Qed.

Lemma count_swaps_bounds qc :
  0 ≤ count_swaps qc ≤ Z.of_nat (length (data qc)).
Proof.
  rewrite count_swaps_count_ops. unfold count_ops.
  pose proof (List.filter_length_le
                (λ ins, String.eqb (op_name ins) "swap") (data qc)).
  lia.
Qed.

End CircuitFacts.

(** ** qv_10_5-_d10_25.py: the multi-trial runner *)

Section QvRunnerFacts.
Import Qv Examples.

Lemma keep_best_step seen best c :
  best_of_seen seen best → best_of_seen (seen ++ [c]) (keep_best best c).
Proof.
  intros [[-> ->]|(i & c0 & Hi & -> & Hmin & Hfirst)]; right.
  - exists 0%nat, c. cbn. repeat split; try done.
    + intros [|j] c'; cbn; [intros [= <-]; lia | done].
    + intros j c' _ Hj. lia.
  - unfold keep_best, lt_bound.
    destruct (count_swaps c <? count_swaps c0) eqn:Hlt.
    + apply Z.ltb_lt in Hlt.
      exists (length seen), c. split; [|split; [done|split]].
      * rewrite lookup_app_r by lia. by rewrite Nat.sub_diag.
      * intros j c' Hj. apply lookup_app_Some in Hj as [Hj|[_ Hj]].
        -- specialize (Hmin j c' Hj). lia.
        -- apply list_lookup_singleton_Some in Hj as [_ <-]. lia.
      * intros j c' Hj Hlen. rewrite lookup_app_l in Hj by lia.
        specialize (Hmin j c' Hj). lia.
    + apply Z.ltb_ge in Hlt.
      exists i, c0. split; [|split; [done|split]].
      * apply lookup_app_l_Some. done.
      * intros j c' Hj. apply lookup_app_Some in Hj as [Hj|[_ Hj]].
        -- by apply (Hmin j).
        -- apply list_lookup_singleton_Some in Hj as [_ <-]. lia.
      * intros j c' Hj Hji.
        apply lookup_lt_Some in Hi.
        rewrite lookup_app_l in Hj by lia. by apply (Hfirst j).
Qed.

Lemma keep_best_fold cs : ∀ seen best,
  best_of_seen seen best →
  best_of_seen (seen ++ cs) (fold_left keep_best cs best).
Proof.
  induction cs as [|c cs IH]; intros seen best Hinv; cbn [fold_left].
  - by rewrite app_nil_r.
  - replace (seen ++ c :: cs) with ((seen ++ [c]) ++ cs)
      by (by rewrite <- app_assoc).
    apply IH. by apply keep_best_step.
Qed.

(** The trial loop when every invocation of the optimizer returns. *)
Lemma trials_loop pm_run cm qc cs : ∀ {A} (xs : list A) best w,
  length xs = length cs →
  (∀ (j : nat) c, cs !! j = Some c →
                  pm_run (pm_calls w + j)%nat cm qc = Ok c) →
  for_each xs
    (λ best _, transpiled_qc ← pass_manager_run pm_run cm qc;
               mret (keep_best best transpiled_qc))
    best w
  = (Ok (fold_left keep_best cs best), tick_pm (length cs) w).
Proof.
  induction cs as [|c cs IH]; intros A xs best w Hlen Hrun;
    destruct xs as [|x xs]; try done.
  - by destruct w.
  - cbn [for_each fold_left]. unfold mbind at 1, M_bind at 1.
    unfold mbind at 1, M_bind at 1, pass_manager_run at 1.
    pose proof (Hrun 0%nat c eq_refl) as H0. rewrite Nat.add_0_r in H0.
    rewrite H0. cbn [mret M_ret].
    rewrite IH.
    + unfold tick_pm. cbn. do 2 f_equal. lia.
    + cbn in Hlen. lia.
    + intros j c' Hj. cbn [pm_calls].
      replace (S (pm_calls w) + j)%nat with (pm_calls w + S j)%nat by lia.
      by apply Hrun.
Qed.

Lemma length_py_range n : length (py_range n) = Z.to_nat n.
Proof. unfold py_range. by rewrite length_map, length_seq. Qed.

(** C7.  For [num_trials >= 1], when the optimizer's [num_trials]
    invocations return the circuits [cs], the runner returns one of them
    together with the number of operations named [swap] in its operation
    list; that number is the least one over [cs], and every earlier trial
    has strictly more such operations. *)
Theorem transpile_with_sabre_min now pm_run qc cm num_trials w cs :
  1 ≤ num_trials →
  length cs = Z.to_nat num_trials →
  (∀ (j : nat) c, cs !! j = Some c →
                  pm_run (pm_calls w + j)%nat cm qc = Ok c) →
  ∃ (i : nat) c,
    cs !! i = Some c ∧
    transpile_with_sabre now pm_run qc cm num_trials w =
      (Ok (Some c, Count (count_ops "swap" c),
           fsub (now (S (clock_reads w))) (now (clock_reads w))),
       tick_clock 2 (tick_pm (length cs) w)) ∧
    (∀ (j : nat) c', cs !! j = Some c' →
                     count_ops "swap" c ≤ count_ops "swap" c') ∧
    (∀ (j : nat) c', cs !! j = Some c' → (j < i)%nat →
                     count_ops "swap" c < count_ops "swap" c').
Proof.
  intros Hn Hlen Hrun.
  destruct (keep_best_fold cs [] (None, Infinity)) as [[Hnil _]|Hbest].
  { by left. }
  { cbn in Hnil. subst cs. cbn in Hlen. lia. }
  destruct Hbest as (i & c & Hi & Hfold & Hmin & Hfirst). cbn in Hi.
  exists i, c. split; [done|]. split; [|split].
  2:{ intros j c' Hj. rewrite <- !count_swaps_count_ops. by apply (Hmin j). }
  2:{ intros j c' Hj Hji. rewrite <- !count_swaps_count_ops.
      by apply (Hfirst j). }
  rewrite <- count_swaps_count_ops.
  unfold transpile_with_sabre, mbind at 1, M_bind at 1. cbn [time_time].
  unfold mbind at 1, M_bind at 1.
  rewrite (trials_loop pm_run cm qc cs).
  - rewrite Hfold. unfold mbind, M_bind. cbn [time_time mret M_ret].
    destruct w; reflexivity.
  - by rewrite length_py_range.
  - done.
Qed.

Lemma transpile_with_sabre_min_witness :
  ∃ (i : nat) c,
    trials !! i = Some c ∧
    transpile_with_sabre frozen_clock scripted_pm trial_a [] 3 world0 =
      (Ok (Some c, Count (count_ops "swap" c), fsub fzero fzero),
       tick_clock 2 (tick_pm 3 world0)) ∧
    (∀ (j : nat) c', trials !! j = Some c' →
                     count_ops "swap" c ≤ count_ops "swap" c') ∧
    (∀ (j : nat) c', trials !! j = Some c' → (j < i)%nat →
                     count_ops "swap" c < count_ops "swap" c').
Proof.
  apply (transpile_with_sabre_min frozen_clock scripted_pm trial_a [] 3
           world0 trials).
  - lia.
  - reflexivity.
  - intros [|[|[|j]]] c; cbn; intros [= <-]; reflexivity.
Defined.

(** The tie between the second and the third trial goes to the second. *)
Example transpile_with_sabre_tie :
  fst (transpile_with_sabre frozen_clock scripted_pm trial_a [] 3 world0)
  = Ok (Some trial_b, Count 1, fzero).
Proof. reflexivity. Qed.

(** C10.  With [num_trials = 0] the runner returns [None] and infinity
    without a single optimizer call (the call counter is unchanged and the
    result does not depend on the optimizer), and the sweep's use of that
    return value, [transpiled_qc.depth()], raises [AttributeError]. *)
Theorem transpile_with_sabre_zero_trials now pm_run circuit_depth qc cm w :
  let t := fsub (now (S (clock_reads w))) (now (clock_reads w)) in
  transpile_with_sabre now pm_run qc cm 0 w
    = (Ok (None, Infinity, t), tick_clock 2 w) ∧
  pm_calls (tick_clock 2 w) = pm_calls w ∧
  ∀ results n_qubits depth idx w',
    record_result circuit_depth results n_qubits depth idx qc
      (None, Infinity, t) w'
    = (Raise (Exn AttributeError
                "'NoneType' object has no attribute 'depth'"), w').
Proof.
  split; [by destruct w|]. split; [done|]. done.
Qed.

End QvRunnerFacts.

(** ** Printing *)

Section WorldFacts.

Lemma print_eval line w : print line w = (Ok tt, add_stdout [line] w).
Proof. reflexivity. Qed.

Lemma add_stdout_nil w : add_stdout [] w = w.
Proof. destruct w. unfold add_stdout. cbn. by rewrite app_nil_r. Qed.

Lemma add_stdout_app ls1 ls2 w :
  add_stdout ls2 (add_stdout ls1 w) = add_stdout (ls1 ++ ls2) w.
Proof. unfold add_stdout. cbn. by rewrite app_assoc. Qed.

Lemma for_each_app {A S} (xs ys : list A) (body : S → A → M S) acc w :
  for_each (xs ++ ys) body acc w =
  match for_each xs body acc w with
  | (Ok acc', w') => for_each ys body acc' w'
  | (Raise e, w') => (Raise e, w')
  end.
Proof.
  revert acc w. induction xs as [|x xs IH]; intros acc w; [done|].
  cbn [app for_each]. unfold mbind, M_bind.
  destruct (body acc x w) as [[acc1|e] w1]; [apply IH|done].
Qed.

End WorldFacts.

(** ** bv_algo.py: the summary *)

Section SummaryFacts.
Import BvAlgo Examples.
Context (float_sum : list float → float).

(** The list comprehension of line 136 selects exactly the group. *)
Lemma group_of_filter n results g :
  group_of n results g →
  List.filter (λ r, r_qubits r =? n) results = g.
Proof.
  induction 1 as [|r rs g Hr _ IH|r rs g Hr _ IH]; cbn; [done| |].
  - apply Z.eqb_eq in Hr. rewrite Hr. by f_equal.
  - apply Z.eqb_neq in Hr. by rewrite Hr.
Qed.

Lemma averages_means qr :
  averages float_sum qr =
  (avg_swap ← mean_int (r_swap_count <$> qr);
   avg_time ← mean_float float_sum (r_transpile_time <$> qr);
   avg_depth_increase ← mean_int (depth_increase <$> qr);
   Ok (avg_swap, avg_time, avg_depth_increase)).
Proof.
  unfold averages, mean_int, mean_float. by rewrite !length_fmap.
Qed.

Lemma averages_ok_means qr a b c :
  averages float_sum qr = Ok (a, b, c) →
  mean_int (r_swap_count <$> qr) = Ok a ∧
  mean_float float_sum (r_transpile_time <$> qr) = Ok b ∧
  mean_int (depth_increase <$> qr) = Ok c.
Proof.
  rewrite averages_means. unfold mbind, res_bind.
  destruct (mean_int (r_swap_count <$> qr)); [|done].
  destruct (mean_float float_sum _); [|done].
  destruct (mean_int (depth_increase <$> qr)); [|done].
  by intros [= -> -> ->].
Qed.

Lemma summary_group_ok results n w :
  group_ok float_sum results n = true →
  summary_group float_sum results n w
  = (Ok tt, add_stdout (group_lines float_sum results n) w).
Proof.
  unfold group_ok, summary_group, group_lines.
  destruct (List.filter _ results) as [|r qr]; [by rewrite add_stdout_nil|].
  destruct (averages float_sum (r :: qr)) as [[[a b] c]|e]; [|done].
  intros _. unfold mbind, M_bind, lift. cbn [group_report].
  rewrite !print_eval, !add_stdout_app. done.
Qed.

Lemma summary_loop_ok results qubit_range : ∀ w,
  forallb (group_ok float_sum results) qubit_range = true →
  for_each qubit_range (λ _ n, summary_group float_sum results n) tt w
  = (Ok tt,
     add_stdout (flat_map (group_lines float_sum results) qubit_range) w).
Proof.
  induction qubit_range as [|n ns IH]; intros w Hok; cbn [for_each flat_map].
  - by rewrite add_stdout_nil.
  - cbn in Hok. apply andb_true_iff in Hok as [Hn Hns].
    unfold mbind, M_bind. rewrite summary_group_ok by done.
    rewrite IH by done. by rewrite add_stdout_app.
Qed.

(** C6.  For a qubit count [n] of the sweep and the group [g] of the
    [k >= 1] records with that count, the summary prints, for [n], the
    unweighted arithmetic means over [g] rounded to double precision.  The
    averages of swap count and of depth increase are the exact means
    rounded once: they differ from them by at most half a unit in the last
    place.  The average transpile time is the builtin float sum over [k],
    rounded once: it differs from the exact mean by at most half a unit in
    the last place plus the [k]-th part of the error [delta] of that sum.  The
    group has fewer than [2^53] records and no average of the summary
    overflows. *)
Theorem summary_reports_group_means qubit_range results w n g (delta : Q) :
  forallb (group_ok float_sum results) qubit_range = true →
  n ∈ qubit_range →
  group_of n results g →
  g ≠ [] →
  Z.of_nat (length g) < 2 ^ 53 →
  Forall (λ t, is_finite t = true) (r_transpile_time <$> g) →
  is_finite (float_sum (r_transpile_time <$> g)) = true →
  (Qabs (F2Q (float_sum (r_transpile_time <$> g))
         - Qsum (F2Q <$> (r_transpile_time <$> g))) <= delta)%Q →
  ∃ avg_swap avg_time avg_depth_increase pre post,
    summary_statistics float_sum qubit_range results w =
      (Ok tt,
       add_stdout
         ([[Lit nl; Lit "Summary Statistics:"]] ++ pre ++
          group_report n avg_swap avg_time avg_depth_increase ++ post) w) ∧
    nearest (Qmean (inject_Z <$> (r_swap_count <$> g))) avg_swap ∧
    nearest (Qmean (inject_Z <$> (depth_increase <$> g)))
            avg_depth_increase ∧
    (is_finite avg_time = true →
     (Qabs (F2Q avg_time - Qmean (F2Q <$> (r_transpile_time <$> g)))
      <= half_ulp avg_time + delta / inject_Z (Z.of_nat (length g)))%Q).
Proof.
  intros Hok Hn Hg Hne Hlen _ Hfin Hsum.
  apply group_of_filter in Hg.
  assert (group_ok float_sum results n = true) as Hokn.
  { rewrite forallb_forall in Hok. apply Hok. by apply list_elem_of_In. }
  unfold group_ok in Hokn. rewrite Hg in Hokn.
  destruct g as [|r g]; [done|].
  destruct (averages float_sum (r :: g)) as [[[a b] c]|e] eqn:Havg; [|done].
  destruct (averages_ok_means _ _ _ _ Havg) as (Ha & Hb & Hc).
  apply list_elem_of_split in Hn as (ns1 & ns2 & ->).
  exists a, b, c, (flat_map (group_lines float_sum results) ns1),
         (flat_map (group_lines float_sum results) ns2).
  split; [|split; [|split]].
  - unfold summary_statistics, mbind, M_bind. rewrite print_eval.
    rewrite summary_loop_ok by done. rewrite add_stdout_app.
    do 3 f_equal. rewrite flat_map_app. cbn [flat_map]. f_equal. f_equal.
    unfold group_lines. rewrite Hg, Havg. done.
  - unfold mean_int in Ha. apply mean_int_nearest; [done|exact Ha].
  - unfold mean_int in Hc. apply mean_int_nearest; [done|exact Hc].
  - intros Hb_fin. unfold mean_float in Hb. rewrite !length_fmap in *.
    set (k := Z.of_nat (length (r :: g))) in *.
    assert (0 < k) as Hk by (unfold k; cbn [length]; lia).
    assert (0 < inject_Z k)%Q as Hkq
      by (change 0%Q with (inject_Z 0); rewrite <- Zlt_Qlt; lia).
    destruct (float_div_int_nearest _ _ _ Hfin (conj Hk Hlen) Hb Hb_fin)
      as [_ Hnear].
    unfold Qmean. rewrite !length_fmap. fold k.
    set (S := F2Q (float_sum (r_transpile_time <$> r :: g))) in *.
    set (T := Qsum (F2Q <$> (r_transpile_time <$> r :: g))) in *.
    assert (F2Q b - T / inject_Z k
            == (F2Q b - S / inject_Z k) + (S - T) / inject_Z k)%Q as ->
      by (field; lra).
    eapply Qle_trans; [apply Qabs_triangle|].
    apply Qplus_le_compat; [done|].
    unfold Qdiv. rewrite Qabs_Qmult.
    rewrite (Qabs_pos (/ inject_Z k)).
    2:{ apply Qlt_le_weak, Qinv_lt_0_compat. done. }
    apply Qmult_le_compat_r; [done|].
    apply Qlt_le_weak, Qinv_lt_0_compat. done.
Qed.

End SummaryFacts.

Section SummaryWitness.
Import BvAlgo Examples.

Lemma summary_reports_group_means_witness :
  ∃ avg_swap avg_time avg_depth_increase pre post,
    summary_statistics naive_sum [5; 10] sweep_results world0 =
      (Ok tt,
       add_stdout
         ([[Lit nl; Lit "Summary Statistics:"]] ++ pre ++
          group_report 5 avg_swap avg_time avg_depth_increase ++ post)
         world0) ∧
    nearest (Qmean (inject_Z <$> (r_swap_count <$> [rec_a; rec_c])))
            avg_swap ∧
    nearest (Qmean (inject_Z <$> (depth_increase <$> [rec_a; rec_c])))
            avg_depth_increase ∧
    (is_finite avg_time = true →
     (Qabs (F2Q avg_time
            - Qmean (F2Q <$> (r_transpile_time <$> [rec_a; rec_c])))
      <= half_ulp avg_time
         + 0 / inject_Z (Z.of_nat (length [rec_a; rec_c])))%Q).
Proof.
  apply (summary_reports_group_means naive_sum [5; 10] sweep_results world0
           5 [rec_a; rec_c] 0%Q).
  - vm_compute. reflexivity.
  - apply list_elem_of_here.
  - apply group_take; [reflexivity|].
    apply group_skip; [vm_compute; discriminate|].
    apply group_take; [reflexivity|]. apply group_nil.
  - discriminate.
  - vm_compute. reflexivity.
  - repeat constructor.
  - reflexivity.
  - vm_compute. discriminate.
Defined.

(** The two swap counts 3 and 4 average to the double 3.5, and the two
    times 1.5 and 2.5 to the double 2. *)
Example mean_int_3_4 :
  averages naive_sum [rec_a; rec_c]
  = Ok (S754_finite false 7881299347898368 (-51),
        S754_finite false 4503599627370496 (-51),
        S754_finite false 6192449487634432 (-50)) ∧
  (F2Q (S754_finite false 7881299347898368 (-51)) == 7 # 2)%Q ∧
  (F2Q (S754_finite false 4503599627370496 (-51)) == 2)%Q.
Proof. vm_compute. repeat split. Qed.

(** The claim as it is stated fails: the swap counts 1, 0 and 0 have the
    mean 1/3, which no double equals; the summary reports the double next
    to it. *)
Lemma summary_mean_not_exact :
  ∃ avg_swap avg_time avg_depth_increase,
    summary_statistics naive_sum [5] thirds world0 =
      (Ok tt,
       add_stdout
         ([[Lit nl; Lit "Summary Statistics:"]] ++
          group_report 5 avg_swap avg_time avg_depth_increase) world0) ∧
    (Qmean (inject_Z <$> (r_swap_count <$> thirds)) == 1 # 3)%Q ∧
    ¬ (F2Q avg_swap == Qmean (inject_Z <$> (r_swap_count <$> thirds)))%Q.
Proof.
  exists (S754_finite false 6004799503160661 (-54)),
         (S754_finite false 6755399441055744 (-52)),
         (S754_finite false 4503599627370496 (-51)).
  split; [vm_compute; reflexivity|]. split; [by vm_compute|].
  vm_compute. discriminate.
Qed.

End SummaryWitness.

(** ** bv_algo.py and qv_10_5-_d10_25.py: a failing transpile call *)

Section BvSweepFacts.
Import BvAlgo.
Context (now : nat → float) (rand_bit : nat → bool)
        (pm_run : nat → coupling_map → circuit → res circuit)
        (circuit_depth : circuit → Z).

Lemma bv_transpile_raises qc cm w e :
  pm_run (pm_calls w) cm qc = Raise e →
  transpile_with_sabre now pm_run qc cm w
  = (Raise e, tick_pm 1 (tick_clock 1 w)).
Proof.
  intros Hrun. unfold transpile_with_sabre, mbind, M_bind.
  cbn [time_time pass_manager_run pm_calls]. rewrite Hrun. by destruct w.
Qed.

Lemma bv_transpile_returns qc cm w tqc :
  pm_run (pm_calls w) cm qc = Ok tqc →
  transpile_with_sabre now pm_run qc cm w
  = (Ok (tqc, fsub (now (S (clock_reads w))) (now (clock_reads w)),
         count_swaps tqc),
     tick_pm 1 (tick_clock 2 w)).
Proof.
  intros Hrun. unfold transpile_with_sabre, mbind, M_bind.
  cbn [time_time pass_manager_run pm_calls]. rewrite Hrun. by destruct w.
Qed.

(** In the Bernstein-Vazirani sweep a failed transpile call is caught and
    logged, and no record is added. *)
Lemma run_one_skips cm results n i qc hs w e :
  pm_run (pm_calls w) cm qc = Raise e →
  run_one now pm_run circuit_depth cm results n i qc hs w
  = (Ok results,
     add_stdout [[Lit "    Error: "; FStr (exn_msg e)]]
       (tick_pm 1 (tick_clock 1 w))).
Proof.
  intros Hrun. unfold run_one, try_except, mbind at 1, M_bind at 1.
  rewrite (bv_transpile_raises _ _ _ _ Hrun). reflexivity.
Qed.

(** A successful call adds exactly its record. *)
Lemma run_one_records cm results n i qc hs w tqc :
  pm_run (pm_calls w) cm qc = Ok tqc →
  ∃ w',
    run_one now pm_run circuit_depth cm results n i qc hs w
    = (Ok (results ++
           [ {| r_qubits := n; r_circuit_idx := i; r_hidden_string := hs;
                r_swap_count := count_swaps tqc;
                r_transpile_time :=
                  fsub (now (S (clock_reads w))) (now (clock_reads w));
                r_original_depth := circuit_depth qc;
                r_transpiled_depth := circuit_depth tqc;
                r_original_size := size qc;
                r_transpiled_size := size tqc |} ]),
       w') ∧
    files w' = files w.
Proof.
  intros Hrun. unfold run_one, try_except, mbind at 1, M_bind at 1.
  rewrite (bv_transpile_returns _ _ _ _ Hrun).
  eexists. split; [reflexivity|]. reflexivity.
Qed.

(** After a failed configuration the Bernstein-Vazirani sweep goes on with
    the remaining ones, from the same results. *)
Lemma bv_sweep_continues cm n k results i rest w qc hs w1 e :
  create_bv_circuit rand_bit n None w = (Ok (qc, hs), w1) →
  pm_run (pm_calls w1) cm qc = Raise e →
  for_each (i :: rest) (sweep_body now rand_bit pm_run circuit_depth cm n k)
    results w
  = for_each rest (sweep_body now rand_bit pm_run circuit_depth cm n k)
      results
      (add_stdout
         [ [Lit "  Circuit "; FInt (i + 1); Lit "/"; FInt k;
            Lit " - Hidden string: "; FStr hs];
           [Lit "    Error: "; FStr (exn_msg e)] ]
         (tick_pm 1 (tick_clock 1 w1))).
Proof.
  intros Hqc Hrun. cbn [for_each]. unfold mbind at 1, M_bind at 1.
  unfold sweep_body at 1. unfold mbind at 1, M_bind at 1. rewrite Hqc.
  unfold mbind at 1, M_bind at 1. rewrite print_eval.
  rewrite (run_one_skips cm results n i qc hs (add_stdout _ w1) e Hrun).
  f_equal. unfold add_stdout, tick_pm, tick_clock. cbn.
  by rewrite <- app_assoc.
Qed.

End BvSweepFacts.

Section BvLoopFacts.
Import BvAlgo.
Context (now : nat → float) (rand_bit : nat → bool)
        (pm_run : nat → coupling_map → circuit → res circuit)
        (circuit_depth : circuit → Z).

Lemma random_string_loop {A} (xs : list A) : ∀ acc w,
  ∃ chars,
    for_each xs (λ acc _, c ← random_choice01 rand_bit; mret (acc ++ [c]))
      acc w
    = (Ok chars, tick_rng (length xs) w) ∧
    length chars = (length acc + length xs)%nat.
Proof.
  induction xs as [|x xs IH]; intros acc w.
  - exists acc. split; [by destruct w|]. cbn. lia.
  - cbn [for_each]. unfold mbind at 1, M_bind at 1.
    unfold mbind at 1, M_bind at 1. cbn [random_choice01 mret M_ret].
    destruct (IH (acc ++ [if rand_bit (rng_draws w) then "1" else "0"]%char)
                (tick_rng 1 w)) as (chars & Hrun & Hlen).
    exists chars. split.
    + unfold tick_rng at 1 in Hrun. cbn in Hrun. rewrite Hrun.
      f_equal. unfold tick_rng. cbn. f_equal. lia.
    + rewrite Hlen, length_app. cbn. lia.
Qed.

Lemma length_string_of_list_ascii l :
  String.length (string_of_list_ascii l) = length l.
Proof. induction l as [|c l IH]; cbn; [done|]. by rewrite IH. Qed.

Lemma str_getitem_in_range s i :
  0 ≤ i < Z.of_nat (String.length s) → ∃ c, str_getitem s i = Ok c.
Proof.
  intros Hi. unfold str_getitem.
  replace (0 <=? i) with true by (symmetry; apply Z.leb_le; lia).
  assert (Z.to_nat i < String.length s)%nat as Hn by lia.
  clear Hi. revert s Hn. generalize (Z.to_nat i) as n.
  induction n as [|n IH]; intros [|c s] Hn; cbn in *; try lia.
  - by exists c.
  - apply IH. lia.
Qed.

Lemma cx_loop hs n xs : ∀ qc w,
  Forall (λ i, 0 ≤ i < Z.of_nat (String.length hs)) xs →
  ∃ qc',
    for_each xs
      (λ qc i,
         bit ← lift (str_getitem hs i);
         mret (if Ascii.eqb bit "1"
               then append_gate qc "cx" [i; n] [] else qc))
      qc w
    = (Ok qc', w).
Proof.
  induction xs as [|x xs IH]; intros qc w Hxs.
  - by exists qc.
  - apply Forall_cons in Hxs as [Hx Hxs].
    destruct (str_getitem_in_range hs x Hx) as (c & Hc).
    cbn [for_each]. unfold mbind at 1, M_bind at 1.
    unfold mbind at 1, M_bind at 1, lift at 1. rewrite Hc.
    cbn [mret M_ret]. by apply IH.
Qed.

Lemma py_range_bounds n : Forall (λ i, 0 ≤ i < Z.max n 0) (py_range n).
Proof.
  unfold py_range. rewrite Forall_forall. intros i Hi.
  apply list_elem_of_In, in_map_iff in Hi as (k & <- & Hk).
  apply in_seq in Hk. lia.
Qed.

(** Circuit construction with a generated hidden string always returns. *)
Lemma create_bv_circuit_returns n w :
  0 ≤ n →
  ∃ qc hs,
    create_bv_circuit rand_bit n None w
    = (Ok (qc, hs), tick_rng (Z.to_nat n) w).
Proof.
  intros Hn. unfold create_bv_circuit.
  unfold mbind at 1, M_bind at 1. unfold mbind at 1, M_bind at 1.
  destruct (random_string_loop (py_range n) [] w) as (chars & Hrun & Hlen).
  rewrite Hrun. cbn [mret M_ret]. rewrite length_py_range.
  unfold mbind at 1, M_bind at 1. unfold new_circuit.
  replace ((n + 1 <? 0) || (n <? 0)) with false
    by (symmetry; apply orb_false_iff; lia).
  cbn [mret M_ret].
  unfold mbind at 1, M_bind at 1.
  edestruct (cx_loop (string_of_list_ascii chars) n (py_range n))
    as (qc' & Hcx).
  { rewrite length_string_of_list_ascii, Hlen, length_py_range. cbn.
    eapply Forall_impl; [apply py_range_bounds|]. cbn. lia. }
  rewrite Hcx. cbn [mret M_ret]. eexists _, _. reflexivity.
Qed.

(** One iteration of the Bernstein-Vazirani sweep always returns: with the
    results unchanged and an error line when the transpile call raises, with
    one more record when it returns. *)
Lemma sweep_body_outcome cm n k results i w :
  0 ≤ n →
  ∃ qc hs w',
    create_bv_circuit rand_bit n None w
      = (Ok (qc, hs), tick_rng (Z.to_nat n) w) ∧
    files w' = files w ∧
    match pm_run (pm_calls w) cm qc with
    | Raise e =>
        sweep_body now rand_bit pm_run circuit_depth cm n k results i w
          = (Ok results, w') ∧
        last (stdout w') = Some [Lit "    Error: "; FStr (exn_msg e)]
    | Ok tqc =>
        ∃ r,
          sweep_body now rand_bit pm_run circuit_depth cm n k results i w
            = (Ok (results ++ [r]), w') ∧
          r_qubits r = n ∧ r_circuit_idx r = i ∧ r_hidden_string r = hs ∧
          r_swap_count r = count_swaps tqc
    end.
Proof.
  intros Hn. destruct (create_bv_circuit_returns n w Hn) as (qc & hs & Hqc).
  exists qc, hs.
  set (w1 := add_stdout
               [[Lit "  Circuit "; FInt (i + 1); Lit "/"; FInt k;
                 Lit " - Hidden string: "; FStr hs]]
               (tick_rng (Z.to_nat n) w)).
  assert (sweep_body now rand_bit pm_run circuit_depth cm n k results i w
          = run_one now pm_run circuit_depth cm results n i qc hs w1)
    as Hbody.
  { unfold sweep_body. unfold mbind at 1, M_bind at 1. rewrite Hqc.
    unfold mbind at 1, M_bind at 1. by rewrite print_eval. }
  rewrite Hbody.
  destruct (pm_run (pm_calls w) cm qc) as [tqc|e] eqn:Hrun.
  - destruct (run_one_records now pm_run circuit_depth cm results n i qc hs
                w1 tqc Hrun) as (w' & Hone & Hfiles).
    exists w'. split; [done|]. split; [done|].
    eexists. split; [exact Hone|]. done.
  - eexists. split; [done|]. split; [|split].
    2:{ apply (run_one_skips now pm_run circuit_depth cm results n i qc hs
                 w1 e Hrun). }
    + done.
    + cbn [stdout add_stdout tick_pm tick_clock]. by rewrite last_snoc.
Qed.

(** The inner loop never aborts, whatever the optimizer does; it only adds
    records, each for the qubit count at hand. *)
Lemma bv_inner_loop_returns cm n k idxs : ∀ results w,
  0 ≤ n →
  ∃ added w',
    for_each idxs (sweep_body now rand_bit pm_run circuit_depth cm n k)
      results w
    = (Ok (results ++ added), w') ∧
    files w' = files w ∧
    Forall (λ r, r_qubits r = n) added ∧
    (length added ≤ length idxs)%nat.
Proof.
  induction idxs as [|i idxs IH]; intros results w Hn.
  - exists [], w. rewrite app_nil_r. by repeat split.
  - destruct (sweep_body_outcome cm n k results i w Hn)
      as (qc & hs & w1 & _ & Hfiles1 & Hout).
    cbn [for_each]. unfold mbind at 1, M_bind at 1.
    destruct (pm_run (pm_calls w) cm qc) as [tqc|e].
    + destruct Hout as (r & -> & Hr & _).
      destruct (IH (results ++ [r]) w1 Hn)
        as (added & w' & -> & Hfiles & Hall & Hlen).
      exists (r :: added), w'. rewrite <- app_assoc.
      split; [done|]. split; [congruence|]. split; [by constructor|].
      cbn. lia.
    + destruct Hout as [-> _].
      destruct (IH results w1 Hn)
        as (added & w' & -> & Hfiles & Hall & Hlen).
      exists added, w'. split; [done|]. split; [congruence|].
      split; [done|]. cbn. lia.
Qed.

(** Both loops of the sweep: every record carries a qubit count of the
    sweep. *)
Lemma bv_sweep_loops_return cm k qubit_range : ∀ results w,
  Forall (λ n, 0 ≤ n) qubit_range →
  ∃ added w',
    for_each qubit_range
      (λ results n_qubits,
         _ ← print [Lit nl; Lit "Testing with "; FInt n_qubits;
                    Lit " qubits:"];
         for_each (py_range k)
           (sweep_body now rand_bit pm_run circuit_depth cm n_qubits k)
           results)
      results w
    = (Ok (results ++ added), w') ∧
    files w' = files w ∧
    Forall (λ r, r_qubits r ∈ qubit_range) added.
Proof.
  induction qubit_range as [|n ns IH]; intros results w Hns.
  - exists [], w. rewrite app_nil_r. by repeat split.
  - apply Forall_cons in Hns as [Hn Hns].
    cbn [for_each]. unfold mbind at 1, M_bind at 1.
    unfold mbind at 1, M_bind at 1. rewrite print_eval.
    match goal with
    | |- context [for_each (py_range k) _ results ?w0] =>
        destruct (bv_inner_loop_returns cm n k (py_range k) results w0 Hn)
          as (added1 & w1 & -> & Hfiles1 & Hall1 & _)
    end.
    destruct (IH (results ++ added1) w1 Hns)
      as (added & w' & -> & Hfiles & Hall).
    exists (added1 ++ added), w'. rewrite app_assoc.
    split; [done|]. split; [by rewrite Hfiles, Hfiles1|].
    apply Forall_app. split.
    + eapply Forall_impl; [exact Hall1|]. intros r ->. apply list_elem_of_here.
    + eapply Forall_impl; [exact Hall|]. intros r Hr.
      by apply list_elem_of_further.
Qed.
End BvLoopFacts.

Section QvSweepFacts.
Import Qv Examples.
Context (now : nat → float)
        (pm_run : nat → coupling_map → circuit → res circuit)
        (circuit_depth : circuit → Z) (washington : coupling_map)
        (QuantumVolume : Z → Z → Z → circuit).

Lemma qv_transpile_raises qc cm w e :
  pm_run (pm_calls w) cm qc = Raise e →
  transpile_with_sabre now pm_run qc cm 1 w
  = (Raise e, tick_pm 1 (tick_clock 1 w)).
Proof.
  intros Hrun. unfold transpile_with_sabre.
  change (py_range 1) with [0]. cbn [for_each]. unfold mbind, M_bind.
  cbn [time_time pass_manager_run pm_calls]. rewrite Hrun. by destruct w.
Qed.

(** The Quantum Volume loop has no handler: the exception leaves it. *)
Lemma qv_loop_aborts cm total results i qc params rest w e :
  pm_run (pm_calls w) cm qc = Raise e →
  for_each ((i, (qc, params)) :: rest)
    (sweep_body now pm_run circuit_depth cm total) results w
  = (Raise e,
     tick_pm 1 (tick_clock 1
       (add_stdout
          [ [Lit "Processing circuit "; FInt (i + 1); Lit "/"; FInt total;
             Lit ": "; FInt (params.1.1); Lit " qubits, depth ";
             FInt (params.1.2); Lit ", idx "; FInt (params.2)] ] w))).
Proof.
  intros Hrun. destruct params as [[n d] idx].
  cbn [for_each]. unfold mbind at 1, M_bind at 1.
  unfold sweep_body. unfold mbind at 1, M_bind at 1. rewrite print_eval.
  unfold mbind at 1, M_bind at 1.
  rewrite (qv_transpile_raises qc cm (add_stdout _ w) e Hrun). reflexivity.
Qed.

(** The same at any position of the sweep: the configurations processed
    before keep nothing, since the results list is lost with the exception. *)
Lemma qv_loop_aborts_at cm total processed i qc params rest results results1
    w w1 e :
  for_each processed (sweep_body now pm_run circuit_depth cm total) results w
    = (Ok results1, w1) →
  pm_run (pm_calls w1) cm qc = Raise e →
  ∃ w',
    for_each (processed ++ (i, (qc, params)) :: rest)
      (sweep_body now pm_run circuit_depth cm total) results w
    = (Raise e, w') ∧
    files w' = files w1.
Proof.
  intros Hdone Hrun. rewrite for_each_app, Hdone.
  rewrite (qv_loop_aborts cm total results1 i qc params rest w1 e Hrun).
  eexists. split; [reflexivity|]. done.
Qed.

(** C2 fails on the Quantum Volume sweep: when the transpile call of the
    first configuration raises, [benchmark_qv_circuits] raises the same
    exception; nothing is logged for the error, the remaining 199
    configurations are not processed and no results file is written. *)
Theorem benchmark_qv_aborts_on_error w e :
  pm_run (pm_calls w) washington (QuantumVolume 10 10 101000) = Raise e →
  ∃ w',
    benchmark_qv_circuits now pm_run circuit_depth washington QuantumVolume w
    = (Raise e, w') ∧
    files w' = files w ∧
    pm_calls w' = S (pm_calls w) ∧
    stdout w' = stdout w ++
      [ [Lit "Generating QV circuits..."];
        [Lit "Generated "; FInt 200; Lit " QV circuits"];
        [Lit "Running benchmarks..."];
        [Lit "Processing circuit "; FInt 1; Lit "/"; FInt 200; Lit ": ";
         FInt 10; Lit " qubits, depth "; FInt 10; Lit ", idx "; FInt 0] ].
Proof.
  intros Hrun. unfold benchmark_qv_circuits, benchmark_qv_sweep.
  destruct (generate_qv_circuits QuantumVolume qubit_range depth_range
              num_circuits_per_config) as [circuits params] eqn:Hgen.
  vm_compute in Hgen. injection Hgen as <- <-.
  unfold mbind at 1, M_bind at 1. rewrite print_eval.
  unfold mbind at 1, M_bind at 1. rewrite print_eval.
  unfold mbind at 1, M_bind at 1. rewrite print_eval.
  unfold mbind at 1, M_bind at 1.
  cbn [zip zip_with imap].
  rewrite (qv_loop_aborts _ _ _ _ _ _ _ _ e); [|exact Hrun].
  eexists. split; [reflexivity|]. split; [reflexivity|].
  split; [reflexivity|].
  cbn. rewrite <- !app_assoc. reflexivity.
Qed.

End QvSweepFacts.

Section QvSweepWitness.
Import Qv Examples.

Lemma benchmark_qv_aborts_on_error_witness :
  ∃ w',
    benchmark_qv_circuits frozen_clock (failing_pm layout_failed) no_depth []
      empty_qv world0
    = (Raise layout_failed, w') ∧
    files w' = [] ∧
    pm_calls w' = 1%nat ∧
    stdout w' =
      [ [Lit "Generating QV circuits..."];
        [Lit "Generated "; FInt 200; Lit " QV circuits"];
        [Lit "Running benchmarks..."];
        [Lit "Processing circuit "; FInt 1; Lit "/"; FInt 200; Lit ": ";
         FInt 10; Lit " qubits, depth "; FInt 10; Lit ", idx "; FInt 0] ].
Proof.
  apply (benchmark_qv_aborts_on_error frozen_clock (failing_pm layout_failed)
           no_depth [] empty_qv world0 layout_failed).
  reflexivity.
Defined.

End QvSweepWitness.

(** ** error_rate_all_machine.py *)

Section StringFacts.
Import Calibration.

Lemma append_cons c s1 s2 : String c s1 +:+ s2 = String c (s1 +:+ s2).
Proof. reflexivity. Qed.

Lemma append_nil s : EmptyString +:+ s = s.
Proof. reflexivity. Qed.

Lemma str_lower_app s1 s2 :
  str_lower (s1 +:+ s2) = str_lower s1 +:+ str_lower s2.
Proof.
  induction s1 as [|c s1 IH]; [done|].
  rewrite append_cons. cbn [str_lower]. by rewrite IH, append_cons.
Qed.

Lemma prefix_app pat s : String.prefix pat (pat +:+ s) = true.
Proof.
  induction pat as [|c pat IH].
  - rewrite append_nil. by destruct s.
  - rewrite append_cons. cbn [String.prefix].
    destruct (ascii_dec c c); [done|congruence].
Qed.

Lemma in_str_prefix pat s : String.prefix pat s = true → in_str pat s = true.
Proof. intros H. destruct s; cbn [in_str]; by rewrite H. Qed.

Lemma in_str_app pre pat post : in_str pat (pre +:+ pat +:+ post) = true.
Proof.
  induction pre as [|c pre IH].
  - rewrite append_nil. apply in_str_prefix, prefix_app.
  - rewrite append_cons. cbn [in_str]. rewrite IH. apply orb_true_r.
Qed.

(** The handler's test ["retired" in str(e).lower()] accepts every message
    that contains the word in any mix of cases. *)
Lemma contains_ci_in_str pat s :
  contains_ci pat s → in_str pat (str_lower s) = true.
Proof.
  intros (pre & mid & post & -> & <-).
  rewrite !str_lower_app. apply in_str_app.
Qed.

Lemma prefix_lower_split pat : ∀ s,
  String.prefix pat (str_lower s) = true →
  ∃ mid post, s = mid +:+ post ∧ str_lower mid = pat.
Proof.
  induction pat as [|c pat IH]; intros s Hpre.
  - by exists EmptyString, s.
  - destruct s as [|a s]; [done|]. cbn [str_lower String.prefix] in Hpre.
    destruct (ascii_dec c (ascii_lower a)) as [->|]; [|done].
    destruct (IH s Hpre) as (mid & post & -> & <-).
    by exists (String a mid), post.
Qed.

(** Conversely, the test accepts nothing else. *)
Lemma in_str_contains_ci pat s :
  in_str pat (str_lower s) = true → contains_ci pat s.
Proof.
  induction s as [|a s IH]; cbn [str_lower in_str]; intros Hin;
    apply orb_true_iff in Hin as [Hpre|Hin]; try done.
  - destruct (prefix_lower_split pat EmptyString Hpre)
      as (mid & post & Hs & Hmid).
    by exists EmptyString, mid, post.
  - destruct (prefix_lower_split pat (String a s) Hpre)
      as (mid & post & Hs & Hmid).
    by exists EmptyString, mid, post.
  - destruct (IH Hin) as (pre & mid & post & -> & Hmid).
    by exists (String a pre), mid, post.
Qed.

End StringFacts.

Section CalibrationFacts.
Import Calibration.
Context (format_float : string → float → string)
        (py_str : pyval → string)
        (FakeOslo : fake_backend)
        (strftime_now : nat → string).

Lemma safe_get_sentinel func qubit e :
  func qubit = Raise e →
  safe_get format_float py_str func qubit = "N/A"%string.
Proof. intros H. unfold safe_get. by rewrite H. Qed.

Lemma collect_live_raises results b w e :
  live_query_error b = Some e →
  collect_live format_float py_str results b w
  = (Raise e,
     add_stdout [[Lit nl; Lit "Processing "; FStr (name b); Lit "..."]] w).
Proof.
  unfold live_query_error, collect_live, mbind, M_bind, lift.
  rewrite print_eval.
  destruct (status b) as [st|e1]; [|by intros [= ->]].
  destruct (get_properties b) as [props|e2]; [done|by intros [= ->]].
Qed.

(** The gate class has neither of the two attributes the collector reads. *)
Lemma gate_getattr_gate_length g :
  gate_getattr g "gate_length" = Raise (attr_undefined "gate_length").
Proof. reflexivity. Qed.

Lemma gate_getattr_error g :
  gate_getattr g "error" = Raise (attr_undefined "error").
Proof. reflexivity. Qed.

Lemma filter_nil_existsb {A} (p : A → bool) l :
  existsb p l = false → List.filter p l = [].
Proof.
  induction l as [|x l IH]; [done|]. cbn [existsb List.filter].
  destruct (p x); [done|]. exact IH.
Qed.

Lemma filter_cons_existsb {A} (p : A → bool) l :
  existsb p l = true → ∃ x l', List.filter p l = x :: l'.
Proof.
  induction l as [|x l IH]; [done|]. cbn [existsb List.filter].
  destruct (p x); [by eexists _, _|]. exact IH.
Qed.

(** Lines 15-57 for a backend whose status and properties are available:
    the qubit entries are built, with the sentinel where a getter raises;
    the first [cx] gate then raises, and only a backend without one is
    stored. *)
Lemma collect_live_eval results b w st props :
  status b = Ok st →
  get_properties b = Ok (Some props) →
  collect_live format_float py_str results b w
  = (if lists_cx props then Raise (attr_undefined "gate_length")
     else Ok (<[name b := live_record format_float py_str b st props]>
                results),
     add_stdout [[Lit nl; Lit "Processing "; FStr (name b); Lit "..."]] w).
Proof.
  intros Hst Hprops. unfold collect_live, mbind, M_bind, lift.
  rewrite print_eval, Hst, Hprops.
  destruct (lists_cx props) eqn:Hcx; unfold lists_cx in Hcx.
  - destruct (filter_cons_existsb _ _ Hcx) as (g & gs & ->).
    cbn [res_map]. unfold mbind at 1, res_bind at 1.
    unfold mbind at 1, res_bind at 1. by rewrite gate_getattr_gate_length.
  - rewrite (filter_nil_existsb _ _ Hcx). reflexivity.
Qed.

(** The message of the missing attribute is not taken for a retirement. *)
Lemma attr_undefined_not_retired :
  in_str "retired" (str_lower (exn_msg (attr_undefined "gate_length")))
  = false.
Proof. reflexivity. Qed.

Lemma live_record_entries b st props :
  length (qubits (live_record format_float py_str b st props))
    = Z.to_nat (num_qubits b) ∧
  ∀ (q : nat) entry,
    qubits (live_record format_float py_str b st props) !! q = Some entry →
    e_qubit entry = Some (Z.of_nat q) ∧
    (∀ e, t1 props (Z.of_nat q) = Raise e → e_T1 entry = "N/A"%string) ∧
    (∀ e, t2 props (Z.of_nat q) = Raise e → e_T2 entry = "N/A"%string) ∧
    (∀ e, readout_error props (Z.of_nat q) = Raise e →
          e_readout_error entry = "N/A"%string) ∧
    (∀ e, frequency props (Z.of_nat q) = Raise e →
          e_frequency entry = Some "N/A"%string).
Proof.
  cbn [live_record qubits]. split.
  - by rewrite length_fmap, length_py_range.
  - intros q entry Hentry.
    apply list_lookup_fmap_Some in Hentry as (q' & -> & Hq').
    assert (q' = Z.of_nat q) as ->.
    { unfold py_range in Hq'.
      change (List.map Z.of_nat ?l) with (Z.of_nat <$> l) in Hq'.
      apply list_lookup_fmap_Some in Hq' as (k & -> & Hk).
      apply lookup_seq in Hk as [-> _]. done. }
    cbn. split; [done|].
    repeat split; intros e He; by rewrite (safe_get_sentinel _ _ e He).
Qed.

(** What the code gets right: for a backend without a [cx] gate the record
    is stored whatever the getters do, with the sentinel where one
    raises. *)
Lemma live_record_survives results b w st props :
  status b = Ok st →
  get_properties b = Ok (Some props) →
  lists_cx props = false →
  ∃ rec w',
    collect_live format_float py_str results b w
      = (Ok (<[name b := rec]> results), w') ∧
    length (qubits rec) = Z.to_nat (num_qubits b) ∧
    ∀ (q : nat) entry, qubits rec !! q = Some entry →
      e_qubit entry = Some (Z.of_nat q) ∧
      (∀ e, t1 props (Z.of_nat q) = Raise e → e_T1 entry = "N/A"%string) ∧
      (∀ e, t2 props (Z.of_nat q) = Raise e → e_T2 entry = "N/A"%string) ∧
      (∀ e, readout_error props (Z.of_nat q) = Raise e →
            e_readout_error entry = "N/A"%string) ∧
      (∀ e, frequency props (Z.of_nat q) = Raise e →
            e_frequency entry = Some "N/A"%string).
Proof.
  intros Hst Hprops Hcx.
  rewrite (collect_live_eval _ _ _ _ _ Hst Hprops), Hcx.
  eexists _, _. split; [reflexivity|]. apply live_record_entries.
Qed.

(** The live path has a slip of its own.  For a backend that lists a [cx]
    gate every failing metric of its qubits is replaced by the sentinel, but
    the record that holds them is then discarded: reading
    [gate.gate_length] raises inside the [try], the handler logs the error,
    takes it for no retirement and stores nothing.  This happens whatever
    the metric getters do. *)
Lemma live_record_discarded_by_gate_length results b w st props :
  status b = Ok st →
  get_properties b = Ok (Some props) →
  lists_cx props = true →
  (∀ q e, t1 props q = Raise e →
          safe_get format_float py_str (t1 props) q = "N/A"%string) ∧
  collect_live format_float py_str results b w
  = (Raise (attr_undefined "gate_length"),
     add_stdout [[Lit nl; Lit "Processing "; FStr (name b); Lit "..."]] w) ∧
  try_except (collect_live format_float py_str results b)
             (on_error format_float FakeOslo results b) w
  = (Ok results,
     add_stdout
       [ [Lit nl; Lit "Processing "; FStr (name b); Lit "..."];
         [Lit "Error processing "; FStr (name b); Lit ": ";
          FStr "Attribute gate_length is not defined"] ] w).
Proof.
  intros Hst Hprops Hcx.
  split; [intros q e; apply safe_get_sentinel|].
  rewrite (collect_live_eval _ _ _ _ _ Hst Hprops), Hcx. split; [done|].
  unfold try_except.
  rewrite (collect_live_eval _ _ _ _ _ Hst Hprops), Hcx.
  unfold on_error, mbind, M_bind. rewrite print_eval.
  rewrite attr_undefined_not_retired. cbn [mret M_ret].
  by rewrite add_stdout_app.
Qed.

(** An error that does not mention retirement is logged and the backend is
    skipped: the results are left as they are. *)
Lemma other_error_skips results b w e :
  live_query_error b = Some e →
  ¬ contains_ci "retired" (exn_msg e) →
  try_except (collect_live format_float py_str results b)
             (on_error format_float FakeOslo results b) w
  = (Ok results,
     add_stdout
       [ [Lit nl; Lit "Processing "; FStr (name b); Lit "..."];
         [Lit "Error processing "; FStr (name b); Lit ": ";
          FStr (exn_msg e)] ] w).
Proof.
  intros Hlive Hnot. unfold try_except.
  rewrite (collect_live_raises _ _ _ _ Hlive).
  unfold on_error, mbind, M_bind. rewrite print_eval.
  destruct (in_str "retired" (str_lower (exn_msg e))) eqn:Hret.
  - destruct Hnot. by apply in_str_contains_ci.
  - cbn [mret M_ret]. by rewrite add_stdout_app.
Qed.

Lemma res_map_ok {A B} (f : A → res B) (g : A → B) qs :
  Forall (λ q, f q = Ok (g q)) qs → res_map f qs = Ok (g <$> qs).
Proof.
  induction 1 as [|q qs Hq _ IH]; [done|].
  cbn [res_map]. unfold mbind, res_bind. by rewrite Hq, IH.
Qed.

(** The qubit entries of the substitute record, when every getter returns
    a float. *)
Lemma fake_qubit_entries props n (x1 x2 x3 : Z → float) :
  (∀ q, 0 ≤ q < n →
        t1 props q = Ok (PFloat (x1 q)) ∧
        t2 props q = Ok (PFloat (x2 q)) ∧
        readout_error props q = Ok (PFloat (x3 q))) →
  res_map
    (λ qubit,
       c1 ← t1 props qubit;
       T1 ← (if truthy c1
             then v ← t1 props qubit; format_value format_float ".2e" v
             else Ok "N/A"%string);
       c2 ← t2 props qubit;
       T2 ← (if truthy c2
             then v ← t2 props qubit; format_value format_float ".2e" v
             else Ok "N/A"%string);
       r ← readout_error props qubit;
       RE ← format_value format_float ".4f" r;
       Ok {| e_qubit := None; e_T1 := T1; e_T2 := T2;
             e_readout_error := RE; e_frequency := None |})
    (py_range n)
  = Ok ((λ q,
           {| e_qubit := None;
              e_T1 := if truthy (PFloat (x1 q))
                      then format_float ".2e" (x1 q) else "N/A"%string;
              e_T2 := if truthy (PFloat (x2 q))
                      then format_float ".2e" (x2 q) else "N/A"%string;
              e_readout_error := format_float ".4f" (x3 q);
              e_frequency := None |}) <$> py_range n).
Proof.
  intros Hget. apply res_map_ok.
  eapply Forall_impl; [apply py_range_bounds|]. cbn.
  intros q Hq0. assert (0 ≤ q < n) as Hq by lia.
  destruct (Hget q Hq) as (H1 & H2 & H3).
  unfold mbind, res_bind. rewrite H1, H2, H3. cbn [format_value].
  by destruct (x1 q), (x2 q).
Qed.

(** On a snapshot that lists a [cx] gate the substitute record is never
    built: reading [gate.error] raises once the qubit entries are done. *)
Lemma get_fake_backend_data_raises fake props (x1 x2 x3 : Z → float) :
  fake_properties fake = Ok props →
  (∀ q, 0 ≤ q < fake_num_qubits fake →
        t1 props q = Ok (PFloat (x1 q)) ∧
        t2 props q = Ok (PFloat (x2 q)) ∧
        readout_error props q = Ok (PFloat (x3 q))) →
  lists_cx props = true →
  get_fake_backend_data format_float fake = Raise (attr_undefined "error").
Proof.
  intros Hprops Hget Hcx. unfold get_fake_backend_data.
  unfold mbind at 1, res_bind at 1. rewrite Hprops.
  unfold mbind at 1, res_bind at 1.
  rewrite (fake_qubit_entries _ _ x1 x2 x3 Hget).
  unfold lists_cx in Hcx.
  destruct (filter_cons_existsb _ _ Hcx) as (g & gs & ->).
  cbn [res_map]. unfold mbind at 1, res_bind at 1.
  unfold mbind at 1, res_bind at 1. by rewrite gate_getattr_error.
Qed.

(** One backend of the loop, when the substitute record cannot be built:
    the step returns unless the backend is taken for retired, and then it
    raises. *)
Lemma backend_step_fake_raises e' results b w :
  get_fake_backend_data format_float FakeOslo = Raise e' →
  ∃ w',
    files w' = files w ∧
    if retires b
    then try_except (collect_live format_float py_str results b)
                    (on_error format_float FakeOslo results b) w
         = (Raise e', w')
    else ∃ results',
         try_except (collect_live format_float py_str results b)
                    (on_error format_float FakeOslo results b) w
         = (Ok results', w').
Proof.
  intros Hfake. unfold try_except, retires.
  destruct (live_query_error b) as [e|] eqn:Hlive.
  - rewrite (collect_live_raises _ _ _ _ Hlive).
    unfold on_error, mbind, M_bind. rewrite print_eval.
    destruct (in_str "retired" (str_lower (exn_msg e))) eqn:Hret.
    + unfold lift. rewrite Hfake. eexists. split; [|reflexivity]. done.
    + eexists. split; [|eexists; reflexivity]. done.
  - unfold live_query_error in Hlive.
    destruct (status b) as [st|e1] eqn:Hst; [|done].
    destruct (get_properties b) as [[props|]|e2] eqn:Hprops; [| |done].
    + rewrite (collect_live_eval _ _ _ _ _ Hst Hprops).
      destruct (lists_cx props).
      * unfold on_error, mbind, M_bind. rewrite print_eval.
        rewrite attr_undefined_not_retired.
        eexists. split; [|eexists; reflexivity]. done.
      * eexists. split; [|eexists; reflexivity]. done.
    + unfold collect_live, mbind, M_bind, lift.
      rewrite !print_eval, Hst, Hprops. rewrite print_eval.
      eexists. split; [|eexists; reflexivity]. done.
Qed.

Lemma backends_loop_fake_raises e' backends : ∀ results w,
  get_fake_backend_data format_float FakeOslo = Raise e' →
  (∃ b, b ∈ backends ∧ retires b = true) →
  ∃ w',
    for_each backends
      (λ results b,
         try_except (collect_live format_float py_str results b)
                    (on_error format_float FakeOslo results b))
      results w
    = (Raise e', w') ∧
    files w' = files w.
Proof.
  induction backends as [|b bs IH]; intros results w Hfake (b0 & Hb0 & Hret).
  { by apply elem_of_nil in Hb0. }
  cbn [for_each]. unfold mbind, M_bind.
  destruct (backend_step_fake_raises e' results b w Hfake)
    as (w1 & Hfiles1 & Hstep).
  destruct (retires b) eqn:Hb.
  - rewrite Hstep. by exists w1.
  - destruct Hstep as (results1 & ->).
    apply elem_of_cons in Hb0 as [->|Hb0]; [congruence|].
    destruct (IH results1 w1 Hfake) as (w' & -> & Hfiles).
    { by exists b0. }
    exists w'. split; [done|]. congruence.
Qed.


(** C4 fails on the substitute snapshot as the client ships it, with a
    float for every metric and [cx] gates in its gate list.  When the live
    query of a listed backend raises with a message that contains "retired"
    in any mix of cases, the handler's call of [get_fake_backend_data]
    raises [AttributeError] from [gate.error]: the exception leaves the
    handler and the collector, no entry is stored for the backend, and
    neither the results are returned nor the file is written. *)
Theorem retired_backend_aborts_collection backends b e props
    (x1 x2 x3 : Z → float) w :
  b ∈ backends →
  live_query_error b = Some e →
  contains_ci "retired" (exn_msg e) →
  fake_properties FakeOslo = Ok props →
  (∀ q, 0 ≤ q < fake_num_qubits FakeOslo →
        t1 props q = Ok (PFloat (x1 q)) ∧
        t2 props q = Ok (PFloat (x2 q)) ∧
        readout_error props q = Ok (PFloat (x3 q))) →
  lists_cx props = true →
  ∃ w',
    get_all_backend_errors format_float py_str FakeOslo strftime_now
      backends w
    = (Raise (Exn AttributeError "Attribute error is not defined"), w') ∧
    files w' = files w.
Proof.
  intros Hb Hlive Hci Hprops Hget Hcx.
  pose proof (get_fake_backend_data_raises _ _ _ _ _ Hprops Hget Hcx)
    as Hfake.
  destruct (backends_loop_fake_raises _ backends ∅ w Hfake)
    as (w' & Hloop & Hfiles).
  { exists b. split; [done|]. unfold retires. rewrite Hlive.
    by apply contains_ci_in_str. }
  unfold get_all_backend_errors, mbind, M_bind. rewrite Hloop.
  by exists w'.
Qed.

End CalibrationFacts.

Section CalibrationWitnesses.
Import Calibration Examples.

Lemma retired_is_retired : contains_ci "retired" (exn_msg retired_exn).
Proof.
  exists "Backend ibm_oslo is "%string, "RETIRED"%string, EmptyString.
  split; reflexivity.
Defined.

(** A backend with a [cx] gate and no T1 for qubit 1. *)
Example cx_backend_discarded :
  (∀ q e, t1 cx_props q = Raise e →
          safe_get show_float show_val (t1 cx_props) q = "N/A"%string) ∧
  collect_live show_float show_val ∅ cx_backend world0
  = (Raise (attr_undefined "gate_length"),
     add_stdout
       [[Lit nl; Lit "Processing "; FStr (name cx_backend); Lit "..."]]
       world0) ∧
  try_except (collect_live show_float show_val ∅ cx_backend)
             (on_error show_float fake_oslo ∅ cx_backend) world0
  = (Ok ∅,
     add_stdout
       [ [Lit nl; Lit "Processing "; FStr (name cx_backend); Lit "..."];
         [Lit "Error processing "; FStr (name cx_backend); Lit ": ";
          FStr "Attribute gate_length is not defined"] ] world0).
Proof.
  apply (live_record_discarded_by_gate_length show_float show_val fake_oslo
           ∅ cx_backend world0 (BackendStatus true 0) cx_props);
    reflexivity.
Qed.

(** The run over that backend alone returns and writes an empty mapping,
    although the T1 of qubit 1 had been replaced by the sentinel. *)
Example cx_backend_run :
  safe_get show_float show_val (t1 cx_props) 1 = "N/A"%string ∧
  get_all_backend_errors show_float show_val fake_oslo stamp
    [cx_backend] world0
  = (Ok ∅,
     World 1 0 0 0
       [ [Lit nl; Lit "Processing "; FStr "ibmq_lima"; Lit "..."];
         [Lit "Error processing "; FStr "ibmq_lima"; Lit ": ";
          FStr "Attribute gate_length is not defined"] ]
       [([Lit "ibm_errors_"; FStr "20240101_000000"; Lit ".json"],
         JsonDump ∅)]).
Proof. split; reflexivity. Qed.

(** The same backend without its [cx] gate keeps its record. *)
Example ecr_backend_run :
  ∃ rec,
    fst (get_all_backend_errors show_float show_val fake_oslo stamp
           [ecr_backend] world0)
    = Ok {[ "ibm_kyiv"%string := rec ]} ∧
    e_T1 <$> qubits rec = [".2e"; "N/A"]%string ∧
    cx_gates rec = [].
Proof. eexists. split; [reflexivity|]. split; reflexivity. Qed.


Lemma retired_backend_aborts_collection_witness :
  ∃ w',
    get_all_backend_errors show_float show_val fake_oslo stamp
      [ecr_backend; retired_backend] world0
    = (Raise (Exn AttributeError "Attribute error is not defined"), w') ∧
    files w' = files world0.
Proof.
  apply (retired_backend_aborts_collection show_float show_val fake_oslo
           stamp [ecr_backend; retired_backend] retired_backend retired_exn
           oslo_props (λ _, f_1_5) (λ _, f_2_5) (λ _, f_1_5)).
  - apply list_elem_of_further, list_elem_of_here.
  - reflexivity.
  - exact retired_is_retired.
  - reflexivity.
  - intros q _. repeat split.
  - reflexivity.
Defined.

End CalibrationWitnesses.

(** * Further facts *)

(** ** bv_19998.py: the estimator outside the range of counts *)

Section EstimatorEdges.
Import BvLarge Examples.

(** The sign of the dividend only shows in the sign of the quotient. *)
Lemma binary_round_aux_opp m e l :
  binary_round_aux prec emax true m e l
  = SFopp (binary_round_aux prec emax false m e l).
Proof.
  unfold binary_round_aux.
  destruct (shr_fexp prec emax m e l) as [mrs e1].
  destruct (shr_fexp prec emax _ e1 loc_Exact) as [mrs' e2].
  destruct (shr_m mrs'); [done| |done].
  by destruct (e2 <=? emax - prec).
Qed.

Lemma int_truediv_3_opp x f :
  0 < x → int_truediv x 3 = Ok f → int_truediv (- x) 3 = Ok (SFopp f).
Proof.
  intros Hx. unfold int_truediv. destruct x as [|p|p]; try lia.
  change (- Z.pos p) with (Z.neg p).
  cbn [Z.eqb exact_int SFdiv xorb].
  destruct (SFdiv_core_binary prec emax (Z.pos p) 0 3 0) as [[mz ez] lz].
  rewrite binary_round_aux_opp.
  destruct (binary_round_aux prec emax false mz ez lz); try done;
    by intros [= <-].
Qed.

Lemma int_of_float_opp f z :
  int_of_float f = Ok z → int_of_float (SFopp f) = Ok (- z).
Proof.
  destruct f as [s|s| |s m e]; cbn; try done.
  - by intros [= <-].
  - intros [= <-]. f_equal. destruct s; cbn; lia.
Qed.

(** [int(x / 3)] truncates toward zero on both sides. *)
Lemma int_truediv_3_quot x :
  - (3 * 2 ^ 52) ≤ x ≤ 3 * 2 ^ 52 →
  ∃ f, int_truediv x 3 = Ok f ∧ int_of_float f = Ok (Z.quot x 3).
Proof.
  intros Hx. destruct (Z_le_dec 0 x) as [Hpos|Hneg].
  - destruct (int_truediv_3_trunc x) as (f & Hf & Hz); [lia|].
    exists f. split; [done|]. rewrite Z.quot_div_nonneg by lia. done.
  - destruct (int_truediv_3_trunc (- x)) as (f & Hf & Hz); [lia|].
    exists (SFopp f). split.
    + replace x with (- - x) by lia. apply int_truediv_3_opp; [lia|done].
    + rewrite (int_of_float_opp f _ Hz). f_equal.
      rewrite <- (Z.quot_div_nonneg (- x) 3) by lia.
      rewrite Z.quot_opp_l by lia. lia.
Qed.

(** X1.  The estimator truncates toward zero: for metadata whose
    interaction-gate count [c] has [|c| <= 3 * 2^51] it returns
    [estimated_swaps = (c * 2) quot 3] (for a negative count the negated
    estimate of [|c|], which is above the floor) and
    [estimated_depth = depth + 3 * estimated_swaps]. *)
Theorem estimate_truncates_toward_zero now meta cm w :
  - (3 * 2 ^ 51) ≤ num_cx meta ≤ 3 * 2 ^ 51 →
  ∃ t w',
    estimate_sabre_performance now meta cm w
    = (Ok (Z.quot (num_cx meta * 2) 3,
           depth meta + 3 * Z.quot (num_cx meta * 2) 3, t), w') ∧
    Z.quot (num_cx meta * 2) 3 = Z.sgn (num_cx meta) * (Z.abs (num_cx meta) * 2 / 3).
Proof.
  intros Hc.
  destruct (int_truediv_3_quot (num_cx meta * 2)) as (f & Hf & Hz); [lia|].
  eexists _, _. split.
  - rewrite (estimate_eval now meta cm w f _ Hf Hz).
    by rewrite (Z.mul_comm 3).
  - destruct (Z_le_dec 0 (num_cx meta)) as [Hpos|Hneg].
    + rewrite Z.quot_div_nonneg, Z.abs_eq by lia.
      destruct (Z.eq_dec (num_cx meta) 0) as [->|]; [done|].
      rewrite Z.sgn_pos by lia. lia.
    + rewrite Z.sgn_neg, Z.abs_neq by lia.
      replace (num_cx meta * 2) with (- (- num_cx meta * 2)) at 1 by lia.
      rewrite Z.quot_opp_l by lia.
      rewrite Z.quot_div_nonneg by lia. lia.
Qed.

Lemma round_finish_infinity m e :
  2 ^ 52 ≤ m ≤ 2 ^ 53 → 971 < e →
  round_finish false m e = S754_infinity false.
Proof.
  intros Hm He. unfold round_finish.
  destruct (Z_lt_dec m (2 ^ 53)) as [Hlt|Hge].
  - rewrite shr_fexp_keep; [| lia | | unfold prec, emax; lia].
    2:{ rewrite (Zdigits2_unique m 53); [done|lia|lia]. }
    cbn [shr_record_of_loc shr_m]. destruct m as [|p|p]; try lia.
    replace (e <=? emax - prec) with false; [done|].
    symmetry. apply Z.leb_gt. unfold prec, emax. lia.
  - assert (m = 2 ^ 53) as Hm53 by lia.
    rewrite shr_fexp_one; [| lia | | unfold prec, emax; lia].
    2:{ rewrite (Zdigits2_unique m 54); [done|lia|lia]. }
    cbn [shr_record_of_loc]. rewrite shr_1_nonneg by lia. cbn [shr_m].
    assert (m / 2 = 2 ^ 52) as Hhalf by (rewrite Hm53; reflexivity).
    destruct (m / 2) as [|p|p] eqn:E; try lia.
    replace (e + 1 <=? emax - prec) with false; [done|].
    symmetry. apply Z.leb_gt. unfold prec, emax. lia.
Qed.

(** A quotient of [2^1024] or more is beyond the largest double. *)
Lemma round_overflows q l :
  2 ^ 1024 ≤ q →
  binary_round_aux prec emax false q 0 l = S754_infinity false.
Proof.
  intros Hq. rewrite binary_round_aux_finish.
  assert (0 < q) as Hpos.
  { pose proof (Z.pow_pos_nonneg 2 1024). lia. }
  pose proof (Zdigits2_bounds q Hpos) as Hb.
  assert (1025 ≤ Zdigits2 q) as Hd.
  { destruct (Z_le_dec 1025 (Zdigits2 q)); [done|].
    assert (2 ^ Zdigits2 q ≤ 2 ^ 1024) by (apply Z.pow_le_mono_r; lia).
    lia. }
  set (n := Zdigits2 q - 53).
  assert (shr_fexp prec emax q 0 l = shr (shr_record_of_loc q l) 0 n) as ->.
  { unfold shr_fexp. f_equal. unfold fexp, emin, prec, emax, n. lia. }
  unfold shr. destruct n as [|pn|pn] eqn:En; try lia.
  assert (∃ r0 s0, shr_record_of_loc q l = Build_shr_record q r0 s0)
    as (r0 & s0 & ->) by (destruct l as [|[]]; cbn; eauto).
  destruct (iter_shr_1 pn q r0 s0) as (r1 & s1 & ->); [lia|].
  cbn [shr_m]. rewrite <- En.
  assert (2 ^ 52 ≤ q / 2 ^ n < 2 ^ 53) as Hm1.
  { assert (0 < 2 ^ n) by (apply Z.pow_pos_nonneg; lia).
    assert (2 ^ (Zdigits2 q - 1) = 2 ^ 52 * 2 ^ n) as E1.
    { rewrite <- Z.pow_add_r by lia. f_equal. lia. }
    assert (2 ^ Zdigits2 q = 2 ^ 53 * 2 ^ n) as E2.
    { rewrite <- Z.pow_add_r by lia. f_equal. lia. }
    split.
    - apply Z.div_le_lower_bound; lia.
    - apply Z.div_lt_upper_bound; lia. }
  pose proof (round_nearest_even_range (q / 2 ^ n)
                (loc_of_shr_record (Build_shr_record (q / 2 ^ n) r1 s1))).
  apply round_finish_infinity; lia.
Qed.

Lemma int_truediv_3_overflows x :
  3 * 2 ^ 1024 ≤ x →
  int_truediv x 3
  = Raise (Exn OverflowError "integer division result too large for a float").
Proof.
  intros Hx.
  assert (0 < 2 ^ 1024) as Hp by (apply Z.pow_pos_nonneg; lia).
  assert (0 < x) as Hpos by lia.
  pose proof (Zdigits2_bounds x Hpos) as Hb.
  assert (1025 ≤ Zdigits2 x) as Hd.
  { destruct (Z_le_dec 1025 (Zdigits2 x)); [done|].
    assert (2 ^ Zdigits2 x ≤ 2 ^ 1024) by (apply Z.pow_le_mono_r; lia).
    lia. }
  unfold int_truediv. destruct x as [|px|px]; try lia.
  cbn [Z.eqb exact_int SFdiv xorb].
  rewrite SFdiv_core_3_gen by done.
  replace (Z.max (55 - Zdigits2 (Z.pos px)) 0) with 0 by lia.
  rewrite Z.pow_0_r, Z.mul_1_r. change (- 0) with 0.
  rewrite round_overflows; [done|].
  apply Z.div_le_lower_bound; lia.
Qed.

(** X2.  Beyond the range of doubles the estimator fails: for metadata with
    [3 * 2^1023] interaction gates or more the true division raises
    [OverflowError], after the first clock read and before any synthetic
    work. *)
Theorem estimate_overflows now meta cm w :
  3 * 2 ^ 1023 ≤ num_cx meta →
  estimate_sabre_performance now meta cm w
  = (Raise (Exn OverflowError
              "integer division result too large for a float"),
     tick_clock 1 w).
Proof.
  intros Hc. unfold estimate_sabre_performance, mbind, M_bind.
  cbn [time_time lift]. rewrite int_truediv_3_overflows.
  - by destruct w.
  - change (2 ^ 1024) with (2 ^ 1023 * 2). lia.
Qed.

End EstimatorEdges.

Section EstimatorOrder.
Import BvLarge.

(** X3.  On counts up to [3 * 2^51] the estimate is monotone: metadata with
    more interaction gates never gets fewer swaps, and with a base depth
    that is not smaller, never a smaller estimated depth. *)
Theorem estimate_monotone now meta1 meta2 cm w1 w2 :
  0 ≤ num_cx meta1 ≤ num_cx meta2 →
  num_cx meta2 ≤ 3 * 2 ^ 51 →
  ∃ s1 d1 t1 w1' s2 d2 t2 w2',
    estimate_sabre_performance now meta1 cm w1 = (Ok (s1, d1, t1), w1') ∧
    estimate_sabre_performance now meta2 cm w2 = (Ok (s2, d2, t2), w2') ∧
    s1 ≤ s2 ∧
    (depth meta1 ≤ depth meta2 → d1 ≤ d2).
Proof.
  intros Hc1 Hc2.
  destruct (int_truediv_3_trunc (num_cx meta1 * 2)) as (f1 & Hf1 & Hz1);
    [lia|].
  destruct (int_truediv_3_trunc (num_cx meta2 * 2)) as (f2 & Hf2 & Hz2);
    [lia|].
  assert (num_cx meta1 * 2 / 3 ≤ num_cx meta2 * 2 / 3) as Hle
    by (apply Z.div_le_mono; lia).
  eexists _, _, _, _, _, _, _, _.
  split; [exact (estimate_eval now meta1 cm w1 f1 _ Hf1 Hz1)|].
  split; [exact (estimate_eval now meta2 cm w2 f2 _ Hf2 Hz2)|].
  split; [exact Hle|]. intros Hd. lia.
Qed.

End EstimatorOrder.

(** ** bv_19998.py: the generated hidden string *)

Section HiddenStringFacts.
Import BvLarge.

Lemma get_string_of_list_ascii l (k : nat) :
  String.get k (string_of_list_ascii l) = l !! k.
Proof.
  revert k. induction l as [|c l IH]; intros [|k]; cbn; try done.
Qed.

(** The position loop, as one pass of overwriting. *)
Lemma setitems_fold ps : ∀ (l : list ascii) w,
  Forall (λ p, 0 ≤ p < Z.of_nat (length l)) ps →
  for_each ps (λ hs pos, lift (list_setitem hs pos "1"%char)) l w
  = (Ok (fold_left (λ hs pos, <[Z.to_nat pos := "1"%char]> hs) ps l), w).
Proof.
  induction ps as [|p ps IH]; intros l w Hrange; [done|].
  apply Forall_cons in Hrange as [Hp Hrange].
  cbn [for_each fold_left]. unfold mbind, M_bind, lift at 1, list_setitem.
  replace ((0 <=? p) && (p <? Z.of_nat (length l))) with true
    by (symmetry; apply andb_true_iff; lia).
  apply IH. by rewrite length_insert.
Qed.

Lemma length_fold_insert ps : ∀ l : list ascii,
  length (fold_left (λ hs pos, <[Z.to_nat pos := "1"%char]> hs) ps l)
  = length l.
Proof.
  induction ps as [|p ps IH]; intros l; cbn [fold_left]; [done|].
  by rewrite IH, length_insert.
Qed.

Lemma lookup_fold_insert ps : ∀ (l : list ascii) (i : Z),
  Forall (λ p, 0 ≤ p) ps → 0 ≤ i < Z.of_nat (length l) →
  fold_left (λ hs pos, <[Z.to_nat pos := "1"%char]> hs) ps l !! Z.to_nat i
  = if bool_decide (i ∈ ps) then Some "1"%char else l !! Z.to_nat i.
Proof.
  induction ps as [|p ps IH]; intros l i Hpos Hi; cbn [fold_left].
  - rewrite bool_decide_eq_false_2; [done|]. apply not_elem_of_nil.
  - apply Forall_cons in Hpos as [Hp Hpos].
    rewrite IH by (rewrite ?length_insert; done).
    destruct (decide (i ∈ ps)) as [Hin|Hnin].
    + rewrite !bool_decide_eq_true_2; [done|by right|done].
    + rewrite (bool_decide_eq_false_2 (i ∈ ps)) by done.
      destruct (decide (i = p)) as [->|Hne].
      * rewrite bool_decide_eq_true_2 by left.
        apply list_lookup_insert_eq. lia.
      * rewrite bool_decide_eq_false_2.
        -- apply list_lookup_insert_ne. lia.
        -- intros [->|Hin]%elem_of_cons; done.
Qed.

(** X4.  Without a supplied hidden string, and for positions drawn from
    [range(n)], the generated hidden string has length [n] and holds ['1']
    exactly at the drawn positions and ['0'] everywhere else; one call into
    the random generator is made. *)
Theorem generated_hidden_string_shape rand_sample n w :
  0 ≤ n →
  Forall (λ p, 0 ≤ p < n) (rand_sample (rng_draws w) n (n / 10)) →
  ∃ meta,
    create_large_bv_circuit rand_sample n None w = (Ok meta, tick_rng 1 w) ∧
    String.length (hidden_string meta) = Z.to_nat n ∧
    ∀ i, 0 ≤ i < n →
      String.get (Z.to_nat i) (hidden_string meta)
      = Some (if bool_decide (i ∈ rand_sample (rng_draws w) n (n / 10))
              then "1" else "0")%char.
Proof.
  intros Hn Hrange.
  assert (0 ≤ n / 10 ≤ n) as Hk.
  { split; [apply Z.div_pos; lia|].
    destruct (Z.eq_dec n 0) as [->|]; [done|].
    apply Z.div_le_upper_bound; lia. }
  unfold create_large_bv_circuit, mbind, M_bind.
  unfold random_sample_range at 1.
  replace ((n / 10 <? 0) || (Z.max n 0 <? n / 10)) with false
    by (symmetry; apply orb_false_iff; lia).
  change (World (clock_reads w) (S (rng_draws w)) (pm_calls w)
            (matmuls w) (stdout w) (files w)) with (tick_rng 1 w).
  rewrite setitems_fold.
  2:{ rewrite length_replicate, Z2Nat.id by lia. done. }
  cbn [mret M_ret]. eexists. split; [reflexivity|]. cbn [hidden_string].
  split.
  - rewrite length_string_of_list_ascii, length_fold_insert.
    apply length_replicate.
  - intros i Hi. rewrite get_string_of_list_ascii, lookup_fold_insert.
    + destruct (bool_decide _); [done|].
      apply lookup_replicate_2. lia.
    + eapply Forall_impl; [exact Hrange|]. cbn. lia.
    + rewrite length_replicate. lia.
Qed.

(** X5.  Without a supplied hidden string a negative qubit count is
    refused: [random.sample] is asked for a negative number of positions and
    raises [ValueError]; the generator is not advanced. *)
Theorem create_large_bv_circuit_negative rand_sample n w :
  n < 0 →
  create_large_bv_circuit rand_sample n None w
  = (Raise (Exn ValueError "Sample larger than population or is negative"),
     w).
Proof.
  intros Hn. unfold create_large_bv_circuit, mbind, M_bind.
  unfold random_sample_range at 1.
  assert (n / 10 < 0) as Hk by (apply Z.div_lt_upper_bound; lia).
  replace (n / 10 <? 0) with true by (symmetry; apply Z.ltb_lt; lia).
  done.
Qed.

End HiddenStringFacts.

(** ** bv_19998.py: the measured circuits *)

Section SmallCircuitFacts.
Import BvLarge BvLargeRun.

(** The oracle loop over [enumerate(hidden_string)], for control indices
    below the ancilla. *)
Lemma small_cx_loop n xs : ∀ qc w,
  circ_qubits qc = n + 1 →
  Forall (λ p : Z * ascii, 0 ≤ p.1 < n) xs →
  for_each xs
    (λ qc '(i, bit),
       if Ascii.eqb bit "1" then checked_cx qc i n else mret qc) qc w
  = (Ok (Circuit (n + 1) (circ_clbits qc)
           (data qc ++
            ((λ p : Z * ascii, Instr "cx" [p.1; n] []) <$>
               List.filter (λ p : Z * ascii, Ascii.eqb p.2 "1") xs))), w).
Proof.
  induction xs as [|[i bit] xs IH]; intros qc w Hq Hxs.
  - cbn [for_each List.filter fmap list_fmap mret M_ret].
    rewrite app_nil_r, <- Hq. by destruct qc.
  - apply Forall_cons in Hxs as [Hi Hxs]. cbn in Hi.
    cbn [for_each List.filter snd]. unfold mbind at 1, M_bind at 1.
    destruct (Ascii.eqb bit "1").
    + unfold checked_cx. rewrite Hq.
      replace ((i <? n + 1) && (n <? n + 1)) with true
        by (symmetry; apply andb_true_iff; lia).
      replace (i =? n) with false by (symmetry; apply Z.eqb_neq; lia).
      cbn [mret M_ret]. rewrite IH by done.
      unfold append_gate. cbn [circ_qubits circ_clbits data fmap list_fmap].
      by rewrite <- app_assoc.
    + cbn [mret M_ret]. by rewrite IH.
Qed.

Lemma length_list_ascii_of_string s :
  length (list_ascii_of_string s) = String.length s.
Proof. induction s as [|c s IH]; cbn; [done|]. by rewrite IH. Qed.

Lemma enumerate_range s :
  Forall (λ p : Z * ascii, 0 ≤ p.1 < Z.of_nat (String.length s))
         (enumerate s).
Proof.
  rewrite Forall_forall. intros p Hp. unfold enumerate in Hp.
  apply elem_of_lookup_imap in Hp as (i & c & -> & Hi).
  apply lookup_lt_Some in Hi. rewrite length_list_ascii_of_string in Hi.
  cbn. lia.
Qed.

Lemma count_imap_ones l : ∀ g : nat → ascii → Z * ascii,
  (∀ i c, (g i c).2 = c) →
  length (List.filter (λ p : Z * ascii, Ascii.eqb p.2 "1") (imap g l))
  = length (List.filter (λ c, Ascii.eqb c "1") l).
Proof.
  induction l as [|c l IH]; intros g Hg; [done|].
  cbn [imap List.filter]. rewrite Hg.
  specialize (IH (g ∘ S) (λ i c, Hg (S i) c)).
  destruct (Ascii.eqb c "1"); cbn [length]; by rewrite IH.
Qed.

Lemma str_count_filter s :
  str_count "1" s
  = Z.of_nat (length (List.filter (λ c, Ascii.eqb c "1")
                                  (list_ascii_of_string s))).
Proof.
  induction s as [|c s IH]; [done|].
  cbn [str_count list_ascii_of_string List.filter]. rewrite IH.
  destruct (Ascii.eqb c "1"); cbn [length]; lia.
Qed.

Lemma enumerate_ones s :
  Z.of_nat (length (List.filter (λ p : Z * ascii, Ascii.eqb p.2 "1")
                                (enumerate s)))
  = str_count "1" s.
Proof. unfold enumerate. by rewrite count_imap_ones, str_count_filter. Qed.

(** The circuit built for a given hidden string. *)
Lemma create_small_test_circuit_eval rand_bit n s w :
  0 ≤ n → Z.of_nat (String.length s) ≤ n →
  create_small_test_circuit rand_bit n (Some s) w
  = (Ok (Circuit (n + 1) n
           ((((λ i, Instr "h" [i] []) <$> py_range (n + 1)) ++
             ((λ p : Z * ascii, Instr "cx" [p.1; n] []) <$>
                List.filter (λ p : Z * ascii, Ascii.eqb p.2 "1")
                            (enumerate s))) ++
            ((λ i, Instr "h" [i] []) <$> py_range n) ++
            ((λ i, Instr "measure" [i] [i]) <$> py_range n))), w).
Proof.
  intros Hn Hlen. unfold create_small_test_circuit.
  unfold mbind at 1, M_bind at 1. cbn [mret M_ret].
  unfold mbind at 1, M_bind at 1. unfold new_circuit.
  replace ((n + 1 <? 0) || (n <? 0)) with false
    by (symmetry; apply orb_false_iff; lia).
  cbn [mret M_ret]. unfold mbind at 1, M_bind at 1.
  rewrite (gates_fold "h" (λ i, [i]) (λ _, [])).
  rewrite small_cx_loop.
  - cbn [mret M_ret circ_qubits circ_clbits data app].
    rewrite (gates_fold "h" (λ i, [i]) (λ _, [])).
    rewrite (gates_fold "measure" (λ i, [i]) (λ i, [i])).
    cbn [circ_qubits circ_clbits data]. by rewrite <- !app_assoc.
  - done.
  - eapply Forall_impl; [apply enumerate_range|]. cbn. lia.
Qed.

(** The operation counts of that circuit. *)
Lemma small_circuit_counts n s qc :
  0 ≤ n →
  qc = Circuit (n + 1) n
         ((((λ i, Instr "h" [i] []) <$> py_range (n + 1)) ++
           ((λ p : Z * ascii, Instr "cx" [p.1; n] []) <$>
              List.filter (λ p : Z * ascii, Ascii.eqb p.2 "1")
                          (enumerate s))) ++
          ((λ i, Instr "h" [i] []) <$> py_range n) ++
          ((λ i, Instr "measure" [i] [i]) <$> py_range n)) →
  count_ops "cx" qc = str_count "1" s ∧
  count_ops "h" qc = 2 * n + 1 ∧
  count_ops "measure" qc = n ∧
  count_swaps qc = 0 ∧
  Z.of_nat (length (data qc)) = 3 * n + 1 + str_count "1" s.
Proof.
  intros Hn ->.
  assert (∀ k, 0 ≤ k → Z.of_nat (length (py_range k)) = k) as Hr.
  { intros k Hk. rewrite length_py_range. lia. }
  pose proof (enumerate_ones s) as Hones.
  rewrite count_swaps_count_ops. cbn [data]. rewrite !count_ops_app.
  repeat split.
  - rewrite (count_ops_other "cx" "h"), (count_ops_same "cx"),
      (count_ops_other "cx" "h"), (count_ops_other "cx" "measure");
      try done. lia.
  - rewrite (count_ops_same "h"), (count_ops_other "h" "cx"),
      (count_ops_same "h"), (count_ops_other "h" "measure"); try done.
    rewrite !Hr by lia. lia.
  - rewrite (count_ops_other "measure" "h"), (count_ops_other "measure" "cx"),
      (count_ops_other "measure" "h"), (count_ops_same "measure"); try done.
    rewrite Hr by lia. lia.
  - rewrite (count_ops_other "swap" "h"), (count_ops_other "swap" "cx"),
      (count_ops_other "swap" "h"), (count_ops_other "swap" "measure");
      done.
  - rewrite !length_app, !length_fmap, !length_py_range. lia.
Qed.

(** X6.  For a hidden string no longer than the qubit count, the circuit
    that [create_small_test_circuit] builds and the metadata that
    [create_large_bv_circuit] computes agree: the circuit has [num_cx]
    controlled gates and [2n + 1] Hadamard gates, together [total_gates],
    followed by [n] measurements, and no swap; neither function consults the
    random generator. *)
Theorem small_circuit_matches_metadata rand_bit rand_sample n s w :
  0 ≤ n → Z.of_nat (String.length s) ≤ n →
  ∃ qc meta,
    create_small_test_circuit rand_bit n (Some s) w = (Ok qc, w) ∧
    create_large_bv_circuit rand_sample n (Some s) w = (Ok meta, w) ∧
    count_ops "cx" qc = num_cx meta ∧
    count_ops "h" qc = 2 * n + 1 ∧
    count_ops "cx" qc + count_ops "h" qc = total_gates meta ∧
    count_ops "measure" qc = n ∧
    Z.of_nat (length (data qc)) = total_gates meta + n ∧
    count_swaps qc = 0.
Proof.
  intros Hn Hlen. eexists _, _.
  split; [by apply create_small_test_circuit_eval|].
  split; [reflexivity|]. cbn [num_cx total_gates].
  destruct (small_circuit_counts n s _ Hn eq_refl)
    as (Hcx & Hh & Hm & Hsw & Hsize).
  rewrite Hcx, Hh, Hm, Hsw, Hsize. repeat split; lia.
Qed.

End SmallCircuitFacts.

(** ** bv_19998.py: the benchmark driver *)

Section LargeBenchFacts.
Import BvLarge BvLargeRun.
Context (now : nat → float) (rand_sample : nat → Z → Z → list Z)
        (rand_bit : nat → bool)
        (pm_run : nat → coupling_map → circuit → res circuit)
        (circuit_depth : circuit → Z).

(** A small circuit with a generated hidden string is always built, after
    [n] calls into the random generator. *)
Lemma create_small_test_circuit_returns n w :
  0 ≤ n →
  ∃ qc, create_small_test_circuit rand_bit n None w
        = (Ok qc, tick_rng (Z.to_nat n) w).
Proof.
  intros Hn.
  destruct (random_string_loop rand_bit (py_range n) [] w)
    as (chars & Hrun & Hlen).
  rewrite length_py_range in Hrun, Hlen. cbn in Hlen.
  pose proof (create_small_test_circuit_eval rand_bit n
                (string_of_list_ascii chars) (tick_rng (Z.to_nat n) w) Hn)
    as Hqc.
  rewrite length_string_of_list_ascii, Hlen in Hqc.
  specialize (Hqc ltac:(lia)).
  eexists. rewrite <- Hqc. unfold create_small_test_circuit.
  unfold mbind at 1, M_bind at 1. unfold mbind at 1, M_bind at 1.
  rewrite Hrun. cbn [mret M_ret].
  unfold mbind at 3, M_bind at 3. reflexivity.
Qed.

Lemma actual_sabre_transpile_raises qc cm w e :
  pm_run (pm_calls w) cm qc = Raise e →
  actual_sabre_transpile now pm_run circuit_depth qc cm w
  = (Raise e, tick_pm 1 (tick_clock 1 w)).
Proof.
  intros Hrun. unfold actual_sabre_transpile, mbind, M_bind.
  cbn [time_time pass_manager_run pm_calls]. rewrite Hrun. by destruct w.
Qed.

Lemma actual_sabre_transpile_returns qc cm w tqc :
  pm_run (pm_calls w) cm qc = Ok tqc →
  actual_sabre_transpile now pm_run circuit_depth qc cm w
  = (Ok (count_swaps tqc, circuit_depth tqc,
         fsub (now (S (clock_reads w))) (now (clock_reads w))),
     tick_pm 1 (tick_clock 2 w)).
Proof.
  intros Hrun. unfold actual_sabre_transpile, mbind, M_bind.
  cbn [time_time pass_manager_run pm_calls]. rewrite Hrun. by destruct w.
Qed.

(** One small size: what the loop body does with the optimizer's answer. *)
Lemma measure_small_outcome results n w :
  0 ≤ n →
  ∃ qc w',
    match pm_run (pm_calls w) small_coupling_map qc with
    | Raise e =>
        measure_small now rand_bit pm_run circuit_depth results n w
        = (Raise e, w')
    | Ok tqc =>
        ∃ t,
          measure_small now rand_bit pm_run circuit_depth results n w
          = (Ok (results ++
                 [Measured n (count_swaps tqc) t (circuit_depth qc)
                           (circuit_depth tqc)]), w')
    end ∧
    pm_calls w' = S (pm_calls w) ∧ rng_draws w' = (Z.to_nat n + rng_draws w)%nat ∧
    matmuls w' = matmuls w ∧ files w' = files w.
Proof.
  intros Hn.
  destruct (measure_small now rand_bit pm_run circuit_depth results n w)
    as [r w'] eqn:Hm.
  unfold measure_small, mbind at 1, M_bind at 1 in Hm.
  rewrite print_eval in Hm. unfold mbind at 1, M_bind at 1 in Hm.
  match type of Hm with
  | context [create_small_test_circuit _ _ _ ?w0] =>
      destruct (create_small_test_circuit_returns n w0 Hn) as (qc & Hqc)
  end.
  rewrite Hqc in Hm. unfold mbind at 1, M_bind at 1 in Hm.
  exists qc, w'.
  destruct (pm_run (pm_calls w) small_coupling_map qc) as [tqc|e] eqn:Hrun.
  - erewrite actual_sabre_transpile_returns in Hm by exact Hrun.
    unfold mbind, M_bind in Hm. rewrite !print_eval in Hm.
    cbn [mret M_ret] in Hm. injection Hm as <- <-.
    split; [by eexists|]. by repeat split.
  - erewrite actual_sabre_transpile_raises in Hm by exact Hrun.
    injection Hm as <- <-. by repeat split.
Qed.

(** X7.  The loop over the small sizes has no handler: when the optimizer
    fails on the first small circuit, [benchmark_large_bv] raises that
    exception; no row is returned and no large circuit is estimated. *)
Theorem benchmark_large_aborts_on_error n small large w e :
  0 ≤ n →
  (∀ qc, pm_run (pm_calls w) small_coupling_map qc = Raise e) →
  ∃ w',
    benchmark_large_sweep now rand_sample rand_bit pm_run circuit_depth
      (n :: small) large w
    = (Raise e, w') ∧
    pm_calls w' = S (pm_calls w) ∧
    matmuls w' = matmuls w ∧
    files w' = files w.
Proof.
  intros Hn Hfail. unfold benchmark_large_sweep.
  unfold mbind at 1, M_bind at 1. rewrite print_eval.
  unfold mbind at 1, M_bind at 1. cbn [for_each].
  unfold mbind at 1, M_bind at 1.
  match goal with
  | |- context [measure_small _ _ _ _ [] n ?w0] =>
      destruct (measure_small_outcome [] n w0 Hn)
        as (qc & w' & Hout & Hpm & _ & Hmm & Hfiles)
  end.
  cbn [pm_calls add_stdout] in Hout. rewrite Hfail in Hout.
  rewrite Hout. exists w'. by repeat split.
Qed.

(** One large size: the row follows from the size alone. *)
Lemma estimate_large_eval results n w :
  1 ≤ n ≤ 2 ^ 54 →
  sample_contract n (n / 10) (rand_sample (rng_draws w) n (n / 10)) →
  ∃ t w',
    estimate_large now rand_sample results n w
    = (Ok (results ++
           [Estimated n (n / 10 * 2 / 3) t (2 + n / 10)
                      (2 + n / 10 + 3 * (n / 10 * 2 / 3))]), w') ∧
    pm_calls w' = pm_calls w ∧ files w' = files w.
Proof.
  intros Hn (Hnd & Hlen & Hrange).
  destruct (estimate_large now rand_sample results n w) as [r w'] eqn:Hm.
  unfold estimate_large, mbind at 1, M_bind at 1 in Hm.
  rewrite print_eval in Hm. unfold mbind at 1, M_bind at 1 in Hm.
  match type of Hm with
  | context [create_large_bv_circuit _ _ _ ?w0] =>
      destruct (create_large_bv_circuit_eval rand_sample n w0)
        as (hs & Hmeta); [lia|done|done|done|]
  end.
  rewrite Hmeta in Hm. unfold mbind at 1, M_bind at 1 in Hm.
  pose proof (Z.mul_div_le n 10 ltac:(lia)) as Hdiv.
  assert (0 ≤ n / 10) as Hk by (apply Z.div_pos; lia).
  destruct (int_truediv_3_trunc (n / 10 * 2)) as (f & Hf & Hz); [lia|].
  erewrite estimate_eval in Hm; [|exact Hf|exact Hz].
  unfold mbind, M_bind in Hm. rewrite !print_eval in Hm.
  cbn [mret M_ret depth] in Hm. injection Hm as <- <-.
  eexists _, _. split; [by rewrite (Z.mul_comm 3)|by split].
Qed.

Lemma measure_loop small : ∀ results w,
  Forall (λ n, 0 ≤ n) small →
  (∀ k qc, ∃ tqc, pm_run k small_coupling_map qc = Ok tqc) →
  ∃ measured w',
    for_each small (measure_small now rand_bit pm_run circuit_depth)
      results w
    = (Ok (results ++ measured), w') ∧
    Forall2 (λ n r, ∃ s t d0 d, r = Measured n s t d0 d ∧ 0 ≤ s)
            small measured ∧
    pm_calls w' = (length small + pm_calls w)%nat ∧
    matmuls w' = matmuls w ∧ files w' = files w.
Proof.
  induction small as [|n small IH]; intros results w Hsmall Hpm.
  - exists [], w. rewrite app_nil_r. by repeat split.
  - apply Forall_cons in Hsmall as [Hn Hsmall].
    destruct (measure_small_outcome results n w Hn)
      as (qc & w1 & Hout & Hpm1 & _ & Hmm1 & Hfiles1).
    destruct (Hpm (pm_calls w) qc) as (tqc & Hrun). rewrite Hrun in Hout.
    destruct Hout as (t & Hone).
    destruct (IH (results ++
                  [Measured n (count_swaps tqc) t (circuit_depth qc)
                            (circuit_depth tqc)]) w1 Hsmall Hpm)
      as (measured & w' & Hloop & Hrows & Hpm' & Hmm' & Hfiles').
    eexists (_ :: measured), w'. cbn [for_each].
    unfold mbind, M_bind. rewrite Hone, Hloop, <- app_assoc.
    split; [done|]. split; [|split; [|split]].
    + constructor; [|done]. eexists _, _, _, _. split; [done|].
      apply count_swaps_bounds.
    + rewrite Hpm', Hpm1. cbn [length]. lia.
    + congruence.
    + congruence.
Qed.

Lemma estimate_loop large : ∀ results w,
  Forall (λ n, 1 ≤ n ≤ 2 ^ 54) large →
  (∀ k n, 1 ≤ n → sample_contract n (n / 10) (rand_sample k n (n / 10))) →
  ∃ estimated w',
    for_each large (estimate_large now rand_sample) results w
    = (Ok (results ++ estimated), w') ∧
    Forall2 (λ n r, ∃ t, r = Estimated n (n / 10 * 2 / 3) t (2 + n / 10)
                               (2 + n / 10 + 3 * (n / 10 * 2 / 3)))
            large estimated ∧
    pm_calls w' = pm_calls w ∧ files w' = files w.
Proof.
  induction large as [|n large IH]; intros results w Hlarge Hsample.
  - exists [], w. rewrite app_nil_r. by repeat split.
  - apply Forall_cons in Hlarge as [Hn Hlarge].
    destruct (estimate_large_eval results n w Hn)
      as (t & w1 & Hone & Hpm1 & Hfiles1); [apply Hsample; lia|].
    match type of Hone with
    | _ = (Ok ?results1, _) =>
        destruct (IH results1 w1 Hlarge Hsample)
          as (estimated & w' & Hloop & Hrows & Hpm' & Hfiles')
    end.
    eexists (_ :: estimated), w'. cbn [for_each].
    unfold mbind, M_bind. rewrite Hone, Hloop, <- app_assoc.
    split; [done|]. split; [|split; congruence].
    constructor; [|done]. by eexists.
Qed.

(** X8.  When the optimizer returns on every small circuit and
    [random.sample] keeps its contract, [benchmark_large_bv] returns one row
    per size, the measured ones first: a measured row carries its size and a
    swap count that is not negative; an estimated row for size [n] carries
    [(n // 10) * 2 // 3] swaps, depth [2 + n // 10] and estimated depth
    [2 + n // 10 + 3 * swaps].  The optimizer is called once per small size
    and no file is written. *)
Theorem benchmark_large_sweep_rows small large w :
  Forall (λ n, 0 ≤ n) small →
  Forall (λ n, 1 ≤ n ≤ 2 ^ 54) large →
  (∀ k qc, ∃ tqc, pm_run k small_coupling_map qc = Ok tqc) →
  (∀ k n, 1 ≤ n → sample_contract n (n / 10) (rand_sample k n (n / 10))) →
  ∃ measured estimated w',
    benchmark_large_sweep now rand_sample rand_bit pm_run circuit_depth
      small large w
    = (Ok (measured ++ estimated), w') ∧
    Forall2 (λ n r, ∃ s t d0 d, r = Measured n s t d0 d ∧ 0 ≤ s)
            small measured ∧
    Forall2 (λ n r, ∃ t, r = Estimated n (n / 10 * 2 / 3) t (2 + n / 10)
                               (2 + n / 10 + 3 * (n / 10 * 2 / 3)))
            large estimated ∧
    pm_calls w' = (length small + pm_calls w)%nat ∧
    files w' = files w.
Proof.
  intros Hsmall Hlarge Hpm Hsample. unfold benchmark_large_sweep.
  unfold mbind at 1, M_bind at 1. rewrite print_eval.
  unfold mbind at 1, M_bind at 1.
  match goal with
  | |- context [for_each small _ [] ?w0] =>
      destruct (measure_loop small [] w0 Hsmall Hpm)
        as (measured & w1 & Hloop1 & Hrows1 & Hpm1 & _ & Hfiles1)
  end.
  rewrite Hloop1. cbn [app].
  unfold mbind at 1, M_bind at 1. rewrite print_eval.
  unfold mbind at 1, M_bind at 1.
  match goal with
  | |- context [for_each large _ measured ?w0] =>
      destruct (estimate_loop large measured w0 Hlarge Hsample)
        as (estimated & w' & Hloop2 & Hrows2 & Hpm2 & Hfiles2)
  end.
  rewrite Hloop2. cbn [mret M_ret].
  exists measured, estimated, w'. split; [done|]. split; [done|].
  split; [done|]. split.
  - rewrite Hpm2. cbn [pm_calls add_stdout]. exact Hpm1.
  - rewrite Hfiles2. cbn [files add_stdout]. exact Hfiles1.
Qed.

End LargeBenchFacts.

(** ** bv_algo.py: the circuit for a hidden string *)

Section BvCircuitFacts.
Import BvAlgo.
Context (rand_bit : nat → bool).

Lemma str_getitem_get s i c :
  0 ≤ i → String.get (Z.to_nat i) s = Some c → str_getitem s i = Ok c.
Proof.
  intros Hi Hc. unfold str_getitem.
  replace (0 <=? i) with true by (symmetry; apply Z.leb_le; lia).
  by rewrite Hc.
Qed.

Lemma get_in_range s (k : nat) :
  (k < String.length s)%nat → ∃ c, String.get k s = Some c.
Proof.
  revert k. induction s as [|a s IH]; intros [|k] Hk; cbn in *; try lia.
  - by eexists.
  - apply IH. lia.
Qed.

Lemma get_out_of_range s (k : nat) :
  (String.length s ≤ k)%nat → String.get k s = None.
Proof.
  revert k. induction s as [|a s IH]; intros [|k] Hk; cbn in *; try done;
    try lia.
  apply IH. lia.
Qed.

(** The oracle loop over [range(n)], for indices of the hidden string. *)
Lemma bv_cx_loop s n xs : ∀ qc w,
  Forall (λ i, 0 ≤ i < Z.of_nat (String.length s)) xs →
  for_each xs
    (λ qc i,
       bit ← lift (str_getitem s i);
       mret (if Ascii.eqb bit "1"
             then append_gate qc "cx" [i; n] [] else qc))
    qc w
  = (Ok (Circuit (circ_qubits qc) (circ_clbits qc)
           (data qc ++
            ((λ i, Instr "cx" [i; n] []) <$>
               List.filter (has_one_at s) xs))), w).
Proof.
  induction xs as [|i xs IH]; intros qc w Hxs.
  - cbn [for_each List.filter fmap list_fmap mret M_ret].
    rewrite app_nil_r. by destruct qc.
  - apply Forall_cons in Hxs as [Hi Hxs].
    destruct (get_in_range s (Z.to_nat i)) as (c & Hc); [lia|].
    cbn [for_each List.filter]. unfold mbind at 1, M_bind at 1.
    unfold mbind at 1, M_bind at 1, lift at 1.
    rewrite (str_getitem_get s i c) by (done || lia).
    cbn [mret M_ret]. rewrite IH by done.
    unfold has_one_at at 2. rewrite Hc.
    destruct (Ascii.eqb c "1"); [|done].
    unfold append_gate. cbn [circ_qubits circ_clbits data fmap list_fmap].
    by rewrite <- app_assoc.
Qed.

Lemma length_filter_fmap {A B} (P : B → bool) (f : A → B) (l : list A) :
  length (List.filter P (f <$> l)) = length (List.filter (λ x, P (f x)) l).
Proof.
  induction l as [|x l IH]; [done|]. cbn [fmap list_fmap List.filter].
  destruct (P (f x)); cbn [length]; by rewrite <- IH.
Qed.

Lemma length_filter_ext {A} (P Q : A → bool) (l : list A) :
  (∀ x, P x = Q x) →
  length (List.filter P l) = length (List.filter Q l).
Proof.
  intros HPQ. induction l as [|x l IH]; [done|]. cbn [List.filter].
  rewrite HPQ. destruct (Q x); cbn [length]; by rewrite IH.
Qed.

(** The controlled gates are as many as the ones among the first [n]
    characters. *)
Lemma ones_in_range s : ∀ k : nat,
  (k ≤ String.length s)%nat →
  Z.of_nat (length (List.filter (has_one_at s) (Z.of_nat <$> seq 0 k)))
  = str_count "1" (String.substring 0 k s).
Proof.
  induction s as [|c s IH]; intros [|k] Hk; cbn in Hk; try lia; try done.
  cbn [seq]. rewrite <- seq_shift, fmap_cons.
  cbn [List.filter String.substring str_count].
  assert (length (List.filter (has_one_at (String c s))
                    (Z.of_nat <$> List.map S (seq 0 k)))
          = length (List.filter (has_one_at s) (Z.of_nat <$> seq 0 k)))
    as Htail.
  { change (List.map S (seq 0 k)) with (S <$> seq 0 k).
    rewrite <- list_fmap_compose, !length_filter_fmap.
    apply length_filter_ext. intros x. unfold has_one_at, compose.
    rewrite !Nat2Z.id. done. }
  rewrite <- (IH k) by lia.
  change (has_one_at (String c s) (Z.of_nat 0)) with (Ascii.eqb c "1").
  destruct (Ascii.eqb c "1"); cbn [length]; rewrite Htail; lia.
Qed.

Lemma substring_full s : String.substring 0 (String.length s) s = s.
Proof. induction s as [|c s IH]; cbn; [done|]. by rewrite IH. Qed.

(** The circuit built for a supplied hidden string of at least [n]
    characters. *)
Lemma create_bv_circuit_eval n s w :
  0 ≤ n ≤ Z.of_nat (String.length s) →
  create_bv_circuit rand_bit n (Some s) w
  = (Ok (Circuit (n + 1) n
           (((([Instr "x" [n] []] ++
               ((λ i, Instr "h" [i] []) <$> py_range (n + 1))) ++
              ((λ i, Instr "cx" [i; n] []) <$>
                 List.filter (has_one_at s) (py_range n))) ++
             ((λ i, Instr "h" [i] []) <$> py_range n)) ++
            ((λ i, Instr "measure" [i] [i]) <$> py_range n)), s), w).
Proof.
  intros Hn. unfold create_bv_circuit.
  unfold mbind at 1, M_bind at 1. cbn [mret M_ret].
  unfold mbind at 1, M_bind at 1. unfold new_circuit.
  replace ((n + 1 <? 0) || (n <? 0)) with false
    by (symmetry; apply orb_false_iff; lia).
  cbn [mret M_ret]. unfold mbind at 1, M_bind at 1.
  rewrite (gates_fold "h" (λ i, [i]) (λ _, [])).
  rewrite bv_cx_loop.
  - cbn [mret M_ret circ_qubits circ_clbits data append_gate].
    rewrite (gates_fold "h" (λ i, [i]) (λ _, [])).
    rewrite (gates_fold "measure" (λ i, [i]) (λ i, [i])).
    cbn [circ_qubits circ_clbits data app]. reflexivity.
  - eapply Forall_impl; [apply py_range_bounds|]. cbn. lia.
Qed.

(** The operation counts of that circuit. *)
Lemma bv_circuit_counts n s qc :
  0 ≤ n ≤ Z.of_nat (String.length s) →
  qc = Circuit (n + 1) n
         (((([Instr "x" [n] []] ++
             ((λ i, Instr "h" [i] []) <$> py_range (n + 1))) ++
            ((λ i, Instr "cx" [i; n] []) <$>
               List.filter (has_one_at s) (py_range n))) ++
           ((λ i, Instr "h" [i] []) <$> py_range n)) ++
          ((λ i, Instr "measure" [i] [i]) <$> py_range n)) →
  count_ops "x" qc = 1 ∧
  count_ops "h" qc = 2 * n + 1 ∧
  count_ops "cx" qc = str_count "1" (str_take n s) ∧
  count_ops "measure" qc = n ∧
  count_swaps qc = 0 ∧
  size qc = 3 * n + 2 + str_count "1" (str_take n s).
Proof.
  intros Hn ->.
  assert (∀ k, 0 ≤ k → Z.of_nat (length (py_range k)) = k) as Hr.
  { intros k Hk. rewrite length_py_range. lia. }
  assert (Z.of_nat (length (List.filter (has_one_at s) (py_range n)))
          = str_count "1" (str_take n s)) as Hones.
  { unfold py_range, str_take. apply ones_in_range. lia. }
  rewrite count_swaps_count_ops. unfold size. cbn [data].
  rewrite !count_ops_app.
  change [Instr "x" [n] []] with ((λ i, Instr "x" [i] []) <$> [n]).
  repeat split.
  - rewrite (count_ops_same "x"), (count_ops_other "x" "h"),
      (count_ops_other "x" "cx"), (count_ops_other "x" "h"),
      (count_ops_other "x" "measure"); done.
  - rewrite (count_ops_other "h" "x"), (count_ops_same "h"),
      (count_ops_other "h" "cx"), (count_ops_same "h"),
      (count_ops_other "h" "measure"); try done.
    rewrite !Hr by lia. lia.
  - rewrite (count_ops_other "cx" "x"), (count_ops_other "cx" "h"),
      (count_ops_same "cx"), (count_ops_other "cx" "h"),
      (count_ops_other "cx" "measure"); try done. lia.
  - rewrite (count_ops_other "measure" "x"), (count_ops_other "measure" "h"),
      (count_ops_other "measure" "cx"), (count_ops_other "measure" "h"),
      (count_ops_same "measure"); try done.
    rewrite Hr by lia. lia.
  - rewrite (count_ops_other "swap" "x"), (count_ops_other "swap" "h"),
      (count_ops_other "swap" "cx"), (count_ops_other "swap" "h"),
      (count_ops_other "swap" "measure"); done.
  - rewrite !length_app, !length_fmap, !length_py_range. cbn [length]. lia.
Qed.

(** X9.  With a generated hidden string, [create_bv_circuit] always returns
    for [n >= 0], after [n] calls into the random generator: the hidden
    string has [n] characters, and the circuit holds one X gate, [2n + 1]
    Hadamard gates, one controlled gate per ['1'] of the hidden string, [n]
    measurements and no swap, [3n + 2 + ones] operations in all. *)
Theorem create_bv_circuit_generated n w :
  0 ≤ n →
  ∃ qc hs,
    create_bv_circuit rand_bit n None w
      = (Ok (qc, hs), tick_rng (Z.to_nat n) w) ∧
    String.length hs = Z.to_nat n ∧
    count_ops "x" qc = 1 ∧
    count_ops "h" qc = 2 * n + 1 ∧
    count_ops "cx" qc = str_count "1" hs ∧
    count_ops "measure" qc = n ∧
    count_swaps qc = 0 ∧
    size qc = 3 * n + 2 + str_count "1" hs.
Proof.
  intros Hn.
  destruct (random_string_loop rand_bit (py_range n) [] w)
    as (chars & Hrun & Hlen).
  rewrite length_py_range in Hrun, Hlen. cbn in Hlen.
  set (hs := string_of_list_ascii chars).
  assert (String.length hs = Z.to_nat n) as Hhs.
  { unfold hs. by rewrite length_string_of_list_ascii. }
  pose proof (create_bv_circuit_eval n hs (tick_rng (Z.to_nat n) w)
                ltac:(lia)) as Hqc.
  eexists _, hs. split; [|split; [exact Hhs|]].
  - rewrite <- Hqc. unfold create_bv_circuit.
    unfold mbind at 1, M_bind at 1. unfold mbind at 1, M_bind at 1.
    rewrite Hrun. cbn [mret M_ret].
    unfold mbind at 4, M_bind at 4. reflexivity.
  - destruct (bv_circuit_counts n hs _ ltac:(lia) eq_refl)
      as (Hx & Hh & Hcx & Hm & Hsw & Hsize).
    assert (str_take n hs = hs) as Htake.
    { unfold str_take. rewrite <- Hhs. apply substring_full. }
    rewrite Htake in Hcx, Hsize. by repeat split.
Qed.

(** X10.  With a supplied hidden string of at least [n] characters,
    [create_bv_circuit] returns the string as given and a circuit whose
    controlled gates are the ones among the first [n] characters only: the
    characters beyond are ignored; the random generator is not consulted. *)
Theorem create_bv_circuit_supplied n s w :
  0 ≤ n ≤ Z.of_nat (String.length s) →
  ∃ qc,
    create_bv_circuit rand_bit n (Some s) w = (Ok (qc, s), w) ∧
    count_ops "cx" qc = str_count "1" (str_take n s) ∧
    size qc = 3 * n + 2 + str_count "1" (str_take n s) ∧
    count_swaps qc = 0.
Proof.
  intros Hn. eexists. split; [by apply create_bv_circuit_eval|].
  destruct (bv_circuit_counts n s _ Hn eq_refl)
    as (_ & _ & Hcx & _ & Hsw & Hsize).
  by repeat split.
Qed.

Lemma py_range_split k n :
  0 ≤ k < n → ∃ rest, py_range n = py_range k ++ k :: rest.
Proof.
  intros Hk. unfold py_range.
  replace (Z.to_nat n) with (Z.to_nat k + S (Z.to_nat n - Z.to_nat k - 1))%nat
    by lia.
  rewrite seq_app, List.map_app. cbn [seq List.map].
  rewrite Nat.add_0_l, Z2Nat.id by lia. by eexists.
Qed.

(** X11.  A supplied hidden string shorter than the qubit count is not
    padded: the oracle loop reads past its end and [create_bv_circuit]
    raises [IndexError]. *)
Theorem create_bv_circuit_short_string n s w :
  Z.of_nat (String.length s) < n →
  create_bv_circuit rand_bit n (Some s) w
  = (Raise (Exn IndexError "string index out of range"), w).
Proof.
  intros Hn. unfold create_bv_circuit.
  unfold mbind at 1, M_bind at 1. cbn [mret M_ret].
  unfold mbind at 1, M_bind at 1. unfold new_circuit.
  replace ((n + 1 <? 0) || (n <? 0)) with false
    by (symmetry; apply orb_false_iff; lia).
  cbn [mret M_ret]. unfold mbind at 1, M_bind at 1.
  destruct (py_range_split (Z.of_nat (String.length s)) n) as (rest & ->);
    [lia|].
  rewrite for_each_app, bv_cx_loop.
  2:{ eapply Forall_impl; [apply py_range_bounds|]. cbn. lia. }
  cbn [for_each]. unfold mbind at 1, M_bind at 1.
  unfold mbind at 1, M_bind at 1, lift at 1. unfold str_getitem.
  replace (0 <=? Z.of_nat (String.length s)) with true
    by (symmetry; apply Z.leb_le; lia).
  rewrite get_out_of_range by lia. reflexivity.
Qed.

End BvCircuitFacts.

(** ** bv_algo.py: the sweep as a whole *)

Section BvSweepRun.
Import BvAlgo.
Context (now : nat → float) (rand_bit : nat → bool)
        (pm_run : nat → coupling_map → circuit → res circuit)
        (circuit_depth : circuit → Z) (washington : coupling_map)
        (float_sum : list float → float).

(** What the sweep needs to know of a generated circuit. *)
Lemma generated_circuit_size n w :
  0 ≤ n →
  ∃ qc hs,
    create_bv_circuit rand_bit n None w
      = (Ok (qc, hs), tick_rng (Z.to_nat n) w) ∧
    String.length hs = Z.to_nat n ∧
    size qc = 3 * n + 2 + str_count "1" hs.
Proof.
  intros Hn.
  destruct (create_bv_circuit_returns rand_bit n w Hn) as (qc & hs & Hrun).
  exists qc, hs. split; [done|].
  destruct (random_string_loop rand_bit (py_range n) [] w)
    as (chars & Hchars & Hlen).
  rewrite length_py_range in Hchars, Hlen. cbn in Hlen.
  assert (create_bv_circuit rand_bit n None w
          = create_bv_circuit rand_bit n
              (Some (string_of_list_ascii chars))
              (tick_rng (Z.to_nat n) w)) as Hsame.
  { unfold create_bv_circuit.
    unfold mbind at 1, M_bind at 1. unfold mbind at 1, M_bind at 1.
    rewrite Hchars. cbn [mret M_ret].
    unfold mbind at 4, M_bind at 4. reflexivity. }
  rewrite Hsame in Hrun.
  rewrite create_bv_circuit_eval in Hrun
    by (rewrite length_string_of_list_ascii; lia).
  injection Hrun as Hq <-.
  rewrite length_string_of_list_ascii. split; [done|].
  destruct (bv_circuit_counts n (string_of_list_ascii chars) qc
              ltac:(rewrite length_string_of_list_ascii; lia) (eq_sym Hq))
    as (_ & _ & _ & _ & _ & Hsize).
  rewrite Hsize. do 2 f_equal. unfold str_take.
  rewrite <- Hlen, <- (length_string_of_list_ascii chars).
  apply substring_full.
Qed.

Lemma bv_record_ok_mono qr qr' k r :
  (∀ n, n ∈ qr → n ∈ qr') → bv_record_ok qr k r → bv_record_ok qr' k r.
Proof. intros Hsub (H1 & H2). split; [by apply Hsub|done]. Qed.

Lemma count_error_lines_app out1 out2 :
  count_error_lines (out1 ++ out2)
  = (count_error_lines out1 + count_error_lines out2)%nat.
Proof. unfold count_error_lines. by rewrite List.filter_app, length_app. Qed.

(** One configuration: a record or a logged error, never an abort. *)
Lemma sweep_body_step cm n k results i w :
  0 ≤ n →
  ∃ qc hs out w',
    match pm_run (pm_calls w) cm qc with
    | Raise e =>
        sweep_body now rand_bit pm_run circuit_depth cm n k results i w
          = (Ok results, w')
    | Ok tqc =>
        ∃ t,
          sweep_body now rand_bit pm_run circuit_depth cm n k results i w
            = (Ok (results ++
                   [BenchRecord n i hs (count_swaps tqc) t
                      (circuit_depth qc) (circuit_depth tqc)
                      (size qc) (size tqc)]), w')
    end ∧
    stdout w' = stdout w ++ out ∧
    count_error_lines out
      = (if is_ok (pm_run (pm_calls w) cm qc) then 0 else 1)%nat ∧
    String.length hs = Z.to_nat n ∧
    size qc = 3 * n + 2 + str_count "1" hs ∧
    pm_calls w' = S (pm_calls w) ∧
    files w' = files w.
Proof.
  intros Hn.
  destruct (generated_circuit_size n w Hn) as (qc & hs & Hqc & Hlen & Hsize).
  destruct (sweep_body now rand_bit pm_run circuit_depth cm n k results i w)
    as [r w'] eqn:Hm.
  unfold sweep_body, mbind at 1, M_bind at 1 in Hm. rewrite Hqc in Hm.
  unfold mbind at 1, M_bind at 1 in Hm. rewrite print_eval in Hm.
  unfold run_one, try_except, mbind at 1, M_bind at 1 in Hm.
  exists qc, hs.
  destruct (pm_run (pm_calls w) cm qc) as [tqc|e] eqn:Hrun.
  - erewrite bv_transpile_returns in Hm by exact Hrun.
    unfold mbind, M_bind in Hm. rewrite !print_eval in Hm.
    cbn [mret M_ret] in Hm. injection Hm as <- <-.
    eexists _, _. split; [by eexists|]. split.
    { cbn [stdout add_stdout tick_pm tick_clock tick_rng].
      rewrite <- !app_assoc. reflexivity. }
    by repeat split.
  - erewrite bv_transpile_raises in Hm by exact Hrun.
    unfold mbind, M_bind in Hm. rewrite !print_eval in Hm.
    cbn [mret M_ret] in Hm. injection Hm as <- <-.
    eexists _, _. split; [done|]. split.
    { cbn [stdout add_stdout tick_pm tick_clock tick_rng].
      rewrite <- !app_assoc. reflexivity. }
    by repeat split.
Qed.

(** The inner loop: one record or one logged error per circuit index. *)
Lemma bv_inner_loop cm n k idxs : ∀ results w,
  0 ≤ n → Forall (λ i, 0 ≤ i < k) idxs →
  ∃ added out w',
    for_each idxs (sweep_body now rand_bit pm_run circuit_depth cm n k)
      results w
    = (Ok (results ++ added), w') ∧
    Forall (bv_record_ok [n] k) added ∧
    stdout w' = stdout w ++ out ∧
    (length added + count_error_lines out = length idxs)%nat ∧
    pm_calls w' = (length idxs + pm_calls w)%nat ∧
    files w' = files w ∧
    ((∀ j cm qc, ∃ e, pm_run j cm qc = Raise e) → added = []).
Proof.
  induction idxs as [|i idxs IH]; intros results w Hn Hidxs.
  - exists [], [], w. rewrite !app_nil_r. by repeat split.
  - apply Forall_cons in Hidxs as [Hi Hidxs].
    destruct (sweep_body_step cm n k results i w Hn)
      as (qc & hs & out1 & w1 & Hone & Hout1 & Herr1 & Hlen & Hsize & Hpm1
          & Hfiles1).
    cbn [for_each]. unfold mbind at 1, M_bind at 1.
    destruct (pm_run (pm_calls w) cm qc) as [tqc|e] eqn:Hrun.
    + destruct Hone as (t & ->). try rewrite Hrun in Herr1.
      cbn [is_ok] in Herr1.
      match goal with
      | |- context [for_each idxs _ ?results1 w1] =>
          destruct (IH results1 w1 Hn Hidxs)
            as (added & out & w' & -> & Hok & Hout & Hcount & Hpm & Hfiles
                & Hfail)
      end.
      eexists (_ :: added), (out1 ++ out), w'. rewrite <- app_assoc.
      split; [done|]. split; [|split; [|split; [|split; [|split]]]].
      * constructor; [|done]. pose proof (count_swaps_bounds tqc).
        unfold bv_record_ok. cbn. unfold size in *.
        repeat split; try done; try lia. apply list_elem_of_here.
      * by rewrite Hout, Hout1, app_assoc.
      * rewrite count_error_lines_app. cbn [length]. lia.
      * rewrite Hpm, Hpm1. cbn [length]. lia.
      * congruence.
      * intros Hall. destruct (Hall (pm_calls w) cm qc) as (e & He).
        congruence.
    + rewrite Hone. try rewrite Hrun in Herr1. cbn [is_ok] in Herr1.
      destruct (IH results w1 Hn Hidxs)
        as (added & out & w' & -> & Hok & Hout & Hcount & Hpm & Hfiles
            & Hfail).
      exists added, (out1 ++ out), w'.
      split; [done|]. split; [done|]. split; [|split; [|split; [|split]]].
      * by rewrite Hout, Hout1, app_assoc.
      * rewrite count_error_lines_app. cbn [length]. lia.
      * rewrite Hpm, Hpm1. cbn [length]. lia.
      * congruence.
      * done.
Qed.

Lemma py_range_indices k : Forall (λ i, 0 ≤ i < k) (py_range k).
Proof.
  eapply Forall_impl; [apply py_range_bounds|]. cbn. intros i Hi.
  destruct (Z_le_dec k 0); [|lia].
  rewrite Z.max_r in Hi by lia. lia.
Qed.

(** Both loops. *)
Lemma bv_outer_loop cm k qubit_range : ∀ results w,
  Forall (λ n, 0 ≤ n) qubit_range →
  ∃ added out w',
    for_each qubit_range
      (λ results n_qubits,
         _ ← print [Lit nl; Lit "Testing with "; FInt n_qubits;
                    Lit " qubits:"];
         for_each (py_range k)
           (sweep_body now rand_bit pm_run circuit_depth cm n_qubits k)
           results)
      results w
    = (Ok (results ++ added), w') ∧
    Forall (bv_record_ok qubit_range k) added ∧
    stdout w' = stdout w ++ out ∧
    (length added + count_error_lines out
     = length qubit_range * Z.to_nat k)%nat ∧
    pm_calls w' = (length qubit_range * Z.to_nat k + pm_calls w)%nat ∧
    files w' = files w ∧
    ((∀ j cm qc, ∃ e, pm_run j cm qc = Raise e) → added = []).
Proof.
  induction qubit_range as [|n ns IH]; intros results w Hns.
  - exists [], [], w. rewrite !app_nil_r. by repeat split.
  - apply Forall_cons in Hns as [Hn Hns].
    cbn [for_each]. unfold mbind at 1, M_bind at 1.
    unfold mbind at 1, M_bind at 1. rewrite print_eval.
    match goal with
    | |- context [for_each (py_range k) _ results ?w0] =>
        destruct (bv_inner_loop cm n k (py_range k) results w0 Hn
                    (py_range_indices k))
          as (added1 & out1 & w1 & -> & Hok1 & Hout1 & Hcount1 & Hpm1
              & Hfiles1 & Hfail1)
    end.
    destruct (IH (results ++ added1) w1 Hns)
      as (added & out & w' & -> & Hok & Hout & Hcount & Hpm & Hfiles
          & Hfail).
    rewrite length_py_range in Hcount1, Hpm1.
    eexists (added1 ++ added),
      ([[Lit nl; Lit "Testing with "; FInt n; Lit " qubits:"]] ++
       out1 ++ out), w'.
    rewrite app_assoc.
    split; [done|]. split; [|split; [|split; [|split; [|split]]]].
    + apply Forall_app. split.
      * eapply Forall_impl; [exact Hok1|]. intros r.
        apply bv_record_ok_mono. intros m ->%list_elem_of_singleton.
        apply list_elem_of_here.
      * eapply Forall_impl; [exact Hok|]. intros r.
        apply bv_record_ok_mono. intros m Hm.
        by apply list_elem_of_further.
    + rewrite Hout, Hout1. cbn [stdout add_stdout].
      by rewrite <- !app_assoc.
    + rewrite !count_error_lines_app, length_app.
      change (count_error_lines
                [[Lit nl; Lit "Testing with "; FInt n; Lit " qubits:"]])
        with 0%nat.
      cbn [length]. lia.
    + rewrite Hpm, Hpm1. cbn [length pm_calls add_stdout]. lia.
    + rewrite Hfiles, Hfiles1. done.
    + intros Hall. by rewrite (Hfail1 Hall), (Hfail Hall).
Qed.

(** The divisions of the summary can only fail by overflow. *)
Lemma int_truediv_error a b e :
  b ≠ 0 → int_truediv a b = Raise e → exn_cls e = OverflowError.
Proof.
  intros Hb. unfold int_truediv.
  replace (b =? 0) with false by (symmetry; apply Z.eqb_neq; lia).
  destruct a; [done| |];
    destruct (SFdiv prec emax _ _); try done; by intros [= <-].
Qed.

Lemma float_div_int_error x k e :
  k ≠ 0 → float_div_int x k = Raise e → exn_cls e = OverflowError.
Proof.
  intros Hk. unfold float_div_int, float_of_int.
  replace (k =? 0) with false by (symmetry; apply Z.eqb_neq; lia).
  destruct (binary_normalize prec emax k 0 false); cbn; try done.
  by intros [= <-].
Qed.

Lemma averages_error r qr e :
  averages float_sum (r :: qr) = Raise e → exn_cls e = OverflowError.
Proof.
  unfold averages, mbind, res_bind. cbn [length].
  set (len := Z.of_nat (S (length qr))).
  assert (len ≠ 0) as Hlen by (unfold len; lia).
  destruct (int_truediv (py_sum _) len) as [a|e1] eqn:E1.
  2:{ intros Heq. simplify_eq. by eapply int_truediv_error. }
  destruct (float_div_int _ len) as [b|e2] eqn:E2.
  2:{ intros Heq. simplify_eq. by eapply float_div_int_error. }
  match goal with
  | |- context [match ?x with _ => _ end] =>
      destruct x as [c|e3] eqn:E3
  end.
  2:{ intros Heq. simplify_eq. by eapply int_truediv_error. }
  done.
Qed.

(** The summary of one qubit count: nothing for an empty group, four lines
    for a group whose averages are computed, and otherwise an
    [OverflowError]; no line of it looks like a logged error. *)
Lemma summary_group_outcome results n w :
  ∃ r out,
    summary_group float_sum results n w = (r, add_stdout out w) ∧
    count_error_lines out = 0%nat ∧
    (r = Ok tt ∨ ∃ e, r = Raise e ∧ exn_cls e = OverflowError) ∧
    (List.filter (λ r, r_qubits r =? n) results = [] → r = Ok tt ∧ out = []).
Proof.
  unfold summary_group.
  destruct (List.filter _ results) as [|r0 qr] eqn:Hg.
  - exists (Ok tt), []. rewrite add_stdout_nil. by repeat split; try left.
  - unfold mbind at 1, M_bind at 1, lift at 1.
    destruct (averages float_sum (r0 :: qr)) as [[[a b] c]|e] eqn:Havg.
    + exists (Ok tt), (group_report n a b c).
      unfold mbind, M_bind. rewrite !print_eval, !add_stdout_app.
      split; [done|]. split; [done|]. split; [by left|done].
    + exists (Raise e), []. rewrite add_stdout_nil.
      split; [done|]. split; [done|]. split; [|done].
      right. exists e. split; [done|]. by eapply averages_error.
Qed.

Lemma summary_loop_outcome results qubit_range : ∀ w,
  ∃ r out,
    for_each qubit_range (λ _ n, summary_group float_sum results n) tt w
    = (r, add_stdout out w) ∧
    count_error_lines out = 0%nat ∧
    (r = Ok tt ∨ ∃ e, r = Raise e ∧ exn_cls e = OverflowError) ∧
    (results = [] → r = Ok tt ∧ out = []).
Proof.
  induction qubit_range as [|n ns IH]; intros w.
  - exists (Ok tt), []. rewrite add_stdout_nil. by repeat split; try left.
  - destruct (summary_group_outcome results n w)
      as (r1 & out1 & Hone & Herr1 & Hr1 & Hnil1).
    cbn [for_each]. unfold mbind at 1, M_bind at 1. rewrite Hone.
    destruct Hr1 as [->|(e & -> & He)].
    + destruct (IH (add_stdout out1 w)) as (r & out & -> & Herr & Hr & Hnil).
      exists r, (out1 ++ out). rewrite add_stdout_app.
      split; [done|]. split; [|split; [done|]].
      * rewrite count_error_lines_app. lia.
      * intros ->. destruct (Hnil eq_refl) as [-> ->].
        destruct (Hnil1 eq_refl) as [_ ->]. done.
    + exists (Raise e), out1. split; [done|]. split; [done|].
      split; [right; by exists e|].
      intros ->. by destruct (Hnil1 eq_refl).
Qed.

(** The whole sweep, whatever the optimizer does. *)
Lemma bv_sweep_run qubit_range k w :
  Forall (λ n, 0 ≤ n) qubit_range →
  ∃ results out r w',
    benchmark_bv_sweep now rand_bit pm_run circuit_depth washington
      float_sum qubit_range k w = (r, w') ∧
    Forall (bv_record_ok qubit_range k) results ∧
    stdout w' = stdout w ++ out ∧
    (length results + count_error_lines out
     = length qubit_range * Z.to_nat k)%nat ∧
    pm_calls w' = (length qubit_range * Z.to_nat k + pm_calls w)%nat ∧
    files w' = files w ++
      [([Lit "bv_benchmark_results.txt"],
        DictLines (record_repr <$> results))] ∧
    (r = Ok results ∨ ∃ e, r = Raise e ∧ exn_cls e = OverflowError) ∧
    ((∀ j cm qc, ∃ e, pm_run j cm qc = Raise e) →
     results = [] ∧ r = Ok []).
Proof.
  intros Hns. unfold benchmark_bv_sweep.
  unfold mbind at 1, M_bind at 1. rewrite print_eval.
  unfold mbind at 1, M_bind at 1.
  match goal with
  | |- context [for_each qubit_range _ [] ?w0] =>
      destruct (bv_outer_loop washington k qubit_range [] w0 Hns)
        as (results & out1 & w1 & Hloop & Hok & Hout1 & Hcount & Hpm1
            & Hfiles1 & Hfail)
  end.
  rewrite Hloop. cbn [app].
  unfold mbind at 1, M_bind at 1. cbn [write_file].
  unfold mbind at 1, M_bind at 1.
  unfold summary_statistics, mbind at 1, M_bind at 1. rewrite print_eval.
  match goal with
  | |- context [for_each qubit_range _ tt ?w0] =>
      destruct (summary_loop_outcome results qubit_range w0)
        as (r2 & out2 & -> & Herr2 & Hr2 & Hnil2)
  end.
  exists results,
    ([[Lit "Running Bernstein-Vazirani benchmarks..."]] ++ out1 ++
     [[Lit nl; Lit "Summary Statistics:"]] ++ out2).
  destruct Hr2 as [->|(e & -> & He)].
  - eexists _, _. split; [reflexivity|]. split; [done|].
    split; [|split; [|split; [|split; [|split]]]].
    + cbn [stdout add_stdout]. rewrite Hout1. cbn [stdout add_stdout].
      by rewrite <- !app_assoc.
    + rewrite !count_error_lines_app.
      change (count_error_lines
                [[Lit "Running Bernstein-Vazirani benchmarks..."]])
        with 0%nat.
      change (count_error_lines [[Lit nl; Lit "Summary Statistics:"]])
        with 0%nat.
      lia.
    + cbn [pm_calls add_stdout]. rewrite Hpm1. done.
    + cbn [files add_stdout]. by rewrite Hfiles1.
    + by left.
    + intros Hall. by rewrite (Hfail Hall).
  - eexists _, _. split; [reflexivity|]. split; [done|].
    split; [|split; [|split; [|split; [|split]]]].
    + cbn [stdout add_stdout]. rewrite Hout1. cbn [stdout add_stdout].
      by rewrite <- !app_assoc.
    + rewrite !count_error_lines_app.
      change (count_error_lines
                [[Lit "Running Bernstein-Vazirani benchmarks..."]])
        with 0%nat.
      change (count_error_lines [[Lit nl; Lit "Summary Statistics:"]])
        with 0%nat.
      lia.
    + cbn [pm_calls add_stdout]. rewrite Hpm1. done.
    + cbn [files add_stdout]. by rewrite Hfiles1.
    + right. by exists e.
    + intros Hall. specialize (Hfail Hall). subst results.
      by destruct (Hnil2 eq_refl).
Qed.

(** X12.  Every record that the Bernstein-Vazirani sweep returns is
    well-formed: its qubit count is one of the sweep, its circuit index lies
    in [[0, k)], its hidden string has as many characters as qubits, its
    original size is [3n + 2] plus the ones of the hidden string, and its
    swap count lies between 0 and the transpiled size. *)
Theorem bv_sweep_records_wellformed qubit_range k w :
  Forall (λ n, 0 ≤ n) qubit_range →
  ∃ r w',
    benchmark_bv_sweep now rand_bit pm_run circuit_depth washington
      float_sum qubit_range k w = (r, w') ∧
    ∀ results, r = Ok results → Forall (bv_record_ok qubit_range k) results.
Proof.
  intros Hns.
  destruct (bv_sweep_run qubit_range k w Hns)
    as (results & out & r & w' & Hrun & Hok & _ & _ & _ & _ & Hr & _).
  exists r, w'. split; [exact Hrun|]. intros results' ->.
  destruct Hr as [[= ->]|(e & [=] & _)]. exact Hok.
Qed.

(** X13.  The sweep attempts every configuration exactly once, whatever
    fails: the optimizer is called once per configuration, and when the
    sweep returns, the records and the logged error lines are together as
    many as the configurations. *)
Theorem bv_sweep_accounts_for_every_configuration qubit_range k w :
  Forall (λ n, 0 ≤ n) qubit_range →
  ∃ out r w',
    benchmark_bv_sweep now rand_bit pm_run circuit_depth washington
      float_sum qubit_range k w = (r, w') ∧
    stdout w' = stdout w ++ out ∧
    pm_calls w' = (length qubit_range * Z.to_nat k + pm_calls w)%nat ∧
    ∀ results, r = Ok results →
      (length results + count_error_lines out
       = length qubit_range * Z.to_nat k)%nat.
Proof.
  intros Hns.
  destruct (bv_sweep_run qubit_range k w Hns)
    as (results & out & r & w' & Hrun & _ & Hout & Hcount & Hpm & _ & Hr
        & _).
  exists out, r, w'. split; [exact Hrun|]. split; [exact Hout|].
  split; [exact Hpm|]. intros results' ->.
  destruct Hr as [[= ->]|(e & [=] & _)]. exact Hcount.
Qed.

(** X14.  The sweep never aborts before its results are saved: the results
    file is written, with one line per record, whatever the optimizer does;
    afterwards the sweep returns the records, unless a division of the
    summary overflows, in which case it raises [OverflowError]. *)
Theorem bv_sweep_saves_results qubit_range k w :
  Forall (λ n, 0 ≤ n) qubit_range →
  ∃ results r w',
    benchmark_bv_sweep now rand_bit pm_run circuit_depth washington
      float_sum qubit_range k w = (r, w') ∧
    files w' = files w ++
      [([Lit "bv_benchmark_results.txt"],
        DictLines (record_repr <$> results))] ∧
    (r = Ok results ∨ ∃ e, r = Raise e ∧ exn_cls e = OverflowError).
Proof.
  intros Hns.
  destruct (bv_sweep_run qubit_range k w Hns)
    as (results & out & r & w' & Hrun & _ & _ & _ & _ & Hfiles & Hr & _).
  exists results, r, w'. split; [exact Hrun|]. by split.
Qed.

(** X15.  When the optimizer fails on every circuit the sweep still
    returns: with no record, an empty results file, one logged error per
    configuration, and a summary that prints nothing but its header (no
    group is averaged, so nothing is divided by zero). *)
Theorem bv_sweep_all_fail qubit_range k w :
  Forall (λ n, 0 ≤ n) qubit_range →
  (∀ j cm qc, ∃ e, pm_run j cm qc = Raise e) →
  ∃ out w',
    benchmark_bv_sweep now rand_bit pm_run circuit_depth washington
      float_sum qubit_range k w = (Ok [], w') ∧
    files w' = files w ++ [([Lit "bv_benchmark_results.txt"], DictLines [])] ∧
    stdout w' = stdout w ++ out ∧
    count_error_lines out = (length qubit_range * Z.to_nat k)%nat ∧
    last out = Some [Lit nl; Lit "Summary Statistics:"].
Proof.
  intros Hns Hall. unfold benchmark_bv_sweep.
  unfold mbind at 1, M_bind at 1. rewrite print_eval.
  unfold mbind at 1, M_bind at 1.
  match goal with
  | |- context [for_each qubit_range _ [] ?w0] =>
      destruct (bv_outer_loop washington k qubit_range [] w0 Hns)
        as (results & out1 & w1 & Hloop & _ & Hout1 & Hcount & _
            & Hfiles1 & Hfail)
  end.
  rewrite Hloop, (Hfail Hall). rewrite (Hfail Hall) in Hcount.
  cbn [app length] in Hcount |- *.
  unfold mbind at 1, M_bind at 1. cbn [write_file].
  unfold mbind at 1, M_bind at 1.
  unfold summary_statistics, mbind at 1, M_bind at 1. rewrite print_eval.
  match goal with
  | |- context [for_each qubit_range _ tt ?w0] =>
      destruct (summary_loop_outcome [] qubit_range w0)
        as (r2 & out2 & -> & _ & _ & Hnil2)
  end.
  destruct (Hnil2 eq_refl) as [-> ->]. rewrite add_stdout_nil.
  eexists ([[Lit "Running Bernstein-Vazirani benchmarks..."]] ++ out1 ++
           [[Lit nl; Lit "Summary Statistics:"]]), _.
  cbn [mret M_ret]. split; [reflexivity|].
  split; [|split; [|split]].
  - cbn [files add_stdout]. by rewrite Hfiles1.
  - cbn [stdout add_stdout]. rewrite Hout1. cbn [stdout add_stdout].
    by rewrite <- !app_assoc.
  - rewrite !count_error_lines_app.
    change (count_error_lines
              [[Lit "Running Bernstein-Vazirani benchmarks..."]])
      with 0%nat.
    change (count_error_lines [[Lit nl; Lit "Summary Statistics:"]])
      with 0%nat.
    lia.
  - rewrite app_assoc. apply last_snoc.
Qed.

End BvSweepRun.

(** ** qv_10_5-_d10_25.py: the generated configurations *)

Section QvGenerateFacts.
Import Qv.
Context (QuantumVolume : Z → Z → Z → circuit).

Lemma bind_singletons {A B} (f : A → B) (l : list A) :
  l ≫= (λ x, [f x]) = f <$> l.
Proof.
  induction l as [|x l IH]; [done|]. by rewrite bind_cons, IH.
Qed.

(** The innermost loop appends one circuit and one configuration per
    index. *)
Lemma qv_inner_fold n_qubits depth idxs : ∀ circuits params,
  fold_left
    (λ '(circuits, params) i,
       let seed := i + n_qubits * 100 + depth * 10000 in
       let qv := QuantumVolume n_qubits depth seed in
       (circuits ++ [qv], params ++ [(n_qubits, depth, i)]))
    idxs (circuits, params)
  = (circuits ++
     ((λ i, QuantumVolume n_qubits depth (qv_seed n_qubits depth i))
        <$> idxs),
     params ++ ((λ i, (n_qubits, depth, i)) <$> idxs)).
Proof.
  induction idxs as [|i idxs IH]; intros circuits params; cbn [fold_left].
  - by rewrite !app_nil_r.
  - rewrite IH. cbn [fmap list_fmap]. by rewrite <- !app_assoc.
Qed.

Lemma qv_middle_fold n_qubits k depth_range : ∀ circuits params,
  fold_left
    (λ acc depth,
       fold_left
         (λ '(circuits, params) i,
            let seed := i + n_qubits * 100 + depth * 10000 in
            let qv := QuantumVolume n_qubits depth seed in
            (circuits ++ [qv], params ++ [(n_qubits, depth, i)]))
         (py_range k) acc)
    depth_range (circuits, params)
  = (circuits ++
     ((λ c : Z * Z * Z, QuantumVolume c.1.1 c.1.2 (qv_seed c.1.1 c.1.2 c.2))
        <$> (depth ← depth_range; i ← py_range k; [(n_qubits, depth, i)])),
     params ++
     (depth ← depth_range; i ← py_range k; [(n_qubits, depth, i)])).
Proof.
  induction depth_range as [|d ds IH]; intros circuits params;
    cbn [fold_left].
  - by rewrite !app_nil_r.
  - rewrite qv_inner_fold, IH, bind_cons, fmap_app, <- !app_assoc.
    rewrite (bind_singletons (λ i, (n_qubits, d, i))).
    rewrite <- list_fmap_compose. done.
Qed.

Lemma qv_outer_fold k depth_range qubit_range : ∀ circuits params,
  fold_left
    (λ acc n_qubits,
       fold_left
         (λ acc depth,
            fold_left
              (λ '(circuits, params) i,
                 let seed := i + n_qubits * 100 + depth * 10000 in
                 let qv := QuantumVolume n_qubits depth seed in
                 (circuits ++ [qv], params ++ [(n_qubits, depth, i)]))
              (py_range k) acc)
         depth_range acc)
    qubit_range (circuits, params)
  = (circuits ++
     ((λ c : Z * Z * Z, QuantumVolume c.1.1 c.1.2 (qv_seed c.1.1 c.1.2 c.2))
        <$> qv_configurations qubit_range depth_range k),
     params ++ qv_configurations qubit_range depth_range k).
Proof.
  induction qubit_range as [|n ns IH]; intros circuits params;
    cbn [fold_left].
  - by rewrite !app_nil_r.
  - rewrite qv_middle_fold, IH. unfold qv_configurations.
    rewrite bind_cons, fmap_app, <- !app_assoc. done.
Qed.

Lemma length_qv_depths (n k : Z) (depth_range : list Z) :
  length (depth_range ≫= λ depth, py_range k ≫= λ i, [(n, depth, i)])
  = (length depth_range * Z.to_nat k)%nat.
Proof.
  induction depth_range as [|d ds IH]; [done|].
  rewrite bind_cons, length_app, IH.
  rewrite (bind_singletons (λ i, (n, d, i))), length_fmap, length_py_range.
  cbn [length]. lia.
Qed.

Lemma length_qv_configurations qubit_range depth_range k :
  length (qv_configurations qubit_range depth_range k)
  = (length qubit_range * (length depth_range * Z.to_nat k))%nat.
Proof.
  unfold qv_configurations.
  induction qubit_range as [|n ns IH]; [done|].
  rewrite bind_cons, length_app, IH, length_qv_depths. cbn [length]. lia.
Qed.

Lemma elem_of_qv_configurations qubit_range depth_range k n d i :
  (n, d, i) ∈ qv_configurations qubit_range depth_range k ↔
  n ∈ qubit_range ∧ d ∈ depth_range ∧ i ∈ py_range k.
Proof.
  unfold qv_configurations. rewrite list_elem_of_bind. split.
  - intros (n' & Hin & Hn).
    apply list_elem_of_bind in Hin as (d' & Hin & Hd).
    apply list_elem_of_bind in Hin as (i' & Hin & Hi).
    apply list_elem_of_singleton in Hin as [= -> -> ->]. done.
  - intros (Hn & Hd & Hi). exists n. split; [|done].
    apply list_elem_of_bind. exists d. split; [|done].
    apply list_elem_of_bind. exists i. split; [|done].
    apply list_elem_of_here.
Qed.

(** X16.  [generate_qv_circuits] returns the configurations in the order of
    its three loops (qubit count, then depth, then circuit index), and with
    each configuration, at the same position, the Quantum Volume circuit of
    its seed [i + 100 * n + 10000 * depth]; both lists have
    [len(qubit_range) * len(depth_range) * num_circuits] elements. *)
Theorem generate_qv_circuits_spec qubit_range depth_range num_circuits :
  let confs := qv_configurations qubit_range depth_range num_circuits in
  generate_qv_circuits QuantumVolume qubit_range depth_range num_circuits
  = ((λ c : Z * Z * Z, QuantumVolume c.1.1 c.1.2 (qv_seed c.1.1 c.1.2 c.2))
       <$> confs, confs) ∧
  length confs
  = (length qubit_range * (length depth_range * Z.to_nat num_circuits))%nat.
Proof.
  intros confs. split; [|apply length_qv_configurations].
  unfold generate_qv_circuits. by rewrite qv_outer_fold.
Qed.

(** X17.  The seeds tell the configurations of a sweep apart when it has at
    most 100 circuits per configuration and qubit counts in [[0, 100)]: two
    different configurations never get the same seed. *)
Theorem qv_seeds_distinct qubit_range depth_range num_circuits c1 c2 :
  Forall (λ n, 0 ≤ n < 100) qubit_range →
  num_circuits ≤ 100 →
  c1 ∈ qv_configurations qubit_range depth_range num_circuits →
  c2 ∈ qv_configurations qubit_range depth_range num_circuits →
  c1 ≠ c2 →
  qv_seed c1.1.1 c1.1.2 c1.2 ≠ qv_seed c2.1.1 c2.1.2 c2.2.
Proof.
  intros Hqr Hk Hc1 Hc2 Hne.
  destruct c1 as [[n1 d1] i1], c2 as [[n2 d2] i2].
  apply elem_of_qv_configurations in Hc1 as (Hn1 & _ & Hi1).
  apply elem_of_qv_configurations in Hc2 as (Hn2 & _ & Hi2).
  rewrite Forall_forall in Hqr.
  pose proof (Hqr n1 Hn1). pose proof (Hqr n2 Hn2).
  pose proof (py_range_indices num_circuits) as Hidx.
  rewrite Forall_forall in Hidx.
  pose proof (Hidx i1 Hi1). pose proof (Hidx i2 Hi2).
  unfold qv_seed. cbn. intros Hseed. apply Hne.
  assert (n1 = n2 ∧ d1 = d2 ∧ i1 = i2) as (-> & -> & ->) by lia. done.
Qed.

(** Beyond these bounds seeds repeat: circuit 100 of one qubit and circuit 0
    of two qubits share the seed 200. *)
Example qv_seed_collision : qv_seed 1 0 100 = qv_seed 2 0 0.
Proof. reflexivity. Qed.

End QvGenerateFacts.

(** ** qv_10_5-_d10_25.py: a failing trial, and the sweep when none fails *)

Section QvRunFacts.
Import Qv.
Context (now : nat → float)
        (pm_run : nat → coupling_map → circuit → res circuit)
        (circuit_depth : circuit → Z) (washington : coupling_map)
        (QuantumVolume : Z → Z → Z → circuit).

(** X18.  The multi-trial runner has no handler either: when the first
    [j] trials return and trial [j] raises, the runner raises that
    exception after [j + 1] optimizer calls and one clock read; the best
    circuit of the earlier trials is lost. *)
Theorem transpile_with_sabre_trial_raises qc cm num_trials w cs e :
  Z.of_nat (length cs) < num_trials →
  (∀ (j : nat) c, cs !! j = Some c →
                  pm_run (pm_calls w + j)%nat cm qc = Ok c) →
  pm_run (pm_calls w + length cs)%nat cm qc = Raise e →
  transpile_with_sabre now pm_run qc cm num_trials w
  = (Raise e, tick_pm (S (length cs)) (tick_clock 1 w)).
Proof.
  intros Hj Hok Hfail.
  destruct (py_range_split (Z.of_nat (length cs)) num_trials) as (rest & Hsplit);
    [lia|].
  unfold transpile_with_sabre, mbind at 1, M_bind at 1. cbn [time_time].
  unfold mbind at 1, M_bind at 1. rewrite Hsplit, for_each_app.
  rewrite (trials_loop pm_run cm qc cs).
  - cbn [for_each]. unfold mbind at 1, M_bind at 1.
    unfold mbind at 1, M_bind at 1, pass_manager_run at 1.
    cbn [pm_calls tick_pm].
    rewrite (Nat.add_comm (length cs) (pm_calls w)), Hfail.
    unfold tick_pm, tick_clock. cbn. do 2 f_equal. lia.
  - rewrite length_py_range. lia.
  - done.
Qed.

(** The single trial of the sweep. *)
Lemma qv_single_trial qc cm w c :
  pm_run (pm_calls w) cm qc = Ok c →
  transpile_with_sabre now pm_run qc cm 1 w
  = (Ok (Some c, Count (count_swaps c),
         fsub (now (S (clock_reads w))) (now (clock_reads w))),
     tick_clock 2 (tick_pm 1 w)).
Proof.
  intros Hrun. unfold transpile_with_sabre.
  change (py_range 1) with [0]. cbn [for_each]. unfold mbind, M_bind.
  cbn [time_time pass_manager_run pm_calls]. rewrite Hrun.
  cbn [mret M_ret keep_best lt_bound]. by destruct w.
Qed.

(** What a record says of its configuration and circuit. *)
Lemma qv_sweep_loop cm total items : ∀ results w,
  (∀ j cm qc, ∃ c, pm_run j cm qc = Ok c) →
  ∃ added w',
    for_each items (sweep_body now pm_run circuit_depth cm total) results w
    = (Ok (results ++ added), w') ∧
    length added = length items ∧
    (∀ (i : nat) (item : Z * (circuit * (Z * Z * Z))),
       items !! i = Some item →
       ∃ r c,
         added !! i = Some r ∧
         pm_run (pm_calls w + i)%nat cm item.2.1 = Ok c ∧
         r_qubits r = item.2.2.1.1 ∧ r_depth r = item.2.2.1.2 ∧
         r_circuit_idx r = item.2.2.2 ∧
         r_original_depth r = circuit_depth item.2.1 ∧
         r_swap_count r = Count (count_ops "swap" c) ∧
         r_transpiled_depth r = circuit_depth c) ∧
    pm_calls w' = (length items + pm_calls w)%nat ∧
    files w' = files w.
Proof.
  induction items as [|[i [qc [[n d] idx]]] items IH]; intros results w Hpm.
  - exists [], w. rewrite app_nil_r. by repeat split.
  - destruct (sweep_body now pm_run circuit_depth cm total results
                (i, (qc, (n, d, idx))) w) as [r w1] eqn:Hbody.
    pose proof Hbody as Hm.
    unfold sweep_body, mbind at 1, M_bind at 1 in Hm.
    rewrite print_eval in Hm. unfold mbind at 1, M_bind at 1 in Hm.
    destruct (Hpm (pm_calls w) cm qc) as (c & Hrun).
    erewrite qv_single_trial in Hm by exact Hrun.
    unfold record_result, depth_of, mbind, M_bind in Hm.
    cbn [mret M_ret] in Hm. rewrite print_eval in Hm.
    injection Hm as <- <-.
    cbn [for_each]. unfold mbind at 1, M_bind at 1. rewrite Hbody.
    match goal with
    | |- context [for_each items _ ?results1 ?w1] =>
        destruct (IH results1 w1 Hpm)
          as (added & w' & -> & Hlen & Hrows & Hpm' & Hfiles')
    end.
    eexists (_ :: added), w'. rewrite <- app_assoc.
    split; [done|]. split; [by cbn [length]; rewrite Hlen|].
    split; [|split].
    + intros [|k] item Hitem.
      * injection Hitem as <-. eexists _, c. split; [reflexivity|].
        rewrite Nat.add_0_r. cbn. rewrite count_swaps_count_ops.
        by repeat split.
      * destruct (Hrows k item Hitem) as (r & c' & Hr & Hrun' & Hrest).
        exists r, c'. split; [done|]. split; [|done].
        rewrite <- Hrun'. f_equal.
        cbn [pm_calls add_stdout tick_clock tick_pm]. lia.
    + rewrite Hpm'. cbn [length pm_calls add_stdout tick_clock tick_pm]. lia.
    + rewrite Hfiles'. done.
Qed.

(** The items of the sweep loop, position by position. *)
Lemma qv_items_lookup {A B} (f : A → B) (l : list A) (i : nat) a :
  l !! i = Some a →
  imap (λ i x, (Z.of_nat i, x)) (zip (f <$> l) l) !! i
  = Some (Z.of_nat i, (f a, a)).
Proof.
  intros Hi. rewrite list_lookup_imap, lookup_zip_with, list_lookup_fmap, Hi.
  done.
Qed.

(** X19.  When the optimizer returns on every circuit, the Quantum Volume
    sweep returns one record per configuration, in the order of the
    configurations: the record of the [i]-th configuration carries its qubit
    count, depth and index, the depth of its seeded circuit, and the number
    of [swap] operations and the depth of the circuit that the [i]-th
    optimizer call returned for that circuit; the optimizer is called once
    per configuration and the records are saved to the results file. *)
Theorem qv_sweep_all_return qubit_range depth_range k w :
  (∀ j cm qc, ∃ c, pm_run j cm qc = Ok c) →
  let confs := qv_configurations qubit_range depth_range k in
  ∃ results w',
    benchmark_qv_sweep now pm_run circuit_depth washington QuantumVolume
      qubit_range depth_range k w
    = (Ok results, w') ∧
    length results = length confs ∧
    (∀ (i : nat) n d idx, confs !! i = Some (n, d, idx) →
       ∃ r tqc,
         results !! i = Some r ∧
         pm_run (pm_calls w + i)%nat washington
                (QuantumVolume n d (qv_seed n d idx)) = Ok tqc ∧
         r_qubits r = n ∧ r_depth r = d ∧ r_circuit_idx r = idx ∧
         r_original_depth r
           = circuit_depth (QuantumVolume n d (qv_seed n d idx)) ∧
         r_swap_count r = Count (count_ops "swap" tqc) ∧
         r_transpiled_depth r = circuit_depth tqc) ∧
    pm_calls w' = (length confs + pm_calls w)%nat ∧
    files w' = files w ++
      [([Lit "qv_benchmark_results.txt"],
        DictLines (record_repr <$> results))].
Proof.
  intros Hpm confs. unfold benchmark_qv_sweep.
  unfold generate_qv_circuits. rewrite qv_outer_fold. cbn [app].
  fold confs.
  unfold mbind at 1, M_bind at 1. rewrite print_eval.
  unfold mbind at 1, M_bind at 1. rewrite print_eval.
  unfold mbind at 1, M_bind at 1. rewrite print_eval.
  unfold mbind at 1, M_bind at 1.
  match goal with
  | |- context [for_each ?items (sweep_body _ _ _ ?cm ?total) [] ?w0] =>
      destruct (qv_sweep_loop cm total items [] w0 Hpm)
        as (results & w1 & Hloop & Hlen & Hrows & Hpm1 & Hfiles1)
  end.
  rewrite Hloop. cbn [app mbind M_bind write_file mret M_ret].
  exists results. eexists. split; [reflexivity|].
  split; [|split; [|split]].
  - rewrite Hlen, length_imap, length_zip, length_fmap. lia.
  - intros i n d idx Hconf.
    pose proof (qv_items_lookup
                  (λ c : Z * Z * Z,
                     QuantumVolume c.1.1 c.1.2 (qv_seed c.1.1 c.1.2 c.2))
                  confs i (n, d, idx) Hconf) as Hitem.
    destruct (Hrows i _ Hitem) as (r & c & Hr & Hrun & Hrest).
    exists r, c. split; [done|]. split; [exact Hrun|]. exact Hrest.
  - rewrite Hpm1. cbn [pm_calls add_stdout].
    rewrite length_imap, length_zip, length_fmap. f_equal. lia.
  - cbn [files]. rewrite Hfiles1. done.
Qed.

End QvRunFacts.

(** ** error_rate_all_machine.py: which backends get an entry *)

Section CollectorFacts.
Import Calibration.
Context (format_float : string → float → string)
        (py_str : pyval → string)
        (FakeOslo : fake_backend)
        (strftime_now : nat → string).

(** On a readable snapshot that lists a [cx] gate the substitute record is
    never built, whatever the metric getters do. *)
Lemma get_fake_backend_data_never_returns fake props :
  fake_properties fake = Ok props →
  lists_cx props = true →
  ∃ e, get_fake_backend_data format_float fake = Raise e.
Proof.
  intros Hprops Hcx. unfold get_fake_backend_data.
  unfold mbind at 1, res_bind at 1. rewrite Hprops.
  unfold mbind at 1, res_bind at 1.
  destruct (res_map _ (py_range (fake_num_qubits fake))) as [qs|e];
    [|by exists e].
  unfold lists_cx in Hcx.
  destruct (filter_cons_existsb _ _ Hcx) as (g & gs & ->).
  cbn [res_map]. unfold mbind at 1, res_bind at 1.
  unfold mbind at 1, res_bind at 1. rewrite gate_getattr_error.
  by eexists.
Qed.

(** X20.  The handler logs the error and decides by the message alone, and
    on the substitute snapshot with its [cx] gates it never stores
    anything: a message without "retired" leaves the results as they are and
    lets the loop go on; a message that contains "retired" in any mix of
    cases makes the handler raise. *)
Theorem on_error_never_stores results b e w props :
  fake_properties FakeOslo = Ok props →
  lists_cx props = true →
  let w' := add_stdout [[Lit "Error processing "; FStr (name b); Lit ": ";
                         FStr (exn_msg e)]] w in
  (¬ contains_ci "retired" (exn_msg e) →
   on_error format_float FakeOslo results b e w = (Ok results, w')) ∧
  (contains_ci "retired" (exn_msg e) →
   ∃ e', on_error format_float FakeOslo results b e w = (Raise e', w')).
Proof.
  intros Hprops Hcx w'. split.
  - intros Hnot. unfold on_error, mbind, M_bind. rewrite print_eval.
    destruct (in_str "retired" (str_lower (exn_msg e))) eqn:Hret; [|done].
    destruct Hnot. by apply in_str_contains_ci.
  - intros Hci.
    destruct (get_fake_backend_data_never_returns _ _ Hprops Hcx)
      as (e' & Hfake).
    exists e'. unfold on_error, mbind, M_bind. rewrite print_eval.
    rewrite (contains_ci_in_str _ _ Hci). unfold lift. by rewrite Hfake.
Qed.

(** One backend of the loop that is not taken for retired: an entry under
    its name exactly when it is [stored]. *)
Lemma backend_step_stored results b w :
  retires b = false →
  ∃ results' w',
    try_except (collect_live format_float py_str results b)
               (on_error format_float FakeOslo results b) w
    = (Ok results', w') ∧
    files w' = files w ∧
    clock_reads w' = clock_reads w ∧
    if stored b then ∃ rec, results' = <[name b := rec]> results
    else results' = results.
Proof.
  unfold try_except, retires, stored.
  destruct (live_query_error b) as [e|] eqn:Hlive.
  - intros Hret. rewrite (collect_live_raises _ _ _ _ _ _ Hlive).
    unfold on_error, mbind, M_bind. rewrite print_eval, Hret.
    eexists _, _. split; [reflexivity|]. by repeat split.
  - intros _. unfold live_query_error in Hlive.
    destruct (status b) as [st|e1] eqn:Hst; [|done].
    destruct (get_properties b) as [[props|]|e2] eqn:Hprops; [| |done].
    + rewrite (collect_live_eval _ _ _ _ _ _ _ Hst Hprops).
      destruct (lists_cx props); cbn [negb].
      * unfold on_error, mbind, M_bind. rewrite print_eval.
        rewrite attr_undefined_not_retired.
        eexists _, _. split; [reflexivity|]. by repeat split.
      * eexists _, _. split; [reflexivity|]. split; [done|].
        split; [done|]. by eexists.
    + unfold collect_live, mbind, M_bind, lift.
      rewrite !print_eval, Hst, Hprops. rewrite print_eval.
      eexists _, _. split; [reflexivity|]. by repeat split.
Qed.

Lemma backends_loop_stored backends : ∀ results w,
  Forall (λ b, retires b = false) backends →
  ∃ results' w',
    for_each backends
      (λ results b,
         try_except (collect_live format_float py_str results b)
                    (on_error format_float FakeOslo results b))
      results w
    = (Ok results', w') ∧
    files w' = files w ∧
    clock_reads w' = clock_reads w ∧
    ∀ k, is_Some (results' !! k) ↔
         is_Some (results !! k) ∨
         ∃ b, b ∈ backends ∧ name b = k ∧ stored b = true.
Proof.
  induction backends as [|b bs IH]; intros results w Hall.
  - exists results, w. split; [done|]. split; [done|]. split; [done|].
    intros k. split; [by left|].
    intros [H|(b & Hb & _)]; [done|]. by apply elem_of_nil in Hb.
  - apply Forall_cons in Hall as [Hb0 Hall].
    destruct (backend_step_stored results b w Hb0)
      as (results1 & w1 & Hstep & Hfiles1 & Hclock1 & Hone).
    destruct (IH results1 w1 Hall)
      as (results' & w' & Hloop & Hfiles & Hclock & Hkeys).
    exists results', w'. cbn [for_each]. unfold mbind, M_bind.
    rewrite Hstep, Hloop. split; [done|]. split; [congruence|].
    split; [congruence|].
    intros k. rewrite Hkeys. clear Hkeys.
    destruct (stored b) eqn:Hb.
    + destruct Hone as (rec & ->). split.
      * intros [Hk|(b' & Hb' & Hname & Hst)].
        -- destruct (decide (name b = k)) as [<-|Hne].
           ++ right. exists b. split; [apply list_elem_of_here|done].
           ++ left. by rewrite lookup_insert_ne in Hk.
        -- right. exists b'. split; [by apply list_elem_of_further|done].
      * intros [Hk|(b' & Hb' & Hname & Hst)].
        -- left. destruct (decide (name b = k)) as [<-|Hne].
           ++ by rewrite lookup_insert_eq.
           ++ by rewrite lookup_insert_ne.
        -- apply elem_of_cons in Hb' as [->|Hb'].
           ++ left. rewrite <- Hname. by rewrite lookup_insert_eq.
           ++ right. by exists b'.
    + subst results1. split.
      * intros [Hk|(b' & Hb' & Hname & Hst)]; [by left|].
        right. exists b'. split; [by apply list_elem_of_further|done].
      * intros [Hk|(b' & Hb' & Hname & Hst)]; [by left|].
        apply elem_of_cons in Hb' as [->|Hb']; [congruence|].
        right. by exists b'.
Qed.

(** X21.  When no live query fails with a message that is taken for a
    retirement, the collector never aborts, whatever else the live queries
    do, and its results have an entry for a name exactly when some listed
    backend of that name returned properties without a [cx] gate; backends
    that fail, have no properties or list a [cx] gate leave no entry.  The
    results are written to one JSON file, named after the time of the
    write. *)
Theorem collector_entries backends w :
  Forall (λ b, retires b = false) backends →
  ∃ results w',
    get_all_backend_errors format_float py_str FakeOslo strftime_now
      backends w
    = (Ok results, w') ∧
    (∀ k, is_Some (results !! k) ↔
          ∃ b, b ∈ backends ∧ name b = k ∧ stored b = true) ∧
    files w' = files w ++
      [([Lit "ibm_errors_"; FStr (strftime_now (clock_reads w));
         Lit ".json"], JsonDump results)].
Proof.
  intros Hall.
  destruct (backends_loop_stored backends ∅ w Hall)
    as (results & w1 & Hloop & Hfiles & Hclock & Hkeys).
  unfold get_all_backend_errors, mbind, M_bind. rewrite Hloop.
  cbn [strftime write_file mret M_ret].
  eexists _, _. split; [reflexivity|]. split.
  - intros k. rewrite Hkeys. split.
    + intros [Hk|H]; [|done]. rewrite lookup_empty in Hk.
      by destruct Hk.
    + intros H. by right.
  - cbn [files]. by rewrite Hfiles, Hclock.
Qed.

(** X22.  Once status and properties of a backend are available, the loop
    body stores a record or skips the backend by the gate list alone,
    whatever the metric getters do.  A backend that lists a [cx] gate is
    logged with the missing attribute and left out.  A backend that lists
    none gets a record with the status fields and the update date as
    reported, one qubit entry per qubit in the order of the indices, and no
    gate entry: no record of the live path ever holds a gate. *)
Theorem live_backend_record results b w st props :
  status b = Ok st →
  get_properties b = Ok (Some props) →
  ∃ rec,
    operational rec = s_operational st ∧
    pending_jobs rec = s_pending_jobs st ∧
    last_update rec = Some (last_update_date props) ∧
    e_qubit <$> qubits rec = Some <$> py_range (num_qubits b) ∧
    cx_gates rec = [] ∧
    try_except (collect_live format_float py_str results b)
               (on_error format_float FakeOslo results b) w
    = if lists_cx props
      then (Ok results,
            add_stdout
              [ [Lit nl; Lit "Processing "; FStr (name b); Lit "..."];
                [Lit "Error processing "; FStr (name b); Lit ": ";
                 FStr "Attribute gate_length is not defined"] ] w)
      else (Ok (<[name b := rec]> results),
            add_stdout
              [[Lit nl; Lit "Processing "; FStr (name b); Lit "..."]] w).
Proof.
  intros Hst Hprops.
  exists (live_record format_float py_str b st props).
  cbn [live_record operational pending_jobs last_update qubits cx_gates].
  split; [done|]. split; [done|]. split; [done|]. split; [|split; [done|]].
  - rewrite <- !list_fmap_compose. done.
  - unfold try_except.
    rewrite (collect_live_eval _ _ _ _ _ _ _ Hst Hprops).
    destruct (lists_cx props); [|done].
    unfold on_error, mbind, M_bind. rewrite print_eval.
    rewrite attr_undefined_not_retired. cbn [mret M_ret].
    by rewrite add_stdout_app.
Qed.

(** X23.  When every T1, T2 and readout getter of a substitute backend
    returns a float, [get_fake_backend_data] first builds one entry per
    qubit: a T1 or T2 of zero is reported as "N/A" (the live path would
    format it), any other value in [.2e] format, the readout error in [.4f]
    format, and neither qubit index nor frequency.  It then returns only if
    the snapshot lists no [cx] gate, with a record that is marked not
    operational, with no pending jobs, no update date and no gate entry; on
    a snapshot with a [cx] gate it raises [AttributeError]. *)
Theorem get_fake_backend_data_record fake props (x1 x2 x3 : Z → float) :
  fake_properties fake = Ok props →
  (∀ q, 0 ≤ q < fake_num_qubits fake →
        t1 props q = Ok (PFloat (x1 q)) ∧
        t2 props q = Ok (PFloat (x2 q)) ∧
        readout_error props q = Ok (PFloat (x3 q))) →
  ∃ entries,
    length entries = Z.to_nat (fake_num_qubits fake) ∧
    (∀ q entry, 0 ≤ q → entries !! Z.to_nat q = Some entry →
       e_qubit entry = None ∧ e_frequency entry = None ∧
       e_T1 entry = (if truthy (PFloat (x1 q))
                     then format_float ".2e" (x1 q) else "N/A"%string) ∧
       e_T2 entry = (if truthy (PFloat (x2 q))
                     then format_float ".2e" (x2 q) else "N/A"%string) ∧
       e_readout_error entry = format_float ".4f" (x3 q) ∧
       safe_get format_float py_str (t1 props) q
         = format_float ".2e" (x1 q)) ∧
    get_fake_backend_data format_float fake
    = if lists_cx props
      then Raise (Exn AttributeError "Attribute error is not defined")
      else Ok (DeviceRecord false 0 entries [] None).
Proof.
  intros Hprops Hget. eexists. split; [|split]; cycle 2.
  - unfold get_fake_backend_data. unfold mbind at 1, res_bind at 1.
    rewrite Hprops. unfold mbind at 1, res_bind at 1.
    rewrite (fake_qubit_entries _ _ _ x1 x2 x3 Hget).
    destruct (lists_cx props) eqn:Hcx; unfold lists_cx in Hcx.
    + destruct (filter_cons_existsb _ _ Hcx) as (g & gs & ->).
      cbn [res_map]. unfold mbind at 1, res_bind at 1.
      unfold mbind at 1, res_bind at 1. by rewrite gate_getattr_error.
    + rewrite (filter_nil_existsb _ _ Hcx). reflexivity.
  - by rewrite length_fmap, length_py_range.
  - intros q entry Hq Hentry.
    apply list_lookup_fmap_Some in Hentry as (q' & -> & Hq').
    assert (q' = q) as ->.
    { unfold py_range in Hq'.
      change (List.map Z.of_nat ?l) with (Z.of_nat <$> l) in Hq'.
      apply list_lookup_fmap_Some in Hq' as (k & -> & Hk).
      apply lookup_seq in Hk as [-> _]. lia. }
    cbn. repeat split.
    assert (0 ≤ q < fake_num_qubits fake) as Hrange.
    { apply lookup_lt_Some in Hq'. rewrite length_py_range in Hq'. lia. }
    destruct (Hget q Hrange) as (H1 & _ & _).
    unfold safe_get. by rewrite H1.
Qed.

End CollectorFacts.

(** ** Instances *)

Section Bv19998Witnesses.
Import BvLarge BvLargeRun Examples MoreExamples.

Lemma estimate_truncates_toward_zero_witness :
  ∃ t w',
    estimate_sabre_performance frozen_clock meta_negative large_coupling_map
      world0
    = (Ok (-3, -12, t), w') ∧
    Z.quot (-5 * 2) 3 = Z.sgn (-5) * (Z.abs (-5) * 2 / 3).
Proof.
  apply (estimate_truncates_toward_zero frozen_clock meta_negative
           large_coupling_map world0).
  vm_compute. split; discriminate.
Defined.

Lemma estimate_overflows_witness :
  estimate_sabre_performance frozen_clock meta_beyond large_coupling_map
    world0
  = (Raise (Exn OverflowError
              "integer division result too large for a float"),
     tick_clock 1 world0).
Proof.
  apply (estimate_overflows frozen_clock meta_beyond large_coupling_map
           world0).
  vm_compute. discriminate.
Defined.

Lemma estimate_monotone_witness :
  ∃ s1 d1 t1 w1' s2 d2 t2 w2',
    estimate_sabre_performance frozen_clock meta_9 large_coupling_map world0
      = (Ok (s1, d1, t1), w1') ∧
    estimate_sabre_performance frozen_clock meta_10 large_coupling_map world0
      = (Ok (s2, d2, t2), w2') ∧
    s1 ≤ s2 ∧
    (depth meta_9 ≤ depth meta_10 → d1 ≤ d2).
Proof.
  apply (estimate_monotone frozen_clock meta_9 meta_10 large_coupling_map
           world0 world0).
  - vm_compute. split; discriminate.
  - vm_compute. discriminate.
Defined.

Lemma generated_hidden_string_shape_witness :
  ∃ meta,
    create_large_bv_circuit (λ _ _ _, [3; 17]) 20 None world0
      = (Ok meta, tick_rng 1 world0) ∧
    String.length (hidden_string meta) = Z.to_nat 20 ∧
    ∀ i, 0 ≤ i < 20 →
      String.get (Z.to_nat i) (hidden_string meta)
      = Some (if bool_decide (i ∈ [3; 17]) then "1" else "0")%char.
Proof.
  apply (generated_hidden_string_shape (λ _ _ _, [3; 17]) 20 world0).
  - lia.
  - repeat constructor; lia.
Defined.

Lemma create_large_bv_circuit_negative_witness :
  create_large_bv_circuit first_positions (-1) None world0
  = (Raise (Exn ValueError "Sample larger than population or is negative"),
     world0).
Proof.
  apply (create_large_bv_circuit_negative first_positions (-1) world0). lia.
Defined.

Lemma small_circuit_matches_metadata_witness :
  ∃ qc meta,
    create_small_test_circuit all_ones 5 (Some "10100"%string) world0
      = (Ok qc, world0) ∧
    create_large_bv_circuit first_positions 5 (Some "10100"%string) world0
      = (Ok meta, world0) ∧
    count_ops "cx" qc = num_cx meta ∧
    count_ops "h" qc = 2 * 5 + 1 ∧
    count_ops "cx" qc + count_ops "h" qc = total_gates meta ∧
    count_ops "measure" qc = 5 ∧
    Z.of_nat (length (data qc)) = total_gates meta + 5 ∧
    count_swaps qc = 0.
Proof.
  apply (small_circuit_matches_metadata all_ones first_positions 5 "10100"
           world0).
  - lia.
  - vm_compute. discriminate.
Defined.

Lemma benchmark_large_aborts_on_error_witness :
  ∃ w',
    benchmark_large_bv frozen_clock first_positions all_ones
      (failing_pm layout_failed) no_depth world0
    = (Raise layout_failed, w') ∧
    pm_calls w' = S (pm_calls world0) ∧
    matmuls w' = matmuls world0 ∧
    files w' = files world0.
Proof.
  apply (benchmark_large_aborts_on_error frozen_clock first_positions
           all_ones (failing_pm layout_failed) no_depth 5 [10; 20]
           large_range world0 layout_failed).
  - lia.
  - intros qc. reflexivity.
Defined.

Lemma NoDup_py_range k : NoDup (py_range k).
Proof.
  unfold py_range. change (List.map Z.of_nat ?l) with (Z.of_nat <$> l).
  apply NoDup_fmap_2; [apply _|]. apply NoDup_seq.
Qed.

Lemma first_positions_contract (j : nat) n :
  1 ≤ n → sample_contract n (n / 10) (first_positions j n (n / 10)).
Proof.
  intros Hn. unfold sample_contract, first_positions.
  split; [apply NoDup_py_range|]. split; [apply length_py_range|].
  eapply Forall_impl; [apply py_range_indices|]. cbn. intros p Hp.
  assert (n / 10 ≤ n) by (apply Z.div_le_upper_bound; lia). lia.
Qed.

Lemma benchmark_large_sweep_rows_witness :
  ∃ measured estimated w',
    benchmark_large_bv frozen_clock first_positions all_ones identity_pm
      no_depth world0
    = (Ok (measured ++ estimated), w') ∧
    Forall2 (λ n r, ∃ s t d0 d, r = Measured n s t d0 d ∧ 0 ≤ s)
            [5; 10; 20] measured ∧
    Forall2 (λ n r, ∃ t, r = Estimated n (n / 10 * 2 / 3) t (2 + n / 10)
                               (2 + n / 10 + 3 * (n / 10 * 2 / 3)))
            [1000; 5000; 10000; 15000; 19998] estimated ∧
    pm_calls w' = (3 + pm_calls world0)%nat ∧
    files w' = files world0.
Proof.
  apply (benchmark_large_sweep_rows frozen_clock first_positions all_ones
           identity_pm no_depth small_range large_range world0).
  - repeat constructor; lia.
  - repeat constructor; try lia; vm_compute; discriminate.
  - intros j qc. by eexists.
  - exact first_positions_contract.
Defined.

(** The rows of [benchmark_large_bv] for this sampler and optimizer. *)
Example benchmark_large_bv_table :
  fst (benchmark_large_bv frozen_clock first_positions all_ones identity_pm
         no_depth world0)
  = Ok [ Measured 5 0 fzero 0 0; Measured 10 0 fzero 0 0;
         Measured 20 0 fzero 0 0;
         Estimated 1000 66 fzero 102 300;
         Estimated 5000 333 fzero 502 1501;
         Estimated 10000 666 fzero 1002 3000;
         Estimated 15000 1000 fzero 1502 4502;
         Estimated 19998 1332 fzero 2001 5997 ].
Proof. vm_compute. reflexivity. Qed.

End Bv19998Witnesses.

Section BvAlgoWitnesses.
Import BvAlgo Examples MoreExamples.

Lemma create_bv_circuit_generated_witness :
  ∃ qc hs,
    create_bv_circuit all_ones 3 None world0
      = (Ok (qc, hs), tick_rng 3 world0) ∧
    String.length hs = 3%nat ∧
    count_ops "x" qc = 1 ∧
    count_ops "h" qc = 2 * 3 + 1 ∧
    count_ops "cx" qc = str_count "1" hs ∧
    count_ops "measure" qc = 3 ∧
    count_swaps qc = 0 ∧
    size qc = 3 * 3 + 2 + str_count "1" hs.
Proof.
  apply (create_bv_circuit_generated all_ones 3 world0). lia.
Defined.

Lemma create_bv_circuit_supplied_witness :
  ∃ qc,
    create_bv_circuit all_ones 2 (Some "101"%string) world0
      = (Ok (qc, "101"%string), world0) ∧
    count_ops "cx" qc = str_count "1" (str_take 2 "101") ∧
    size qc = 3 * 2 + 2 + str_count "1" (str_take 2 "101") ∧
    count_swaps qc = 0.
Proof.
  apply (create_bv_circuit_supplied all_ones 2 "101" world0).
  vm_compute. split; discriminate.
Defined.

Lemma create_bv_circuit_short_string_witness :
  create_bv_circuit all_ones 3 (Some "10"%string) world0
  = (Raise (Exn IndexError "string index out of range"), world0).
Proof.
  apply (create_bv_circuit_short_string all_ones 3 "10" world0).
  vm_compute. reflexivity.
Defined.

Lemma bv_sweep_records_wellformed_witness :
  ∃ r w',
    benchmark_bv_circuits frozen_clock all_ones identity_pm no_depth []
      naive_sum world0 = (r, w') ∧
    ∀ results, r = Ok results →
      Forall (bv_record_ok qubit_range num_circuits_per_size) results.
Proof.
  apply (bv_sweep_records_wellformed frozen_clock all_ones identity_pm
           no_depth [] naive_sum qubit_range num_circuits_per_size world0).
  repeat constructor; lia.
Defined.

Lemma bv_sweep_accounts_for_every_configuration_witness :
  ∃ out r w',
    benchmark_bv_circuits frozen_clock all_ones scripted_pm no_depth []
      naive_sum world0 = (r, w') ∧
    stdout w' = stdout world0 ++ out ∧
    pm_calls w' = (10 * 5 + pm_calls world0)%nat ∧
    ∀ results, r = Ok results →
      (length results + count_error_lines out = 10 * 5)%nat.
Proof.
  apply (bv_sweep_accounts_for_every_configuration frozen_clock all_ones
           scripted_pm no_depth [] naive_sum qubit_range
           num_circuits_per_size world0).
  repeat constructor; lia.
Defined.

Lemma bv_sweep_saves_results_witness :
  ∃ results r w',
    benchmark_bv_circuits frozen_clock all_ones scripted_pm no_depth []
      naive_sum world0 = (r, w') ∧
    files w' = files world0 ++
      [([Lit "bv_benchmark_results.txt"],
        DictLines (record_repr <$> results))] ∧
    (r = Ok results ∨ ∃ e, r = Raise e ∧ exn_cls e = OverflowError).
Proof.
  apply (bv_sweep_saves_results frozen_clock all_ones scripted_pm no_depth
           [] naive_sum qubit_range num_circuits_per_size world0).
  repeat constructor; lia.
Defined.

Lemma bv_sweep_all_fail_witness :
  ∃ out w',
    benchmark_bv_circuits frozen_clock all_ones (failing_pm layout_failed)
      no_depth [] naive_sum world0 = (Ok [], w') ∧
    files w' = files world0 ++
      [([Lit "bv_benchmark_results.txt"], DictLines [])] ∧
    stdout w' = stdout world0 ++ out ∧
    count_error_lines out = (10 * 5)%nat ∧
    last out = Some [Lit nl; Lit "Summary Statistics:"].
Proof.
  apply (bv_sweep_all_fail frozen_clock all_ones (failing_pm layout_failed)
           no_depth [] naive_sum qubit_range num_circuits_per_size world0).
  - repeat constructor; lia.
  - intros j cm qc. by eexists.
Defined.

(** The scripted optimizer answers three times: the sweep keeps three
    records and logs 47 errors. *)
Example bv_sweep_three_records :
  let '(r, w') :=
    benchmark_bv_circuits frozen_clock all_ones scripted_pm no_depth []
      naive_sum world0 in
  (∃ results, r = Ok results ∧ length results = 3%nat) ∧
  count_error_lines (stdout w') = 47%nat.
Proof. vm_compute. split; [eexists; split; reflexivity|reflexivity]. Qed.

End BvAlgoWitnesses.

Section QvWitnesses.
Import Qv Examples MoreExamples.

Lemma qv_seeds_distinct_witness : qv_seed 10 15 3 ≠ qv_seed 15 10 3.
Proof.
  apply (qv_seeds_distinct qubit_range depth_range num_circuits_per_config
           (10, 15, 3) (15, 10, 3)).
  - repeat constructor; lia.
  - vm_compute. discriminate.
  - apply elem_of_qv_configurations.
    repeat split; apply list_elem_of_In; vm_compute; tauto.
  - apply elem_of_qv_configurations.
    repeat split; apply list_elem_of_In; vm_compute; tauto.
  - discriminate.
Defined.

Lemma transpile_with_sabre_trial_raises_witness :
  transpile_with_sabre frozen_clock scripted_pm trial_a [] 5 world0
  = (Raise (Exn ExternalError "no more trials"),
     tick_pm 4 (tick_clock 1 world0)).
Proof.
  apply (transpile_with_sabre_trial_raises frozen_clock scripted_pm trial_a
           [] 5 world0 trials).
  - vm_compute. reflexivity.
  - intros [|[|[|j]]] c; cbn; intros [= <-]; reflexivity.
  - reflexivity.
Defined.

Lemma qv_sweep_all_return_witness :
  let confs :=
    qv_configurations qubit_range depth_range num_circuits_per_config in
  ∃ results w',
    benchmark_qv_circuits frozen_clock swap_adding_pm no_depth [] empty_qv
      world0
    = (Ok results, w') ∧
    length results = length confs ∧
    (∀ (i : nat) n d idx, confs !! i = Some (n, d, idx) →
       ∃ r tqc,
         results !! i = Some r ∧
         swap_adding_pm (pm_calls world0 + i)%nat []
           (empty_qv n d (qv_seed n d idx)) = Ok tqc ∧
         r_qubits r = n ∧ r_depth r = d ∧ r_circuit_idx r = idx ∧
         r_original_depth r = no_depth (empty_qv n d (qv_seed n d idx)) ∧
         r_swap_count r = Count (count_ops "swap" tqc) ∧
         r_transpiled_depth r = no_depth tqc) ∧
    pm_calls w' = (length confs + pm_calls world0)%nat ∧
    files w' = files world0 ++
      [([Lit "qv_benchmark_results.txt"],
        DictLines (record_repr <$> results))].
Proof.
  apply (qv_sweep_all_return frozen_clock swap_adding_pm no_depth []
           empty_qv qubit_range depth_range num_circuits_per_config world0).
  intros j cm qc. by eexists.
Defined.

(** With an optimizer that appends one swap, every record counts one. *)
Example qv_sweep_counts_one_swap :
  match fst (benchmark_qv_sweep frozen_clock swap_adding_pm no_depth []
               empty_qv [2; 3] [1] 1 world0) with
  | Ok results => r_swap_count <$> results
  | Raise _ => []
  end = [Count 1; Count 1].
Proof. vm_compute. reflexivity. Qed.

End QvWitnesses.

Section CollectorWitnesses.
Import Calibration Examples MoreExamples.

Lemma on_error_never_stores_witness :
  let w' := add_stdout [[Lit "Error processing "; FStr (name retired_backend);
                         Lit ": "; FStr (exn_msg retired_exn)]] world0 in
  (¬ contains_ci "retired" (exn_msg retired_exn) →
   on_error show_float fake_oslo ∅ retired_backend retired_exn world0
   = (Ok ∅, w')) ∧
  (contains_ci "retired" (exn_msg retired_exn) →
   ∃ e', on_error show_float fake_oslo ∅ retired_backend retired_exn world0
         = (Raise e', w')).
Proof.
  apply (on_error_never_stores show_float fake_oslo ∅ retired_backend
           retired_exn world0 oslo_props); reflexivity.
Defined.

Lemma collector_entries_witness :
  ∃ results w',
    get_all_backend_errors show_float show_val fake_oslo stamp
      [ecr_backend; cx_backend] world0
    = (Ok results, w') ∧
    (∀ k, is_Some (results !! k) ↔
          ∃ b, b ∈ [ecr_backend; cx_backend] ∧ name b = k ∧
               stored b = true) ∧
    files w' = files world0 ++
      [([Lit "ibm_errors_"; FStr (stamp (clock_reads world0));
         Lit ".json"], JsonDump results)].
Proof.
  apply (collector_entries show_float show_val fake_oslo stamp
           [ecr_backend; cx_backend] world0).
  repeat constructor.
Defined.

Lemma live_backend_record_witness :
  ∃ rec,
    operational rec = true ∧
    pending_jobs rec = 5 ∧
    last_update rec = Some (last_update_date ecr_props) ∧
    e_qubit <$> qubits rec = Some <$> py_range (num_qubits ecr_backend) ∧
    cx_gates rec = [] ∧
    try_except (collect_live show_float show_val ∅ ecr_backend)
               (on_error show_float fake_oslo ∅ ecr_backend) world0
    = if lists_cx ecr_props
      then (Ok ∅,
            add_stdout
              [ [Lit nl; Lit "Processing "; FStr (name ecr_backend);
                 Lit "..."];
                [Lit "Error processing "; FStr (name ecr_backend); Lit ": ";
                 FStr "Attribute gate_length is not defined"] ] world0)
      else (Ok (<[name ecr_backend := rec]> ∅),
            add_stdout
              [[Lit nl; Lit "Processing "; FStr (name ecr_backend);
                Lit "..."]] world0).
Proof.
  apply (live_backend_record show_float show_val fake_oslo ∅ ecr_backend
           world0 (BackendStatus true 5) ecr_props); reflexivity.
Defined.

Lemma get_fake_backend_data_record_witness :
  ∃ entries,
    length entries = Z.to_nat (fake_num_qubits fake_oslo) ∧
    (∀ q entry, 0 ≤ q → entries !! Z.to_nat q = Some entry →
       e_qubit entry = None ∧ e_frequency entry = None ∧
       e_T1 entry = (if truthy (PFloat f_1_5)
                     then show_float ".2e" f_1_5 else "N/A"%string) ∧
       e_T2 entry = (if truthy (PFloat f_2_5)
                     then show_float ".2e" f_2_5 else "N/A"%string) ∧
       e_readout_error entry = show_float ".4f" f_1_5 ∧
       safe_get show_float show_val (t1 oslo_props) q
         = show_float ".2e" f_1_5) ∧
    get_fake_backend_data show_float fake_oslo
    = if lists_cx oslo_props
      then Raise (Exn AttributeError "Attribute error is not defined")
      else Ok (DeviceRecord false 0 entries [] None).
Proof.
  apply (get_fake_backend_data_record show_float show_val fake_oslo
           oslo_props (λ _, f_1_5) (λ _, f_2_5) (λ _, f_1_5)).
  - reflexivity.
  - intros q Hq. repeat split; reflexivity.
Defined.

(** On the snapshot with its [cx] gates the function raises. *)
Example fake_oslo_raises :
  get_fake_backend_data show_float fake_oslo
  = Raise (Exn AttributeError "Attribute error is not defined").
Proof. reflexivity. Qed.

(** A snapshot whose T1 is zero: "N/A" on the substitute path, a formatted
    number on the live path. *)
Example zero_T1_two_ways :
  let props :=
    Properties (λ _, Ok (PFloat fzero)) (λ _, Ok (PFloat f_2_5))
               (λ _, Ok (PFloat f_1_5)) (λ _, Ok (PFloat f_2_5)) [] None in
  get_fake_backend_data show_float (FakeBackend 1 (Ok props))
    = Ok (DeviceRecord false 0 [QubitEntry None "N/A" ".2e" ".4f" None] []
            None) ∧
  safe_get show_float show_val (t1 props) 0 = ".2e"%string.
Proof. split; reflexivity. Qed.

End CollectorWitnesses.

(** ** qft_10_20.py *)

Section QftCircuitFacts.
Import Qft.

(** The angles of all distances up to 1023 are exact: checked by
    evaluation. *)
Lemma angles_exact : forallb angle_exact (seq 1 1023) = true.
Proof. vm_compute. reflexivity. Qed.

Lemma angle_ok m :
  1 ≤ m ≤ 1023 →
  ∃ d, float_of_int (2 ^ m) = Ok d ∧ float_truediv pi d = Ok (angle m).
Proof.
  intros Hm. pose proof angles_exact as Hall.
  rewrite forallb_forall in Hall.
  specialize (Hall (Z.to_nat m)).
  assert (In (Z.to_nat m) (seq 1 1023)) as Hin by (apply in_seq; lia).
  specialize (Hall Hin). unfold angle_exact in Hall.
  rewrite Z2Nat.id in Hall by lia.
  destruct (float_of_int (2 ^ m)) as [d|e]; [|done].
  exists d. split; [done|].
  destruct (float_truediv pi d) as [[s|s| |[] p e]|e]; try done.
  apply andb_true_iff in Hall as [Hp He].
  apply Z.eqb_eq in Hp, He. unfold angle. by simplify_eq.
Qed.

(** The rotations onto qubit [j]. *)
Lemma qft_inner_loop j ks : ∀ qc w,
  Forall (λ k, 1 ≤ j - k ≤ 1023) ks →
  for_each ks
    (λ qc k,
       d ← lift (float_of_int (2 ^ (j - k)));
       theta ← lift (float_truediv pi d);
       mret (append_rot qc "cp" [theta] [k; j]))
    qc w
  = (Ok (RotCircuit (rot_qubits qc)
           (rot_data qc ++
            ((λ k, RotInstr "cp" [angle (j - k)] [k; j]) <$> ks))), w).
Proof.
  induction ks as [|k ks IH]; intros qc w Hks.
  - cbn [for_each fmap list_fmap mret M_ret]. rewrite app_nil_r.
    by destruct qc.
  - apply Forall_cons in Hks as [Hk Hks].
    destruct (angle_ok (j - k) Hk) as (d & Hd & Htheta).
    cbn [for_each]. unfold mbind at 1, M_bind at 1.
    unfold mbind at 1, M_bind at 1, lift at 1. rewrite Hd.
    unfold mbind at 1, M_bind at 1, lift at 1. rewrite Htheta.
    cbn [mret M_ret]. rewrite IH by done.
    unfold append_rot. cbn [rot_qubits rot_data fmap list_fmap].
    by rewrite <- app_assoc.
Qed.

(** The loop over the qubits. *)
Lemma qft_outer_loop js : ∀ qc w,
  Forall (λ j, 0 ≤ j ≤ 1023) js →
  for_each js
    (λ qc j,
       qc ← for_each (py_range j)
              (λ qc k,
                 d ← lift (float_of_int (2 ^ (j - k)));
                 theta ← lift (float_truediv pi d);
                 mret (append_rot qc "cp" [theta] [k; j]))
              qc;
       mret (append_rot qc "h" [] [j]))
    qc w
  = (Ok (RotCircuit (rot_qubits qc)
           (rot_data qc ++
            (js ≫= λ j,
               ((λ k, RotInstr "cp" [angle (j - k)] [k; j]) <$> py_range j)
               ++ [RotInstr "h" [] [j]]))), w).
Proof.
  induction js as [|j js IH]; intros qc w Hjs.
  - cbn [for_each mret M_ret]. change ([] ≫= _) with (@nil rot_instruction).
    rewrite app_nil_r. by destruct qc.
  - apply Forall_cons in Hjs as [Hj Hjs].
    cbn [for_each]. unfold mbind at 1, M_bind at 1.
    unfold mbind at 1, M_bind at 1.
    rewrite qft_inner_loop.
    2:{ eapply Forall_impl; [apply py_range_indices|]. cbn. lia. }
    cbn [mret M_ret]. rewrite IH by done.
    unfold append_rot. cbn [rot_qubits rot_data].
    by rewrite bind_cons, <- !app_assoc.
Qed.

Lemma py_range_succ (k : nat) :
  py_range (Z.of_nat (S k)) = py_range (Z.of_nat k) ++ [Z.of_nat k].
Proof.
  unfold py_range. rewrite !Nat2Z.id, seq_S, List.map_app. done.
Qed.

Lemma length_qft_ops (k : nat) :
  (2 * length (qft_ops (Z.of_nat k)) = k * (k + 1))%nat.
Proof.
  unfold qft_ops. induction k as [|k IH]; [done|].
  rewrite py_range_succ, bind_app, length_app, bind_singleton.
  rewrite length_app, length_fmap, length_py_range, Nat2Z.id. cbn [length].
  lia.
Qed.

(** X24.  For [0 <= n <= 1024], [create_qft_circuit] returns the circuit on
    [n] qubits whose operations are, for each qubit [j] in turn, the
    controlled rotations from the qubits [k < j] and then the Hadamard gate
    on [j]; the angle of the rotation from [k] onto [j] is the double
    [pi / 2^(j - k)], computed without rounding; the circuit has
    [n * (n + 1) / 2] operations. *)
Theorem create_qft_circuit_ops n w :
  0 ≤ n ≤ 1024 →
  create_qft_circuit n w = (Ok (RotCircuit n (qft_ops n)), w) ∧
  2 * Z.of_nat (length (qft_ops n)) = n * (n + 1).
Proof.
  intros Hn. split.
  - unfold create_qft_circuit, new_rot_circuit.
    replace (n <? 0) with false by (symmetry; apply Z.ltb_ge; lia).
    unfold mbind at 1, M_bind at 1. cbn [mret M_ret].
    rewrite qft_outer_loop; [done|].
    eapply Forall_impl; [apply py_range_indices|]. cbn. lia.
  - pose proof (length_qft_ops (Z.to_nat n)) as Hlen.
    rewrite Z2Nat.id in Hlen by lia. lia.
Qed.

Lemma float_of_int_pow_1024 :
  float_of_int (2 ^ 1024)
  = Raise (Exn OverflowError "int too large to convert to float").
Proof. vm_compute. reflexivity. Qed.

(** X25.  Beyond 1024 qubits [create_qft_circuit] fails: the rotation from
    qubit 0 onto qubit 1024 needs [float(2**1024)], which raises
    [OverflowError]. *)
Theorem create_qft_circuit_overflows n w :
  1025 ≤ n →
  create_qft_circuit n w
  = (Raise (Exn OverflowError "int too large to convert to float"), w).
Proof.
  intros Hn. unfold create_qft_circuit, new_rot_circuit.
  replace (n <? 0) with false by (symmetry; apply Z.ltb_ge; lia).
  unfold mbind at 1, M_bind at 1. cbn [mret M_ret].
  destruct (py_range_split 1024 n) as (rest & ->); [lia|].
  rewrite for_each_app, qft_outer_loop.
  2:{ eapply Forall_impl; [apply py_range_indices|]. cbn. lia. }
  destruct (py_range_split 0 1024) as (rest' & Hsplit); [lia|].
  change (py_range 0) with (@nil Z) in Hsplit.
  cbn [for_each]. unfold mbind at 1, M_bind at 1.
  rewrite Hsplit. cbn [app for_each].
  unfold mbind at 1, M_bind at 1. unfold mbind at 1, M_bind at 1.
  unfold mbind at 1, M_bind at 1, lift at 1.
  change (1024 - 0) with 1024. rewrite float_of_int_pow_1024. reflexivity.
Qed.

End QftCircuitFacts.

Section QftSweepFacts.
Import Qft.
Context (now : nat → float)
        (pm_run : nat → coupling_map → rot_circuit → res rot_circuit)
        (circuit_depth : rot_circuit → Z) (washington : coupling_map).

(** A loop whose body leaves the world alone leaves it alone. *)
Lemma for_each_pure {A S} (xs : list A) (body : S → A → M S) :
  (∀ acc x w, ∃ r, body acc x w = (r, w)) →
  ∀ acc w, ∃ r, for_each xs body acc w = (r, w).
Proof.
  intros Hbody. induction xs as [|x xs IH]; intros acc w.
  - by exists (Ok acc).
  - cbn [for_each]. unfold mbind, M_bind.
    destruct (Hbody acc x w) as ([acc'|e] & ->); [apply IH|by eexists].
Qed.

Lemma create_qft_circuit_pure n w :
  ∃ r, create_qft_circuit n w = (r, w).
Proof.
  unfold create_qft_circuit, new_rot_circuit.
  unfold mbind at 1, M_bind at 1.
  destruct (n <? 0); [by eexists|]. cbn [mret M_ret].
  apply for_each_pure. intros qc j w'.
  unfold mbind at 1, M_bind at 1.
  edestruct (for_each_pure (py_range j)
               (λ qc k,
                  d ← lift (float_of_int (2 ^ (j - k)));
                  theta ← lift (float_truediv pi d);
                  mret (append_rot qc "cp" [theta] [k; j])))
    as ([qc'|e] & ->); [|by eexists..].
  intros acc k w''. unfold mbind, M_bind, lift.
  destruct (float_of_int (2 ^ (j - k))) as [d|e]; [|by eexists].
  destruct (float_truediv pi d) as [theta|e]; by eexists.
Qed.

(** One size of the script: five result lines, or one error line. *)
Lemma qft_body_outcome cm n w :
  ∃ out w',
    qft_body now pm_run circuit_depth cm n w = (Ok tt, w') ∧
    stdout w' = stdout w ++ out ∧
    files w' = files w ∧
    (length out = 5%nat ∨ length out = 1%nat) ∧
    (0 ≤ n ≤ 1024 → pm_calls w' = S (pm_calls w)).
Proof.
  unfold qft_body, try_except. unfold mbind at 1, M_bind at 1.
  destruct (create_qft_circuit_pure n w) as (r & Hr). rewrite Hr.
  destruct r as [qc|e].
  - unfold mbind at 1, M_bind at 1.
    unfold transpile_with_sabre, mbind at 1, M_bind at 1.
    cbn [time_time]. unfold mbind at 1, M_bind at 1.
    unfold rot_pass_manager_run at 1. cbn [pm_calls].
    destruct (pm_run (pm_calls w) cm qc) as [tqc|e].
    + unfold mbind, M_bind. cbn [time_time mret M_ret].
      rewrite !print_eval.
      eexists _, _. split; [reflexivity|]. split.
      { cbn [stdout add_stdout]. rewrite <- !app_assoc. reflexivity. }
      split; [done|]. split; [by left|done].
    + rewrite print_eval.
      eexists _, _. split; [reflexivity|]. split; [reflexivity|].
      split; [done|]. split; [by right|done].
  - rewrite print_eval.
    eexists _, _. split; [reflexivity|]. split; [reflexivity|].
    split; [done|]. split; [by right|].
    intros Hn. destruct (create_qft_circuit_ops n w Hn) as [Hok _].
    congruence.
Qed.

(** X26.  The Quantum Fourier Transform script never aborts, whatever the
    optimizer does: every size is processed, and prints either its five
    result lines or one error line; for sizes in [[0, 1024]] the optimizer
    is called once per size.  No file is written. *)
Theorem qft_sweep_never_aborts sizes w :
  ∃ (failed : nat) out w',
    qft_sweep now pm_run circuit_depth washington sizes w = (Ok tt, w') ∧
    stdout w' = stdout w ++ out ∧
    files w' = files w ∧
    (failed ≤ length sizes)%nat ∧
    length out = (5 * (length sizes - failed) + failed)%nat ∧
    (Forall (λ n, 0 ≤ n ≤ 1024) sizes →
     pm_calls w' = (length sizes + pm_calls w)%nat).
Proof.
  unfold qft_sweep. revert w.
  induction sizes as [|n sizes IH]; intros w.
  - exists 0%nat, [], w. rewrite app_nil_r. by repeat split.
  - destruct (qft_body_outcome washington n w)
      as (out1 & w1 & Hone & Hout1 & Hfiles1 & Hlen1 & Hpm1).
    destruct (IH w1) as (failed & out & w' & Hloop & Hout & Hfiles & Hle
                         & Hlen & Hpm).
    cbn [for_each]. unfold mbind, M_bind. rewrite Hone, Hloop.
    destruct Hlen1 as [Hlen1|Hlen1].
    + exists failed, (out1 ++ out), w'. split; [done|].
      split; [by rewrite Hout, Hout1, app_assoc|]. split; [congruence|].
      split; [cbn [length]; lia|]. split.
      * rewrite length_app, Hlen1, Hlen. cbn [length]. lia.
      * intros [Hn Hall]%Forall_cons.
        rewrite (Hpm Hall), (Hpm1 Hn). cbn [length]. lia.
    + exists (S failed), (out1 ++ out), w'. split; [done|].
      split; [by rewrite Hout, Hout1, app_assoc|]. split; [congruence|].
      split; [cbn [length]; lia|]. split.
      * rewrite length_app, Hlen1, Hlen. cbn [length]. lia.
      * intros [Hn Hall]%Forall_cons.
        rewrite (Hpm Hall), (Hpm1 Hn). cbn [length]. lia.
Qed.

End QftSweepFacts.

Section QftWitnesses.
Import Qft Examples.

Lemma create_qft_circuit_ops_witness :
  create_qft_circuit 3 world0 = (Ok (RotCircuit 3 (qft_ops 3)), world0) ∧
  2 * Z.of_nat (length (qft_ops 3)) = 3 * (3 + 1).
Proof. apply (create_qft_circuit_ops 3 world0). lia. Defined.

Lemma create_qft_circuit_overflows_witness :
  create_qft_circuit 1025 world0
  = (Raise (Exn OverflowError "int too large to convert to float"), world0).
Proof. apply (create_qft_circuit_overflows 1025 world0). lia. Defined.

(** The sizes of the script. *)
Example qft_sizes :
  py_range2 10 21 = [10; 11; 12; 13; 14; 15; 16; 17; 18; 19; 20].
Proof. reflexivity. Qed.

(** The transform on three qubits: the angles are pi/2, pi/4 and pi/2. *)
Example qft_ops_3 :
  qft_ops 3
  = [ RotInstr "h" [] [0];
      RotInstr "cp" [S754_finite false 7074237752028440 (-52)] [0; 1];
      RotInstr "h" [] [1];
      RotInstr "cp" [S754_finite false 7074237752028440 (-53)] [0; 2];
      RotInstr "cp" [S754_finite false 7074237752028440 (-52)] [1; 2];
      RotInstr "h" [] [2] ].
Proof. reflexivity. Qed.

End QftWitnesses.

(** ** error_rate_one_machine.py *)

Section OneMachineFacts.
Import Calibration OneMachine.
Context (format_float : string → float → string).

(** A qubit whose three metrics are floats is reported in four lines. *)
Lemma qubit_report_ok p q w (x1 x2 x3 : float) :
  t1 p q = Ok (PFloat x1) → t2 p q = Ok (PFloat x2) →
  readout_error p q = Ok (PFloat x3) →
  ∃ out,
    qubit_report format_float (Some p) q w = (Ok tt, add_stdout out w) ∧
    length out = 4%nat.
Proof.
  intros H1 H2 H3. unfold qubit_report, mbind, M_bind, lift.
  cbn [props_attr]. rewrite H1, H2, H3. cbn [format_value].
  rewrite !print_eval, !add_stdout_app. by eexists.
Qed.

Lemma qubit_loop_ok p qs : ∀ w,
  Forall (λ q, ∃ x1 x2 x3 : float,
            t1 p q = Ok (PFloat x1) ∧ t2 p q = Ok (PFloat x2) ∧
            readout_error p q = Ok (PFloat x3)) qs →
  ∃ out,
    for_each qs (λ _ qubit, qubit_report format_float (Some p) qubit) tt w
    = (Ok tt, add_stdout out w) ∧
    length out = (4 * length qs)%nat.
Proof.
  induction qs as [|q qs IH]; intros w Hqs.
  - exists []. by rewrite add_stdout_nil.
  - apply Forall_cons in Hqs as [(x1 & x2 & x3 & H1 & H2 & H3) Hqs].
    destruct (qubit_report_ok p q w x1 x2 x3 H1 H2 H3)
      as (out1 & Hone & Hlen1).
    destruct (IH (add_stdout out1 w) Hqs) as (out & Hloop & Hlen).
    exists (out1 ++ out). cbn [for_each]. unfold mbind, M_bind.
    rewrite Hone, Hloop, add_stdout_app. split; [done|].
    rewrite length_app, Hlen1, Hlen. cbn [length]. lia.
Qed.

(** The parameter loop of a gate prints one line per [gate_error]
    parameter. *)
Lemma params_loop_ok g ps : ∀ w,
  Forall (λ prm, ∃ x : float, p_value prm = PFloat x)
         (List.filter (λ p, String.eqb (p_name p) "gate_error") ps) →
  ∃ out,
    for_each ps
      (λ _ param,
         if String.eqb (p_name param) "gate_error" then
           s ← lift (format_value format_float ".4f" (p_value param));
           print ([FStr (g_gate g); Lit " "] ++ ints_repr (g_qubits g)
                  ++ [Lit ": "; FStr s])
         else mret tt)
      tt w
    = (Ok tt, add_stdout out w) ∧
    length out
    = length (List.filter (λ p, String.eqb (p_name p) "gate_error") ps).
Proof.
  induction ps as [|prm ps IH]; intros w Hps.
  - exists []. by rewrite add_stdout_nil.
  - cbn [for_each List.filter] in Hps |- *. unfold mbind at 1, M_bind at 1.
    destruct (String.eqb (p_name prm) "gate_error").
    + apply Forall_cons in Hps as [(x & Hx) Hps].
      unfold mbind at 1, M_bind at 1, lift at 1. rewrite Hx.
      cbn [format_value]. rewrite print_eval.
      match goal with
      | |- context [for_each ps _ tt ?w0] =>
          destruct (IH w0 Hps) as (out & -> & Hlen)
      end.
      eexists. rewrite add_stdout_app. split; [reflexivity|].
      cbn [length app]. by rewrite Hlen.
    + cbn [mret M_ret]. by apply IH.
Qed.

Lemma gates_loop_ok gs : ∀ w,
  Forall (λ prm, ∃ x : float, p_value prm = PFloat x) (cx_error_params gs) →
  ∃ out,
    for_each gs (λ _ gate, gate_report format_float gate) tt w
    = (Ok tt, add_stdout out w) ∧
    length out = length (cx_error_params gs).
Proof.
  unfold cx_error_params.
  induction gs as [|g gs IH]; intros w Hgs.
  - exists []. by rewrite add_stdout_nil.
  - cbn [for_each List.filter] in Hgs |- *. unfold mbind at 1, M_bind at 1.
    unfold gate_report at 1.
    destruct (String.eqb (g_gate g) "cx").
    + rewrite bind_cons in Hgs |- *.
      apply Forall_app in Hgs as [Hg Hgs].
      destruct (params_loop_ok g (g_parameters g) w Hg)
        as (out1 & -> & Hlen1).
      destruct (IH (add_stdout out1 w) Hgs) as (out & -> & Hlen).
      exists (out1 ++ out). rewrite add_stdout_app. split; [done|].
      by rewrite !length_app, Hlen1, Hlen.
    + cbn [mret M_ret]. by apply IH.
Qed.

(** X27.  When the backend and its properties are available, every qubit
    metric is a float and every [gate_error] value of a [cx] gate is a
    float, the report script returns after printing three header lines, four
    lines per qubit, the gate header, and one line for every [gate_error]
    parameter of every [cx] gate (all of them, where the collector keeps
    the first only). *)
Theorem report_prints_everything b p w :
  get_properties b = Ok (Some p) →
  (∀ q, 0 ≤ q < num_qubits b →
        ∃ x1 x2 x3 : float,
          t1 p q = Ok (PFloat x1) ∧ t2 p q = Ok (PFloat x2) ∧
          readout_error p q = Ok (PFloat x3)) →
  Forall (λ prm, ∃ x : float, p_value prm = PFloat x)
         (cx_error_params (gates p)) →
  ∃ out,
    report format_float (Ok b) w = (Ok tt, add_stdout out w) ∧
    length out
    = (3 + 4 * Z.to_nat (num_qubits b) + 1
       + length (cx_error_params (gates p)))%nat.
Proof.
  intros Hprops Hqubits Hgates. unfold report.
  unfold mbind at 1, M_bind at 1, lift at 1.
  unfold mbind at 1, M_bind at 1, lift at 1. rewrite Hprops.
  unfold mbind at 1, M_bind at 1. rewrite print_eval.
  unfold mbind at 1, M_bind at 1. rewrite print_eval.
  unfold mbind at 1, M_bind at 1. rewrite print_eval.
  unfold mbind at 1, M_bind at 1.
  match goal with
  | |- context [for_each (py_range _) _ tt ?w0] =>
      destruct (qubit_loop_ok p (py_range (num_qubits b)) w0)
        as (out1 & -> & Hlen1)
  end.
  { eapply Forall_impl; [apply py_range_indices|]. cbn. apply Hqubits. }
  unfold mbind at 1, M_bind at 1. rewrite print_eval.
  unfold mbind at 1, M_bind at 1, lift at 1. cbn [props_attr].
  match goal with
  | |- context [for_each (gates p) _ tt ?w0] =>
      destruct (gates_loop_ok (gates p) w0 Hgates) as (out2 & -> & Hlen2)
  end.
  rewrite !add_stdout_app. eexists. split; [reflexivity|].
  rewrite !length_app, Hlen1, Hlen2, length_py_range. cbn [length]. lia.
Qed.

(** X28.  The report script has no protection around the metric getters:
    when the qubits below [q] have float metrics and the T1 getter raises
    for qubit [q], the script raises that exception after the three header
    lines and the four lines of each earlier qubit; no gate is reported. *)
Theorem report_aborts_on_failing_getter b p q e w :
  get_properties b = Ok (Some p) →
  0 ≤ q < num_qubits b →
  (∀ q', 0 ≤ q' < q →
         ∃ x1 x2 x3 : float,
           t1 p q' = Ok (PFloat x1) ∧ t2 p q' = Ok (PFloat x2) ∧
           readout_error p q' = Ok (PFloat x3)) →
  t1 p q = Raise e →
  ∃ out,
    report format_float (Ok b) w = (Raise e, add_stdout out w) ∧
    length out = (3 + 4 * Z.to_nat q)%nat.
Proof.
  intros Hprops Hq Hbefore Hfail. unfold report.
  unfold mbind at 1, M_bind at 1, lift at 1.
  unfold mbind at 1, M_bind at 1, lift at 1. rewrite Hprops.
  unfold mbind at 1, M_bind at 1. rewrite print_eval.
  unfold mbind at 1, M_bind at 1. rewrite print_eval.
  unfold mbind at 1, M_bind at 1. rewrite print_eval.
  unfold mbind at 1, M_bind at 1.
  destruct (py_range_split q (num_qubits b) Hq) as (rest & ->).
  rewrite for_each_app.
  match goal with
  | |- context [for_each (py_range q) _ tt ?w0] =>
      destruct (qubit_loop_ok p (py_range q) w0) as (out1 & -> & Hlen1)
  end.
  { eapply Forall_impl; [apply py_range_indices|]. cbn. apply Hbefore. }
  cbn [for_each]. unfold mbind at 1, M_bind at 1.
  unfold qubit_report at 1. unfold mbind at 1, M_bind at 1, lift at 1.
  cbn [props_attr]. unfold mbind at 1, M_bind at 1, lift at 1.
  rewrite Hfail. rewrite !add_stdout_app.
  eexists. split; [reflexivity|].
  rewrite !length_app, Hlen1, length_py_range. cbn [length]. lia.
Qed.

End OneMachineFacts.

Section OneMachineWitnesses.
Import Calibration OneMachine Examples.

Lemma report_prints_everything_witness :
  ∃ out,
    report show_float (Ok live_backend) world0
      = (Ok tt, add_stdout out world0) ∧
    length out
    = (3 + 4 * Z.to_nat (num_qubits live_backend) + 1
       + length (cx_error_params (gates good_props)))%nat.
Proof.
  apply (report_prints_everything show_float live_backend good_props world0).
  - reflexivity.
  - intros q _. by eexists _, _, _.
  - repeat constructor. by eexists.
Defined.

Lemma report_aborts_on_failing_getter_witness :
  ∃ out,
    report show_float
      (Ok (Backend "ibm_brisbane" 2 (Ok (BackendStatus true 3))
             (Ok (Some bad_props)))) world0
      = (Raise (Exn ExternalError "no T1 for this qubit"),
         add_stdout out world0) ∧
    length out = (3 + 4 * Z.to_nat 0)%nat.
Proof.
  apply (report_aborts_on_failing_getter show_float
           (Backend "ibm_brisbane" 2 (Ok (BackendStatus true 3))
              (Ok (Some bad_props))) bad_props 0).
  - reflexivity.
  - cbn. lia.
  - intros q' Hq'. exfalso. lia.
  - reflexivity.
Defined.

End OneMachineWitnesses.
